(** * Chess training dashboard: the analysis core

    A shallow embedding of the PGN parser ([parsePgn], [parseMoves],
    [extractBasicInfo]) and of the analysis pipelines of [ChessAnalyzer]
    and [MockStockfish] (server/analysis.ts), followed by the properties
    the specification states about them.

    Conventions.
    - A JavaScript string is a [string]; an [ascii] stands for one UTF-16
      code unit below 256, so the character classes are the JavaScript ones
      cut down to that range.
    - Code that mutates objects and throws is written in a small state and
      exception monad; [try { } catch { }] is [tryCatch], and the local
      variables a loop assigns are part of the state, so that they keep
      their values when an exception leaves the loop.
    - Numbers that are integers in the code are in [Z] or [nat]; the two
      percentages are exact fractions in [Q].
    - The chess.js library is not part of the repository: the pipelines
      are parametric in the record [ChessJs.Engine] of the operations they
      call, and theorems that need a contract of chess.js take it as a
      hypothesis.  [ChessRules] implements the operations by the rules of
      chess, to run the pipelines on concrete games. *)

From Stdlib Require Import String Ascii List ZArith QArith Lia Bool Arith DecimalString.
Import ListNotations.
Local Open Scope string_scope.

(* ===================================================================== *)
(** * JavaScript string primitives used by the parser *)
(* ===================================================================== *)

Module JS.

Definition code (c : ascii) : nat := nat_of_ascii c.

Definition between (lo hi : nat) (c : ascii) : bool :=
  (lo <=? code c)%nat && (code c <=? hi)%nat.

(** [\s], and the characters [trim] removes: TAB, LF, VT, FF, CR, space
    and U+00A0. *)
Definition isWhiteSpace (c : ascii) : bool :=
  between 9 13 c || (code c =? 32)%nat || (code c =? 160)%nat.

(** [\d] *)
Definition isDigit (c : ascii) : bool := between 48 57 c.

Definition isUpper (c : ascii) : bool := between 65 90 c.
Definition isLower (c : ascii) : bool := between 97 122 c.

(** [[a-zA-Z0-9]] *)
Definition isAlnum (c : ascii) : bool := isLower c || isUpper c || isDigit c.

(** [\w] *)
Definition isWordChar (c : ascii) : bool := isAlnum c || (code c =? 95)%nat.

Definition quote : ascii := ascii_of_nat 34.
Definition CR : ascii := ascii_of_nat 13.
Definition LF : ascii := ascii_of_nat 10.

Definition isEmpty (s : string) : bool :=
  match s with EmptyString => true | _ => false end.

(** Longest prefix whose characters satisfy [p], and the rest: what a
    greedy [p*] consumes. *)
Fixpoint span (p : ascii -> bool) (s : string) : string * string :=
  match s with
  | EmptyString => (EmptyString, EmptyString)
  | String c r =>
      if p c then let (a, z) := span p r in (String c a, z)
      else (EmptyString, s)
  end.

Fixpoint all (p : ascii -> bool) (s : string) : bool :=
  match s with
  | EmptyString => true
  | String c r => p c && all p r
  end.

Fixpoint any (p : ascii -> bool) (s : string) : bool :=
  match s with
  | EmptyString => false
  | String c r => p c || any p r
  end.

Fixpoint trimStart (s : string) : string :=
  match s with
  | EmptyString => EmptyString
  | String c r => if isWhiteSpace c then trimStart r else s
  end.

Fixpoint trimEnd (s : string) : string :=
  match s with
  | EmptyString => EmptyString
  | String c r => if all isWhiteSpace s then EmptyString else String c (trimEnd r)
  end.

(** [s.trim()] *)
Definition trim (s : string) : string := trimEnd (trimStart s).

(** [s.toLowerCase()]: A-Z, and the Latin-1 capitals U+00C0..U+00DE
    except the multiplication sign U+00D7. *)
Definition lowerChar (c : ascii) : ascii :=
  if isUpper c || (between 192 222 c && negb (code c =? 215)%nat)
  then ascii_of_nat (code c + 32) else c.

Fixpoint toLowerCase (s : string) : string :=
  match s with
  | EmptyString => EmptyString
  | String c r => String (lowerChar c) (toLowerCase r)
  end.

(** [s.replace(/\r\n/g, '\n')] *)
Fixpoint replaceCRLF (s : string) : string :=
  match s with
  | EmptyString => EmptyString
  | String c r =>
      match r with
      | String d r' =>
          if Ascii.eqb c CR && Ascii.eqb d LF
          then String LF (replaceCRLF r')
          else String c (replaceCRLF r)
      | EmptyString => String c EmptyString
      end
  end.

(** [s.lastIndexOf(c)], -1 when [c] does not occur. *)
Fixpoint lastIndexFrom (c : ascii) (s : string) (i : Z) (found : Z) : Z :=
  match s with
  | EmptyString => found
  | String d r => lastIndexFrom c r (i + 1) (if Ascii.eqb d c then i else found)
  end.

Definition lastIndexOf (c : ascii) (s : string) : Z := lastIndexFrom c s 0 (-1).

(** [s.substring(n)] for [n >= 0]. *)
Fixpoint substring (n : nat) (s : string) : string :=
  match n, s with
  | O, _ => s
  | S n', String _ r => substring n' r
  | S _, EmptyString => EmptyString
  end.

(** [s.startsWith(p)], with the remainder. *)
Fixpoint stripPrefix (p s : string) : option string :=
  match p, s with
  | EmptyString, _ => Some s
  | String a p', String c r => if Ascii.eqb a c then stripPrefix p' r else None
  | String _ _, EmptyString => None
  end.

(** [s.includes(t)] *)
Fixpoint includes (s t : string) : bool :=
  match stripPrefix t s with
  | Some _ => true
  | None => match s with
            | EmptyString => false
            | String _ r => includes r t
            end
  end.

(** [s.split(sep)] for a one-character separator: never empty. *)
Fixpoint splitChar (sep : ascii) (s : string) : list string :=
  match s with
  | EmptyString => [EmptyString]
  | String c r =>
      if Ascii.eqb c sep then EmptyString :: splitChar sep r
      else match splitChar sep r with
           | hd :: tl => String c hd :: tl
           | [] => [String c EmptyString]
           end
  end.

(** [s.split(/\s+/)]: a maximal run of white space is one separator.
    [inSep] tells that the previous character belonged to a separator. *)
Fixpoint splitSpacesFrom (inSep : bool) (s : string) : list string :=
  match s with
  | EmptyString => [EmptyString]
  | String c r =>
      if isWhiteSpace c then
        if inSep then splitSpacesFrom true r
        else EmptyString :: splitSpacesFrom true r
      else match splitSpacesFrom false r with
           | hd :: tl => String c hd :: tl
           | [] => [String c EmptyString]
           end
  end.

Definition splitSpaces (s : string) : list string := splitSpacesFrom false s.

(** Value of a digit in radix 16 (and so in radix 10). *)
Definition digitValue (c : ascii) : option Z :=
  if isDigit c then Some (Z.of_nat (code c) - 48)%Z
  else if between 97 102 c then Some (Z.of_nat (code c) - 87)%Z
  else if between 65 70 c then Some (Z.of_nat (code c) - 55)%Z
  else None.

Definition isRadixDigit (radix : Z) (c : ascii) : bool :=
  match digitValue c with
  | Some v => (v <? radix)%Z
  | None => false
  end.

Fixpoint digitsValue (radix : Z) (acc : Z) (s : string) : Z :=
  match s with
  | EmptyString => acc
  | String c r =>
      match digitValue c with
      | Some v => digitsValue radix (acc * radix + v)%Z r
      | None => acc
      end
  end.

(** [parseInt(s)] without a radix argument; [None] is NaN.  The value is
    the exact integer (the double JavaScript returns is its rounding). *)
Definition parseInt (s : string) : option Z :=
  let s1 := trimStart s in
  let '(sign, s2) :=
    match s1 with
    | String "-" r => ((-1)%Z, r)
    | String "+" r => (1%Z, r)
    | _ => (1%Z, s1)
    end in
  let '(radix, s3) :=
    match s2 with
    | String "0" (String "x" r) => (16%Z, r)
    | String "0" (String "X" r) => (16%Z, r)
    | _ => (10%Z, s2)
    end in
  let (z, _) := span (isRadixDigit radix) s3 in
  if isEmpty z then None else Some (sign * digitsValue radix 0 z)%Z.

End JS.

(* ===================================================================== *)
(** * The PGN parser (pgn-parser) *)
(* ===================================================================== *)

Module Pgn.

(** [interface ChessMove]; the parser fills in [move] only. *)
Record ChessMove := { move : string }.

(** [interface ChessGame]; an absent optional field is [None]. *)
Record ChessGame := {
  event : option string;
  site : option string;
  date : option string;
  white : option string;
  black : option string;
  result : option string;
  timeControl : option string;
  eco : option string;
  opening : option string;
  moves : list ChessMove;
  fen : option string;
  rawPgn : string
}.

(** [{ moves: [], rawPgn: cleanPgn }] *)
Definition emptyGame (cleanPgn : string) : ChessGame :=
  {| event := None; site := None; date := None; white := None; black := None;
     result := None; timeControl := None; eco := None; opening := None;
     moves := []; fen := None; rawPgn := cleanPgn |}.

Definition setEvent (v : string) (g : ChessGame) : ChessGame :=
  {| event := Some v; site := site g; date := date g; white := white g;
     black := black g; result := result g; timeControl := timeControl g; eco := eco g;
     opening := opening g; moves := moves g; fen := fen g; rawPgn := rawPgn g |}.
Definition setSite (v : string) (g : ChessGame) : ChessGame :=
  {| event := event g; site := Some v; date := date g; white := white g;
     black := black g; result := result g; timeControl := timeControl g; eco := eco g;
     opening := opening g; moves := moves g; fen := fen g; rawPgn := rawPgn g |}.
Definition setDate (v : string) (g : ChessGame) : ChessGame :=
  {| event := event g; site := site g; date := Some v; white := white g;
     black := black g; result := result g; timeControl := timeControl g; eco := eco g;
     opening := opening g; moves := moves g; fen := fen g; rawPgn := rawPgn g |}.
Definition setWhite (v : string) (g : ChessGame) : ChessGame :=
  {| event := event g; site := site g; date := date g; white := Some v;
     black := black g; result := result g; timeControl := timeControl g; eco := eco g;
     opening := opening g; moves := moves g; fen := fen g; rawPgn := rawPgn g |}.
Definition setBlack (v : string) (g : ChessGame) : ChessGame :=
  {| event := event g; site := site g; date := date g; white := white g;
     black := Some v; result := result g; timeControl := timeControl g; eco := eco g;
     opening := opening g; moves := moves g; fen := fen g; rawPgn := rawPgn g |}.
Definition setResult (v : string) (g : ChessGame) : ChessGame :=
  {| event := event g; site := site g; date := date g; white := white g;
     black := black g; result := Some v; timeControl := timeControl g; eco := eco g;
     opening := opening g; moves := moves g; fen := fen g; rawPgn := rawPgn g |}.
Definition setTimeControl (v : string) (g : ChessGame) : ChessGame :=
  {| event := event g; site := site g; date := date g; white := white g;
     black := black g; result := result g; timeControl := Some v; eco := eco g;
     opening := opening g; moves := moves g; fen := fen g; rawPgn := rawPgn g |}.
Definition setEco (v : string) (g : ChessGame) : ChessGame :=
  {| event := event g; site := site g; date := date g; white := white g;
     black := black g; result := result g; timeControl := timeControl g; eco := Some v;
     opening := opening g; moves := moves g; fen := fen g; rawPgn := rawPgn g |}.
Definition setOpening (v : string) (g : ChessGame) : ChessGame :=
  {| event := event g; site := site g; date := date g; white := white g;
     black := black g; result := result g; timeControl := timeControl g; eco := eco g;
     opening := Some v; moves := moves g; fen := fen g; rawPgn := rawPgn g |}.
Definition setFen (v : string) (g : ChessGame) : ChessGame :=
  {| event := event g; site := site g; date := date g; white := white g;
     black := black g; result := result g; timeControl := timeControl g; eco := eco g;
     opening := opening g; moves := moves g; fen := Some v; rawPgn := rawPgn g |}.
(** [game.moves.push(...)] for each of [ms]. *)
Definition pushMoves (ms : list ChessMove) (g : ChessGame) : ChessGame :=
  {| event := event g; site := site g; date := date g; white := white g;
     black := black g; result := result g; timeControl := timeControl g; eco := eco g;
     opening := opening g; moves := (moves g ++ ms)%list; fen := fen g; rawPgn := rawPgn g |}.

(** The [switch (key.toLowerCase())] of [parsePgn]. *)
Definition setHeader (key value : string) (game : ChessGame) : ChessGame :=
  let k := JS.toLowerCase key in
  if String.eqb k "event" then setEvent value game
  else if String.eqb k "site" then setSite value game
  else if String.eqb k "date" then setDate value game
  else if String.eqb k "white" then setWhite value game
  else if String.eqb k "black" then setBlack value game
  else if String.eqb k "result" then setResult value game
  else if String.eqb k "timecontrol" then setTimeControl value game
  else if String.eqb k "eco" then setEco value game
  else if String.eqb k "opening" then setOpening value game
  else if String.eqb k "fen" then setFen value game
  else game.

(** A match of the header pattern at the head of [s]: an opening
    bracket, [\w+] (the key), [\s+], a double quote, any characters but
    the double quote (the value), a double quote and the closing bracket.
    The result is the two groups and the length of the match.  Every
    quantifier is followed by a character outside its class, so the
    greedy choice is the only one. *)
Definition matchHeader (s : string) : option (string * string * nat) :=
  match s with
  | String "[" r =>
      let (key, r1) := JS.span JS.isWordChar r in
      let (ws, r2) := JS.span JS.isWhiteSpace r1 in
      if JS.isEmpty key || JS.isEmpty ws then None
      else match r2 with
           | String q r3 =>
               if Ascii.eqb q JS.quote then
                 let (value, r4) :=
                   JS.span (fun c => negb (Ascii.eqb c JS.quote)) r3 in
                 match r4 with
                 | String q' (String "]" _) =>
                     if Ascii.eqb q' JS.quote
                     then Some (key, value,
                                (String.length key + String.length ws + String.length value + 4)%nat)
                     else None
                 | _ => None
                 end
               else None
           | EmptyString => None
           end
  | _ => None
  end.

(** The [while ((headerMatch = headerRegex.exec(cleanPgn)) !== null)]
    loop: matches are taken left to right, the search resuming after
    each match ([skip] characters of the last match are still to pass). *)
Fixpoint execHeaders (skip : nat) (s : string) (game : ChessGame) : ChessGame :=
  match s with
  | EmptyString => game
  | String _ r =>
      match skip with
      | S k => execHeaders k r game
      | O =>
          match matchHeader s with
          | Some (key, value, len) => execHeaders (len - 1) r (setHeader key value game)
          | None => execHeaders 0 r game
          end
      end
  end.

Definition resultTokens : list string := ["1-0"; "0-1"; "1/2-1/2"; "*"].

(** [s] as a whole is white space, one of the four result tokens, white
    space: the pattern of [parseMoves] anchored at the end of the text. *)
Definition matchesResultTail (s : string) : bool :=
  let s1 := JS.trimStart s in
  existsb (fun tok =>
             match JS.stripPrefix tok s1 with
             | Some rest => JS.all JS.isWhiteSpace rest
             | None => false
             end) resultTokens.

(** The first [replace] of [parseMoves] (result at the end of the text):
    the leftmost position from which the rest of the text matches is cut
    off. *)
Fixpoint stripResult (s : string) : string :=
  if matchesResultTail s then EmptyString
  else match s with
       | EmptyString => EmptyString
       | String c r => String c (stripResult r)
       end.

(** Length of a match of [\d+], a dot, [\s*] at the head of [s]. *)
Definition matchMoveNumber (s : string) : option nat :=
  let (ds, r1) := JS.span JS.isDigit s in
  if JS.isEmpty ds then None
  else match r1 with
       | String "." r2 =>
           let (ws, _) := JS.span JS.isWhiteSpace r2 in
           Some (String.length ds + 1 + String.length ws)%nat
       | _ => None
       end.

(** The second [replace] of [parseMoves], global: every move number is
    removed, the search resuming after each match. *)
Fixpoint stripMoveNumbers (skip : nat) (s : string) : string :=
  match s with
  | EmptyString => EmptyString
  | String c r =>
      match skip with
      | S k => stripMoveNumbers k r
      | O =>
          match matchMoveNumber s with
          | Some len => stripMoveNumbers (len - 1) r
          | None => String c (stripMoveNumbers 0 r)
          end
      end
  end.

(** [function parseMoves(moveText, game)] *)
Definition parseMoves (moveText : string) (game : ChessGame) : ChessGame :=
  let moveText := stripResult moveText in
  let moveText := stripMoveNumbers 0 moveText in
  let moveParts :=
    filter (fun part => negb (JS.isEmpty (JS.trim part))) (JS.splitSpaces moveText) in
  pushMoves
    (map (fun m => {| move := m |}) (filter (JS.any JS.isAlnum) moveParts))
    game.

(** [export function parsePgn(pgn)] *)
Definition parsePgn (pgn : string) : ChessGame :=
  let cleanPgn := JS.trim (JS.replaceCRLF pgn) in
  let game := emptyGame cleanPgn in
  let game := execHeaders 0 cleanPgn game in
  let lastHeaderIndex := JS.lastIndexOf "]" cleanPgn in
  if (lastHeaderIndex =? -1)%Z then parseMoves cleanPgn game
  else
    let moveText := JS.trim (JS.substring (Z.to_nat (lastHeaderIndex + 1)) cleanPgn) in
    parseMoves moveText game.

(** [new Date(year, month, day)], by its three arguments; [monthIndex]
    counts from 0, so 2 is March. *)
Record JSDate := { year : Z; monthIndex : Z; day : Z }.

Record BasicInfo := {
  info_white : string;
  info_black : string;
  info_result : string;
  info_date : option JSDate;
  info_opening : option string;
  info_timeControl : option string
}.

(** [x || d] for an optional string: undefined and the empty string are
    falsy. *)
Definition orElse (x : option string) (d : string) : string :=
  match x with
  | Some s => if JS.isEmpty s then d else s
  | None => d
  end.

(** The [let date ... if (game.date) { ... }] block of [extractBasicInfo]. *)
Definition parseDate (d : option string) : option JSDate :=
  match d with
  | Some s =>
      if JS.isEmpty s then None
      else match JS.splitChar "." s with
           | [p0; p1; p2] =>
               let year := JS.parseInt p0 in
               let month := option_map (fun m => m - 1)%Z (JS.parseInt p1) in
               let day := JS.parseInt p2 in
               match year, month, day with
               | Some y, Some m, Some dd =>
                   Some {| year := y; monthIndex := m; day := dd |}
               | _, _, _ => None
               end
           | _ => None
           end
  | None => None
  end.

(** [export function extractBasicInfo(pgn)] *)
Definition extractBasicInfo (pgn : string) : BasicInfo :=
  let game := parsePgn pgn in
  {| info_white := orElse (white game) "Unknown";
     info_black := orElse (black game) "Unknown";
     info_result := orElse (result game) "*";
     info_date := parseDate (date game);
     info_opening := opening game;
     info_timeControl := timeControl game |}.

End Pgn.

(* ===================================================================== *)
(** * Mutable state and exceptions *)
(* ===================================================================== *)

(** How a statement ends: normally with a value, or by throwing.  The
    thrown value is only ever logged, so it is not kept. *)
Inductive Completion (A : Type) : Type :=
| Normal (a : A)
| Throw.
Arguments Normal {A} a.
Arguments Throw {A}.

(** A computation over the mutable state [S].  The state reached when an
    exception is thrown is kept: what was assigned before the [throw] stays
    assigned in the [catch] block. *)
Definition M (S A : Type) : Type := S -> Completion A * S.

Definition ret {S A : Type} (a : A) : M S A := fun s => (Normal a, s).

Definition bind {S A B : Type} (m : M S A) (k : A -> M S B) : M S B :=
  fun s => match m s with
           | (Normal a, s') => k a s'
           | (Throw, s') => (Throw, s')
           end.

(** [try { body } catch (error) { handler }] *)
Definition tryCatch {S A : Type} (body handler : M S A) : M S A :=
  fun s => match body s with
           | (Normal a, s') => (Normal a, s')
           | (Throw, s') => handler s'
           end.

Definition gets {S A : Type} (f : S -> A) : M S A := fun s => (Normal (f s), s).
Definition modify {S : Type} (f : S -> S) : M S unit := fun s => (Normal tt, f s).

(** A computation on a part [T] of the state. *)
Definition zoom {S T A : Type} (proj : S -> T) (upd : T -> S -> S) (m : M T A) : M S A :=
  fun s => let (r, t) := m (proj s) in (r, upd t s).

(** Calling an [async] function without awaiting it: the call runs, and how
    it ended is held by the promise. *)
Definition promise {S A : Type} (m : M S A) : M S (Completion A) :=
  fun s => let (r, s') := m s in (Normal r, s').

(** [await p] *)
Definition await {S A : Type} (p : Completion A) : M S A := fun s => (p, s).

Declare Scope js_scope.
Delimit Scope js_scope with js.
Notation "x <- c ;; k" := (bind c (fun x => k))
  (at level 100, c at next level, right associativity) : js_scope.
Notation "c ;; k" := (bind c (fun _ => k))
  (at level 100, right associativity) : js_scope.
Local Open Scope js_scope.

(** [for (let i = i0; i < l.length; i++) { const x = l[i]; body }], on the
    elements from index [i0] on. *)
Fixpoint forIndex {St A : Type} (i : nat) (l : list A) (body : nat -> A -> M St unit)
  : M St unit :=
  match l with
  | [] => ret tt
  | x :: rest => body i x ;; forIndex (S i) rest body
  end.

(** A [for ... of] loop whose body may [return v]: [Some v] leaves the loop
    (and the function) with [v], [None] goes on to the next element. *)
Fixpoint forOfReturn {S A R : Type} (l : list A) (body : A -> M S (option R))
  : M S (option R) :=
  match l with
  | [] => ret None
  | x :: rest =>
      r <- body x ;;
      match r with
      | Some v => ret (Some v)
      | None => forOfReturn rest body
      end
  end.

(** A [for ... of] loop that updates one local variable. *)
Fixpoint forOfAcc {S A B : Type} (l : list A) (body : B -> A -> M S B) (acc : B)
  : M S B :=
  match l with
  | [] => ret acc
  | x :: rest => acc' <- body acc x ;; forOfAcc rest body acc'
  end.

(* ===================================================================== *)
(** * Numbers *)
(* ===================================================================== *)

(** The numbers an evaluation can be: the material scores are integers,
    and [-Infinity] is the initial value of the best-move search. *)
Inductive Num : Type :=
| NegInfinity
| Finite (z : Z)
| Infinity.

Module Num.

(** [a > b] *)
Definition gtb (a b : Num) : bool :=
  match a, b with
  | NegInfinity, _ => false
  | Finite _, NegInfinity => true
  | Finite x, Finite y => (y <? x)%Z
  | Finite _, Infinity => false
  | Infinity, Infinity => false
  | Infinity, _ => true
  end.

(** [Math.abs(a - b)] for a finite [b]. *)
Definition absDiff (a : Num) (b : Z) : Num :=
  match a with
  | NegInfinity => Infinity
  | Finite x => Finite (Z.abs (x - b))
  | Infinity => Infinity
  end.

(** [a > t] and [a < t] for a fractional literal [t] such as [0.5]. *)
Definition gtQ (a : Num) (t : Q) : bool :=
  match a with
  | NegInfinity => false
  | Finite x => negb (Qle_bool (inject_Z x) t)
  | Infinity => true
  end.

Definition ltQ (a : Num) (t : Q) : bool :=
  match a with
  | NegInfinity => true
  | Finite x => negb (Qle_bool t (inject_Z x))
  | Infinity => false
  end.

End Num.

(** [n > 0 ? (k / n) * 100 : 0] on counters, as an exact fraction (the
    double JavaScript computes is its rounding). *)
Definition percentage (k n : nat) : Q :=
  if (0 <? n)%nat
  then (inject_Z (Z.of_nat k) / inject_Z (Z.of_nat n)) * inject_Z 100
  else 0.

(* ===================================================================== *)
(** * The chess.js interface *)
(* ===================================================================== *)

(** ['w' | 'b'] *)
Inductive Color : Type := WHITE | BLACK.

(** ['p' | 'n' | 'b' | 'r' | 'q' | 'k'] *)
Inductive PieceSymbol : Type := PAWN | KNIGHT | BISHOP | ROOK | QUEEN | KING.

Record Piece := { color : Color; type : PieceSymbol }.

(** A verbose move of [chess.moves({ verbose: true })]; the analysis reads
    [san] and [flags] and hands the object back to [chess.move]. *)
Record Move := {
  from : string;
  to : string;
  san : string;
  flags : string;
  promotion : option PieceSymbol
}.

Definition Board : Type := list (list (option Piece)).

Definition Color_eqb (a b : Color) : bool :=
  match a, b with
  | WHITE, WHITE | BLACK, BLACK => true
  | _, _ => false
  end.

Definition PieceSymbol_eqb (a b : PieceSymbol) : bool :=
  match a, b with
  | PAWN, PAWN | KNIGHT, KNIGHT | BISHOP, BISHOP
  | ROOK, ROOK | QUEEN, QUEEN | KING, KING => true
  | _, _ => false
  end.

(** The operations of a [Chess] object the analysis calls.  [Chess] is the
    whole state of one object, undo history included.  An operation that
    can throw returns [None] when it does, and then leaves the object as it
    was. *)
Module ChessJs.

Class Engine : Type := {
  Chess : Type;
  newChess : Chess;                                (* new Chess() *)
  reset : Chess -> Chess;                          (* chess.reset() *)
  load : Chess -> string -> option Chess;          (* chess.load(fen) *)
  fen : Chess -> string;                           (* chess.fen() *)
  turn : Chess -> Color;                           (* chess.turn() *)
  board : Chess -> Board;                          (* chess.board() *)
  get : Chess -> string -> option Piece;           (* chess.get(square) *)
  isAttacked : Chess -> string -> Color -> bool;   (* chess.isAttacked(square, color) *)
  moves : Chess -> list string;                    (* chess.moves() *)
  movesVerbose : Chess -> list Move;               (* chess.moves({ verbose: true }) *)
  move : Chess -> string -> option Chess;          (* chess.move(san) *)
  moveObject : Chess -> Move -> option Chess;      (* chess.move(moveObject) *)
  undo : Chess -> Chess                            (* chess.undo() *)
}.

End ChessJs.

(** [board[row][col]]; an empty square is [null]. *)
Definition pieceAt (b : Board) (row col : nat) : option Piece :=
  nth col (nth row b []) None.

(** [String.fromCharCode(97 + col) + (8 - row)] *)
Definition squareName (row col : nat) : string :=
  String (ascii_of_nat (97 + col)) (String (ascii_of_nat (48 + (8 - row))) EmptyString).

(** The two nested loops [for (row = 0; row < 8; row++) for (col = 0; col <
    8; col++)], as the list of the pairs they visit, in order. *)
Definition squares : list (nat * nat) :=
  flat_map (fun row => map (fun col => (row, col)) (seq 0 8)) (seq 0 8).

(* ===================================================================== *)
(** * Result types (server/analysis.ts) *)
(* ===================================================================== *)

Inductive MoveQuality : Type := blunder | mistake | inaccuracy | good | excellent.

Module KeyMoment.
Record t := {
  moveNumber : nat;
  position : string;
  type : MoveQuality;
  description : string
}.
End KeyMoment.

Module GameAnalysisResult.
Record t := {
  outcome : string;
  userColor : string;
  accuracy : Q;
  blunders : nat;
  mistakes : nat;
  inaccuracies : nat;
  keyMoments : list KeyMoment.t
}.
End GameAnalysisResult.

Module MissedTactic.
Record t := {
  moveNumber : nat;
  position : string;
  tactic : string;
  explanation : string
}.
End MissedTactic.

Module ExecutedTactic.
Record t := {
  moveNumber : nat;
  position : string;
  tactic : string
}.
End ExecutedTactic.

Module TacticsAnalysisResult.
Record t := {
  missedTactics : list MissedTactic.t;
  executedTactics : list ExecutedTactic.t
}.
End TacticsAnalysisResult.

Module CommonLine.
Record t := { name : string; moves : string }.
End CommonLine.

Module OpeningsAnalysisResult.
Record t := {
  eco : string;
  name : string;
  accuracy : Q;
  commonLines : list CommonLine.t;
  recommendations : list string
}.
End OpeningsAnalysisResult.

Module FundamentalsAnalysisResult.
Record t := {
  pieceDevelopment : Z;
  centerControl : Z;
  kingSafety : Z;
  pawnStructure : Z;
  recommendations : list string
}.
End FundamentalsAnalysisResult.

(** What [findTactics] returns. *)
Record TacticInfo := {
  hasTactic : bool;
  tacticType : string;
  bestMove : string;
  explanation : string
}.

(** What [getBestMove] returns. *)
Module BestMove.
Record t := { move : string; evaluation : Num }.
End BestMove.

(** A parsed JSON document: what [JSON.parse] gives for the reply of the
    remote model. *)
#[local] Unset Elimination Schemes.
Inductive Json : Type :=
| JNull
| JBool (b : bool)
| JNumber (q : Q)
| JString (s : string)
| JArray (items : list Json)
| JObject (fields : list (string * Json)).
#[local] Set Elimination Schemes.

(** A value of static type [A] at run time: a value built by the analyzer
    itself, or a JSON document given that type by an unchecked cast
    ([gameAnalysis as GameAnalysisResult]). *)
Inductive Dyn (A : Type) : Type :=
| Typed (a : A)
| Cast (j : Json).
Arguments Typed {A} a.
Arguments Cast {A} j.

(** The value [analyzePgn] resolves to. *)
Module AnalysisBundle.
Record t := {
  game : Dyn GameAnalysisResult.t;
  tactics : Dyn TacticsAnalysisResult.t;
  openings : Dyn OpeningsAnalysisResult.t;
  fundamentals : Dyn FundamentalsAnalysisResult.t
}.
End AnalysisBundle.

(** The [gameInfo] object of [analyzePgn], from which the four prompts are
    generated. *)
Module GameInfo.
Record t := {
  pgn : string;
  white : string;
  black : string;
  result : string;
  event : string;
  date : string;
  opening : string;
  eco : string;
  moveCount : nat;
  userColor : string
}.
End GameInfo.

(** The local variables the loops of the pipelines assign. *)
Module GameVars.
Record t := {
  blunders : nat;
  mistakes : nat;
  inaccuracies : nat;
  keyMoments : list KeyMoment.t;
  totalMoves : nat;
  goodMoves : nat
}.
Definition init : t :=
  {| blunders := 0; mistakes := 0; inaccuracies := 0; keyMoments := [];
     totalMoves := 0; goodMoves := 0 |}.
(** [blunders++] and the like. *)
Definition incBlunders (v : t) : t :=
  {| blunders := S (blunders v); mistakes := mistakes v; inaccuracies := inaccuracies v;
     keyMoments := keyMoments v; totalMoves := totalMoves v; goodMoves := goodMoves v |}.
Definition incMistakes (v : t) : t :=
  {| blunders := blunders v; mistakes := S (mistakes v); inaccuracies := inaccuracies v;
     keyMoments := keyMoments v; totalMoves := totalMoves v; goodMoves := goodMoves v |}.
Definition incInaccuracies (v : t) : t :=
  {| blunders := blunders v; mistakes := mistakes v; inaccuracies := S (inaccuracies v);
     keyMoments := keyMoments v; totalMoves := totalMoves v; goodMoves := goodMoves v |}.
Definition pushKeyMoment (k : KeyMoment.t) (v : t) : t :=
  {| blunders := blunders v; mistakes := mistakes v; inaccuracies := inaccuracies v;
     keyMoments := (keyMoments v ++ [k])%list; totalMoves := totalMoves v; goodMoves := goodMoves v |}.
Definition incTotalMoves (v : t) : t :=
  {| blunders := blunders v; mistakes := mistakes v; inaccuracies := inaccuracies v;
     keyMoments := keyMoments v; totalMoves := S (totalMoves v); goodMoves := goodMoves v |}.
Definition incGoodMoves (v : t) : t :=
  {| blunders := blunders v; mistakes := mistakes v; inaccuracies := inaccuracies v;
     keyMoments := keyMoments v; totalMoves := totalMoves v; goodMoves := S (goodMoves v) |}.
End GameVars.

Module TacticsVars.
Record t := {
  missedTactics : list MissedTactic.t;
  executedTactics : list ExecutedTactic.t
}.
Definition init : t := {| missedTactics := []; executedTactics := [] |}.
Definition pushMissed x v :=
  {| missedTactics := missedTactics v ++ [x]; executedTactics := executedTactics v |}.
Definition pushExecuted x v :=
  {| missedTactics := missedTactics v; executedTactics := executedTactics v ++ [x] |}.
End TacticsVars.

Module FundamentalsVars.
Record t := {
  pieceDevelopmentScore : Z;
  centerControlScore : Z;
  kingSafetyScore : Z;
  pawnStructureScore : Z
}.
Definition init : t :=
  {| pieceDevelopmentScore := 0; centerControlScore := 0;
     kingSafetyScore := 0; pawnStructureScore := 0 |}.
(** The four [+=] of the loop body. *)
Definition add (d c k p : Z) (v : t) : t :=
  {| pieceDevelopmentScore := pieceDevelopmentScore v + d;
     centerControlScore := centerControlScore v + c;
     kingSafetyScore := kingSafetyScore v + k;
     pawnStructureScore := pawnStructureScore v + p |}.
End FundamentalsVars.

(** Run [m] with fresh local variables [init]; they are dropped when the
    function is left. *)
Definition withLocals {St V A : Type} (init : V) (m : M (St * V) A) : M St (A * V) :=
  fun s => match m (s, init) with
           | (Normal a, (s', v)) => (Normal (a, v), s')
           | (Throw, (s', _)) => (Throw, s')
           end.

Definition outer {St V A : Type} (m : M St A) : M (St * V) A :=
  zoom fst (fun s sv => (s, snd sv)) m.

Definition assign {St V : Type} (f : V -> V) : M (St * V) unit :=
  modify (fun sv => (fst sv, f (snd sv))).

(* ===================================================================== *)
(** * MockStockfish and ChessAnalyzer (server/analysis.ts) *)
(* ===================================================================== *)

Section Analysis.

Context {E : ChessJs.Engine}.

Abbreviation Chess := ChessJs.Chess.

(** ** Calls of chess.js methods on the object in the state *)

Definition chess_load (fen : string) : M Chess unit :=
  fun c => match ChessJs.load c fen with
           | Some c' => (Normal tt, c')
           | None => (Throw, c)
           end.

Definition chess_move (san : string) : M Chess unit :=
  fun c => match ChessJs.move c san with
           | Some c' => (Normal tt, c')
           | None => (Throw, c)
           end.

Definition chess_moveObject (m : Move) : M Chess unit :=
  fun c => match ChessJs.moveObject c m with
           | Some c' => (Normal tt, c')
           | None => (Throw, c)
           end.

Definition chess_undo : M Chess unit := modify ChessJs.undo.
Definition chess_reset : M Chess unit := modify ChessJs.reset.

(** ** class MockStockfish; the state is its [this.chess] *)

(** [setPosition(fen)] *)
Definition setPosition (fen : string) : M Chess unit :=
  tryCatch (chess_load fen) chess_reset.

(** The [pieceValues] table; the king has no entry. *)
Definition pieceValues (t : PieceSymbol) : option Z :=
  match t with
  | PAWN => Some 1%Z
  | KNIGHT => Some 3%Z
  | BISHOP => Some 3%Z
  | ROOK => Some 5%Z
  | QUEEN => Some 9%Z
  | KING => None
  end.

(** The two loops of [evaluateMaterial] over [board]. *)
Definition materialOf (board : Board) : Z :=
  fold_left
    (fun score '(row, col) =>
       match pieceAt board row col with
       | Some piece =>
           let value := match pieceValues (type piece) with
                        | Some v => v
                        | None => 0%Z
                        end in
           (score + (if Color_eqb (color piece) WHITE then value else - value))%Z
       | None => score
       end)
    squares 0%Z.

(** [evaluateMaterial()] *)
Definition evaluateMaterial : M Chess Z :=
  tryCatch
    (board <- gets ChessJs.board ;;
     ret (materialOf board))
    (ret 0%Z).

(** [evaluate()] *)
Definition evaluate : M Chess Z :=
  tryCatch evaluateMaterial (ret 0%Z).

(** [getBestMove()] *)
Definition getBestMove : M Chess BestMove.t :=
  tryCatch
    (moves <- gets ChessJs.movesVerbose ;;
     if (length moves =? 0)%nat
     then ret {| BestMove.move := EmptyString; BestMove.evaluation := Finite 0 |}
     else
       forOfAcc moves
         (fun bestMove move =>
            chess_moveObject move ;;
            e <- evaluate ;;
            let evaluation := Finite (- e) in
            chess_undo ;;
            ret (if Num.gtb evaluation (BestMove.evaluation bestMove)
                 then {| BestMove.move := san move; BestMove.evaluation := evaluation |}
                 else bestMove))
         {| BestMove.move := EmptyString; BestMove.evaluation := NegInfinity |})
    (ret {| BestMove.move := EmptyString; BestMove.evaluation := Finite 0 |}).

(** ** class ChessAnalyzer *)

(** The two [Chess] objects a pipeline works on: the one it is passed
    ([chess]) and the one owned by [this.chessEngine]. *)
Record Heap := { chess : Chess; chessEngine : Chess }.

Definition onChess {A : Type} (m : M Chess A) : M Heap A :=
  zoom chess (fun c h => {| chess := c; chessEngine := chessEngine h |}) m.

Definition onEngine {A : Type} (m : M Chess A) : M Heap A :=
  zoom chessEngine (fun c h => {| chess := chess h; chessEngine := c |}) m.

(** [determineUserColor(parsedGame, username)] *)
Definition determineUserColor (parsedGame : Pgn.ChessGame) (username : string) : string :=
  if match Pgn.white parsedGame with
     | Some w => String.eqb (JS.toLowerCase w) (JS.toLowerCase username)
     | None => false
     end
  then "white"
  else if match Pgn.black parsedGame with
          | Some b => String.eqb (JS.toLowerCase b) (JS.toLowerCase username)
          | None => false
          end
  then "black"
  else "white".

(** [(chess.turn() === 'w' && userColor === 'white') ||
     (chess.turn() === 'b' && userColor === 'black')] *)
Definition isUserMove (turn : Color) (userColor : string) : bool :=
  (Color_eqb turn WHITE && String.eqb userColor "white")
  || (Color_eqb turn BLACK && String.eqb userColor "black").

(** The [if / else if] chain of [runGameAnalysis] that classifies a move
    and counts it. *)
Definition classify (evalDiff : Num) : M (Heap * GameVars.t) MoveQuality :=
  if Num.gtQ evalDiff 2 then
    assign GameVars.incBlunders ;; ret blunder
  else if Num.gtQ evalDiff 1 then
    assign GameVars.incMistakes ;; ret mistake
  else if Num.gtQ evalDiff (1 # 2) then
    assign GameVars.incInaccuracies ;; ret inaccuracy
  else
    assign GameVars.incGoodMoves ;;
    ret (if Num.ltQ evalDiff (1 # 5) then excellent else good).

(** The inner [try { ... } catch (error) { chess.move(moveInfo.move) }] of
    [runGameAnalysis], for a move of the user. *)
Definition analyzeUserMove (i : nat) (moveInfo : Pgn.ChessMove) (currentPosition : string)
  : M (Heap * GameVars.t) unit :=
  tryCatch
    (outer (onEngine (setPosition currentPosition)) ;;
     bestMove <- outer (onEngine getBestMove) ;;
     outer (onChess (chess_move (Pgn.move moveInfo))) ;;
     after <- outer (onChess (gets ChessJs.fen)) ;;
     outer (onEngine (setPosition after)) ;;
     afterMoveEval <- outer (onEngine evaluate) ;;
     let evalDiff := Num.absDiff (BestMove.evaluation bestMove) afterMoveEval in
     moveQuality <- classify evalDiff ;;
     match moveQuality with
     | blunder =>
         assign (GameVars.pushKeyMoment
                   {| KeyMoment.moveNumber := i / 2 + 1;
                      KeyMoment.position := currentPosition;
                      KeyMoment.type := moveQuality;
                      KeyMoment.description :=
                        BestMove.move bestMove ++ " would have been much better." |})
     | excellent =>
         assign (GameVars.pushKeyMoment
                   {| KeyMoment.moveNumber := i / 2 + 1;
                      KeyMoment.position := currentPosition;
                      KeyMoment.type := moveQuality;
                      KeyMoment.description := "Perfect move!" |})
     | _ => ret tt
     end)
    (outer (onChess (chess_move (Pgn.move moveInfo)))).

(** The body of the [for] loop of [runGameAnalysis]. *)
Definition gameLoopBody (userColor : string) (i : nat) (moveInfo : Pgn.ChessMove)
  : M (Heap * GameVars.t) unit :=
  currentPosition <- outer (onChess (gets ChessJs.fen)) ;;
  turn <- outer (onChess (gets ChessJs.turn)) ;;
  if isUserMove turn userColor then
    assign GameVars.incTotalMoves ;;
    analyzeUserMove i moveInfo currentPosition
  else
    tryCatch (outer (onChess (chess_move (Pgn.move moveInfo)))) (ret tt).

(** [runGameAnalysis(chess, parsedGame, userColor)] *)
Definition runGameAnalysis (parsedGame : Pgn.ChessGame) (userColor : string)
  : M Heap GameAnalysisResult.t :=
  onChess chess_reset ;;
  let outcome :=
    match Pgn.result parsedGame with
    | Some result =>
        if JS.isEmpty result then "Unknown"
        else if String.eqb result "1-0" then
               (if String.eqb userColor "white" then "Win" else "Loss")
        else if String.eqb result "0-1" then
               (if String.eqb userColor "black" then "Win" else "Loss")
        else if String.eqb result "1/2-1/2" then "Draw"
        else "Unknown"
    | None => "Unknown"
    end in
  r <- withLocals GameVars.init
         (tryCatch
            (forIndex 0 (Pgn.moves parsedGame) (gameLoopBody userColor))
            (ret tt)) ;;
  let v := snd r in
  let accuracy := percentage (GameVars.goodMoves v) (GameVars.totalMoves v) in
  ret {| GameAnalysisResult.outcome := outcome;
         GameAnalysisResult.userColor := userColor;
         GameAnalysisResult.accuracy := accuracy;
         GameAnalysisResult.blunders := GameVars.blunders v;
         GameAnalysisResult.mistakes := GameVars.mistakes v;
         GameAnalysisResult.inaccuracies := GameVars.inaccuracies v;
         GameAnalysisResult.keyMoments := GameVars.keyMoments v |}.

(** [countAttackedPieces(chess)] *)
Definition countAttackedPieces : M Chess nat :=
  tryCatch
    (turn <- gets ChessJs.turn ;;
     let opponent := if Color_eqb turn WHITE then BLACK else WHITE in
     board <- gets ChessJs.board ;;
     c <- gets (fun c => c) ;;
     ret (fold_left
            (fun attackedCount '(row, col) =>
               match pieceAt board row col with
               | Some piece =>
                   if Color_eqb (color piece) opponent then
                     let square := squareName row col in
                     if ChessJs.isAttacked c square turn
                     then S attackedCount else attackedCount
                   else attackedCount
               | None => attackedCount
               end)
            squares 0%nat))
    (ret 0%nat).

Definition forkInfo (move : Move) : TacticInfo :=
  {| hasTactic := true;
     tacticType := "Fork";
     bestMove := san move;
     explanation :=
       "There's a fork opportunity where your piece can attack multiple pieces at once." |}.

Definition pinInfo (move : Move) : TacticInfo :=
  {| hasTactic := true;
     tacticType := "Pin/Skewer";
     bestMove := san move;
     explanation :=
       "There's an opportunity to pin or skewer one of your opponent's pieces." |}.

Definition noTactic : TacticInfo :=
  {| hasTactic := false; tacticType := EmptyString;
     bestMove := EmptyString; explanation := EmptyString |}.

(** The first loop of [findTactics]: forks. *)
Definition forkLoop (moves : list Move) : M Chess (option TacticInfo) :=
  forOfReturn moves
    (fun move =>
       chess_moveObject move ;;
       attackedPieces <- countAttackedPieces ;;
       if (2 <=? attackedPieces)%nat then
         let tacticInfo := forkInfo move in
         chess_undo ;;
         ret (Some tacticInfo)
       else
         chess_undo ;;
         ret None).

(** The second loop of [findTactics]: pins and skewers. *)
Definition pinLoop (moves : list Move) : M Chess (option TacticInfo) :=
  forOfReturn moves
    (fun move =>
       if JS.includes (flags move) "c" then
         chess_moveObject move ;;
         opponentMoves <- gets (fun c => length (ChessJs.moves c)) ;;
         if (opponentMoves <? 10)%nat then
           let tacticInfo := pinInfo move in
           chess_undo ;;
           ret (Some tacticInfo)
         else
           chess_undo ;;
           ret None
       else ret None).

(** [findTactics(chess)] *)
Definition findTactics : M Chess TacticInfo :=
  r <- tryCatch
         (moves <- gets ChessJs.movesVerbose ;;
          fork <- forkLoop moves ;;
          match fork with
          | Some tacticInfo => ret (Some tacticInfo)
          | None => pinLoop moves
          end)
         (ret None) ;;
  match r with
  | Some tacticInfo => ret tacticInfo
  | None => ret noTactic
  end.

(** The inner [try / catch] of [runTacticsAnalysis], for a move of the
    user. *)
Definition probeUserMove (i : nat) (moveInfo : Pgn.ChessMove) (currentPosition : string)
  : M (Heap * TacticsVars.t) unit :=
  tryCatch
    (tactics <- outer (onChess findTactics) ;;
     outer (onChess (chess_move (Pgn.move moveInfo))) ;;
     if hasTactic tactics && negb (String.eqb (bestMove tactics) (Pgn.move moveInfo)) then
       assign (TacticsVars.pushMissed
                 {| MissedTactic.moveNumber := i / 2 + 1;
                    MissedTactic.position := currentPosition;
                    MissedTactic.tactic := tacticType tactics;
                    MissedTactic.explanation := explanation tactics |})
     else if hasTactic tactics then
       assign (TacticsVars.pushExecuted
                 {| ExecutedTactic.moveNumber := i / 2 + 1;
                    ExecutedTactic.position := currentPosition;
                    ExecutedTactic.tactic := tacticType tactics |})
     else ret tt)
    (outer (onChess (chess_move (Pgn.move moveInfo)))).

(** The body of the [for] loop of [runTacticsAnalysis]. *)
Definition tacticsLoopBody (userColor : string) (i : nat) (moveInfo : Pgn.ChessMove)
  : M (Heap * TacticsVars.t) unit :=
  currentPosition <- outer (onChess (gets ChessJs.fen)) ;;
  turn <- outer (onChess (gets ChessJs.turn)) ;;
  if isUserMove turn userColor then
    probeUserMove i moveInfo currentPosition
  else
    tryCatch (outer (onChess (chess_move (Pgn.move moveInfo)))) (ret tt).

(** [runTacticsAnalysis(chess, parsedGame, userColor)] *)
Definition runTacticsAnalysis (parsedGame : Pgn.ChessGame) (userColor : string)
  : M Heap TacticsAnalysisResult.t :=
  onChess chess_reset ;;
  r <- withLocals TacticsVars.init
         (tryCatch
            (forIndex 0 (Pgn.moves parsedGame) (tacticsLoopBody userColor))
            (ret tt)) ;;
  let v := snd r in
  ret {| TacticsAnalysisResult.missedTactics := TacticsVars.missedTactics v;
         TacticsAnalysisResult.executedTactics := TacticsVars.executedTactics v |}.

(** [getCommonLinesForOpening(openingName)] *)
Definition openingsDatabase : list (string * list CommonLine.t) :=
  [ ("Sicilian",
     [ {| CommonLine.name := "Main line";
          CommonLine.moves := "1. e4 c5 2. Nf3 d6 3. d4 cxd4 4. Nxd4" |};
       {| CommonLine.name := "Najdorf";
          CommonLine.moves := "1. e4 c5 2. Nf3 d6 3. d4 cxd4 4. Nxd4 Nf6 5. Nc3 a6" |} ]);
    ("Ruy Lopez",
     [ {| CommonLine.name := "Main line";
          CommonLine.moves := "1. e4 e5 2. Nf3 Nc6 3. Bb5" |};
       {| CommonLine.name := "Berlin Defense";
          CommonLine.moves := "1. e4 e5 2. Nf3 Nc6 3. Bb5 Nf6" |} ]);
    ("French Defense",
     [ {| CommonLine.name := "Main line";
          CommonLine.moves := "1. e4 e6 2. d4 d5" |};
       {| CommonLine.name := "Advance Variation";
          CommonLine.moves := "1. e4 e6 2. d4 d5 3. e5" |} ]);
    ("Queen's Gambit",
     [ {| CommonLine.name := "Main line";
          CommonLine.moves := "1. d4 d5 2. c4" |};
       {| CommonLine.name := "Queen's Gambit Accepted";
          CommonLine.moves := "1. d4 d5 2. c4 dxc4" |};
       {| CommonLine.name := "Queen's Gambit Declined";
          CommonLine.moves := "1. d4 d5 2. c4 e6" |} ]) ].

Definition getCommonLinesForOpening (openingName : string) : list CommonLine.t :=
  match find (fun entry => JS.includes openingName (fst entry)) openingsDatabase with
  | Some entry => snd entry
  | None =>
      [ {| CommonLine.name := "Basic Opening Principles";
           CommonLine.moves := "1. Control the center 2. Develop pieces 3. Castle" |};
        {| CommonLine.name := "Common first moves";
           CommonLine.moves := "1. e4 or 1. d4 (as White), 1...e5 or 1...d5 (as Black)" |} ]
  end.

(** [generateOpeningRecommendations(openingName, userColor)] *)
Definition generateOpeningRecommendations (openingName userColor : string) : list string :=
  let generalRecommendations :=
    [ "Focus on developing your pieces in the opening";
      "Control the center with pawns or pieces";
      "Castle early to protect your king";
      "Connect your rooks by developing pieces" ] in
  if JS.includes openingName "Sicilian" then
    generalRecommendations ++
    [ "In the Sicilian, be prepared for tactical complications";
      "The Sicilian often leads to imbalanced positions, so calculate carefully" ]
  else if JS.includes openingName "Ruy Lopez" || JS.includes openingName "Spanish" then
    generalRecommendations ++
    [ "The Ruy Lopez is a strategic opening, focus on long-term plans";
      "Be careful with the bishop on b5, it can be targeted" ]
  else if JS.includes openingName "French" then
    generalRecommendations ++
    [ "In the French Defense, be prepared for closed positions";
      "Focus on pawn breaks to open up the position" ]
  else if JS.includes openingName "Queen's Gambit" then
    generalRecommendations ++
    [ "The Queen's Gambit often leads to solid, positional play";
      "Focus on piece development and piece coordination" ]
  else generalRecommendations.

(** The body of the [for] loop of [runOpeningsAnalysis]; the local
    variable is [numCorrectMoves]. *)
Definition openingsLoopBody (userColor : string) (i : nat) (moveInfo : Pgn.ChessMove)
  : M (Heap * nat) unit :=
  turn <- outer (onChess (gets ChessJs.turn)) ;;
  let isUserMove := isUserMove turn userColor in
  outer (onChess (chess_move (Pgn.move moveInfo))) ;;
  if isUserMove then
    if (i <? 12)%nat then assign S else ret tt
  else ret tt.

(** [runOpeningsAnalysis(chess, parsedGame, userColor)] *)
Definition runOpeningsAnalysis (parsedGame : Pgn.ChessGame) (userColor : string)
  : M Heap OpeningsAnalysisResult.t :=
  onChess chess_reset ;;
  let eco := Pgn.orElse (Pgn.eco parsedGame) EmptyString in
  let openingName := Pgn.orElse (Pgn.opening parsedGame) "Unknown Opening" in
  let openingMoves :=
    firstn (Nat.min 20 (length (Pgn.moves parsedGame))) (Pgn.moves parsedGame) in
  r <- withLocals 0%nat
         (tryCatch (forIndex 0 openingMoves (openingsLoopBody userColor)) (ret tt)) ;;
  let numCorrectMoves := snd r in
  let accuracy :=
    if (0 <? length openingMoves)%nat
    then (inject_Z (Z.of_nat numCorrectMoves)
          / inject_Z (Z.of_nat (Nat.min (length openingMoves) 20))) * inject_Z 100
    else 0 in
  let recommendations := generateOpeningRecommendations openingName userColor in
  let commonLines := getCommonLinesForOpening openingName in
  ret {| OpeningsAnalysisResult.eco := eco;
         OpeningsAnalysisResult.name := openingName;
         OpeningsAnalysisResult.accuracy := accuracy;
         OpeningsAnalysisResult.commonLines := commonLines;
         OpeningsAnalysisResult.recommendations := recommendations |}.

(** [userColor === 'white' ? 'w' : 'b'] *)
Definition colorOf (userColor : string) : Color :=
  if String.eqb userColor "white" then WHITE else BLACK.

(** [evaluatePieceDevelopment(chess, userColor)] *)
Definition evaluatePieceDevelopment (userColor : string) : M Chess Z :=
  tryCatch
    (board <- gets ChessJs.board ;;
     let color' := colorOf userColor in
     ret (fold_left
            (fun developmentScore '(row, col) =>
               match pieceAt board row col with
               | Some piece =>
                   if Color_eqb (color piece) color'
                      && (PieceSymbol_eqb (type piece) KNIGHT
                          || PieceSymbol_eqb (type piece) BISHOP)
                   then
                     let startingRow := if Color_eqb color' WHITE then 7%nat else 0%nat in
                     if negb (row =? startingRow)%nat
                     then (developmentScore + 10)%Z else developmentScore
                   else developmentScore
               | None => developmentScore
               end)
            squares 0%Z))
    (ret 0%Z).

(** [evaluateCenterControl(chess, userColor)] *)
Definition evaluateCenterControl (userColor : string) : M Chess Z :=
  tryCatch
    (let centerSquares := ["d4"; "d5"; "e4"; "e5"] in
     let color' := colorOf userColor in
     c <- gets (fun c => c) ;;
     ret (fold_left
            (fun centerScore square =>
               match ChessJs.get c square with
               | Some piece =>
                   if Color_eqb (color piece) color'
                   then (centerScore + 15)%Z else centerScore
               | None => centerScore
               end)
            centerSquares 0%Z))
    (ret 0%Z).

(** [findKing(board, color)] *)
Definition findKing (board : Board) (color' : Color) : option (nat * nat) :=
  find (fun '(row, col) =>
          match pieceAt board row col with
          | Some piece =>
              PieceSymbol_eqb (type piece) KING && Color_eqb (color piece) color'
          | None => false
          end)
       squares.

(** [evaluateKingSafety(chess, userColor)] *)
Definition evaluateKingSafety (userColor : string) : M Chess Z :=
  tryCatch
    (let color' := colorOf userColor in
     board <- gets ChessJs.board ;;
     let safetyScore := 50%Z in
     match findKing board color' with
     | Some (row, col) =>
         if Color_eqb color' WHITE then
           if ((col =? 6)%nat || (col =? 1)%nat) && (row =? 7)%nat
           then ret (safetyScore + 30)%Z else ret safetyScore
         else
           if ((col =? 6)%nat || (col =? 1)%nat) && (row =? 0)%nat
           then ret (safetyScore + 30)%Z else ret safetyScore
     | None => ret safetyScore
     end)
    (ret 0%Z).

(** [piece && piece.type === 'p' && piece.color === color] at
    [board[row][col]] *)
Definition isOwnPawn (board : Board) (color' : Color) (row col : nat) : bool :=
  match pieceAt board row col with
  | Some piece => PieceSymbol_eqb (type piece) PAWN && Color_eqb (color piece) color'
  | None => false
  end.

(** [evaluatePawnStructure(chess, userColor)] *)
Definition evaluatePawnStructure (userColor : string) : M Chess Z :=
  tryCatch
    (board <- gets ChessJs.board ;;
     let color' := colorOf userColor in
     let structureScore := 60%Z in
     let '(doubledPawns, isolatedPawns) :=
       fold_left
         (fun '(doubledPawns, isolatedPawns) col =>
            let pawnsInFile :=
              length (filter (fun row => isOwnPawn board color' row col) (seq 0 8)) in
            let adjacent :=
              filter (fun adjCol => negb (adjCol =? col)%nat)
                     (seq (Nat.max 0 (col - 1))
                          (S (Nat.min 7 (col + 1)) - Nat.max 0 (col - 1))) in
            let hasPawnInAdjacentFile :=
              existsb (fun adjCol =>
                         existsb (fun row => isOwnPawn board color' row adjCol) (seq 0 8))
                      adjacent in
            let doubledPawns :=
              if (1 <? pawnsInFile)%nat
              then (doubledPawns + (Z.of_nat pawnsInFile - 1))%Z else doubledPawns in
            let isolatedPawns :=
              if (0 <? pawnsInFile)%nat && negb hasPawnInAdjacentFile
              then (isolatedPawns + 1)%Z else isolatedPawns in
            (doubledPawns, isolatedPawns))
         (seq 0 8) (0%Z, 0%Z) in
     let structureScore := (structureScore - (doubledPawns * 5 + isolatedPawns * 5))%Z in
     ret (Z.max 0 structureScore))
    (ret 0%Z).

(** [generateFundamentalRecommendations(...)] *)
Definition generateFundamentalRecommendations
  (pieceDevelopment centerControl kingSafety pawnStructure : Z) : list string :=
  (if (pieceDevelopment <? 60)%Z then
     [ "Focus on developing your minor pieces (knights and bishops) early in the game";
       "Avoid moving the same piece multiple times in the opening" ]
   else [])
  ++ (if (centerControl <? 60)%Z then
        [ "Control the center with pawns or pieces";
          "Consider pawn moves like e4/d4 or e5/d5 to establish center presence" ]
      else [])
  ++ (if (kingSafety <? 60)%Z then
        [ "Castle early to protect your king";
          "Avoid advancing pawns in front of your castled king without good reason" ]
      else [])
  ++ (if (pawnStructure <? 60)%Z then
        [ "Avoid creating doubled pawns unless there is compensation";
          "Try to maintain a connected pawn chain" ]
      else []).

(** The body of the [for] loop of [runFundamentalsAnalysis]. *)
Definition fundamentalsLoopBody (userColor : string) (i : nat) (moveInfo : Pgn.ChessMove)
  : M (Heap * FundamentalsVars.t) unit :=
  turn <- outer (onChess (gets ChessJs.turn)) ;;
  let isUserMove := isUserMove turn userColor in
  outer (onChess (chess_move (Pgn.move moveInfo))) ;;
  if (i <? 40)%nat && isUserMove then
    d <- outer (onChess (evaluatePieceDevelopment userColor)) ;;
    c <- outer (onChess (evaluateCenterControl userColor)) ;;
    k <- outer (onChess (evaluateKingSafety userColor)) ;;
    p <- outer (onChess (evaluatePawnStructure userColor)) ;;
    assign (FundamentalsVars.add d c k p)
  else ret tt.

(** [Math.min(100, Math.max(0, x))] *)
Definition clamp (x : Z) : Z := Z.min 100 (Z.max 0 x).

(** [runFundamentalsAnalysis(chess, parsedGame, userColor)] *)
Definition runFundamentalsAnalysis (parsedGame : Pgn.ChessGame) (userColor : string)
  : M Heap FundamentalsAnalysisResult.t :=
  onChess chess_reset ;;
  r <- withLocals FundamentalsVars.init
         (tryCatch
            (forIndex 0 (Pgn.moves parsedGame) (fundamentalsLoopBody userColor))
            (ret tt)) ;;
  let v := snd r in
  let pieceDevelopmentScore := clamp (FundamentalsVars.pieceDevelopmentScore v) in
  let centerControlScore := clamp (FundamentalsVars.centerControlScore v) in
  let kingSafetyScore := clamp (FundamentalsVars.kingSafetyScore v) in
  let pawnStructureScore := clamp (FundamentalsVars.pawnStructureScore v) in
  let recommendations :=
    generateFundamentalRecommendations
      pieceDevelopmentScore centerControlScore kingSafetyScore pawnStructureScore in
  ret {| FundamentalsAnalysisResult.pieceDevelopment := pieceDevelopmentScore;
         FundamentalsAnalysisResult.centerControl := centerControlScore;
         FundamentalsAnalysisResult.kingSafety := kingSafetyScore;
         FundamentalsAnalysisResult.pawnStructure := pawnStructureScore;
         FundamentalsAnalysisResult.recommendations := recommendations |}.

(** [fallbackAnalysis(parsedGame, userColor)]; [const chess = new Chess()]
    makes the object the four pipelines then share. *)
Definition fallbackAnalysis (parsedGame : Pgn.ChessGame) (userColor : string)
  : M Heap AnalysisBundle.t :=
  modify (fun h => {| chess := ChessJs.newChess; chessEngine := chessEngine h |}) ;;
  gameAnalysis <- runGameAnalysis parsedGame userColor ;;
  tacticsAnalysis <- runTacticsAnalysis parsedGame userColor ;;
  openingsAnalysis <- runOpeningsAnalysis parsedGame userColor ;;
  fundamentalsAnalysis <- runFundamentalsAnalysis parsedGame userColor ;;
  ret {| AnalysisBundle.game := Typed gameAnalysis;
         AnalysisBundle.tactics := Typed tacticsAnalysis;
         AnalysisBundle.openings := Typed openingsAnalysis;
         AnalysisBundle.fundamentals := Typed fundamentalsAnalysis |}.

(** ** The remote model *)

(** [this.openRouterApiKey], read from the environment by the constructor. *)
Variable openRouterApiKey : string.

(** What the request [callOpenRouterAPI(prompt, analysisType)] sent for
    [gameInfo] comes to: [Some j] when it resolves with the parsed reply
    [j] before the 30 second timer fires; [None] when it rejects (network
    error, a reply that is not JSON or has no choices) or is still
    pending then.  The prompt is a function of [gameInfo] and of the
    pipeline, so the reply is indexed by these two. *)
Variable callOpenRouterAPI : GameInfo.t -> string -> option Json.

(** [performAIAnalysis(gameInfo)] raced against the timer: [Promise.all]
    resolves when the four requests do, and rejects as soon as one does. *)
Definition performAIAnalysis (gameInfo : GameInfo.t) : option AnalysisBundle.t :=
  match callOpenRouterAPI gameInfo "gameAnalysis",
        callOpenRouterAPI gameInfo "tacticsAnalysis",
        callOpenRouterAPI gameInfo "openingsAnalysis",
        callOpenRouterAPI gameInfo "fundamentalsAnalysis" with
  | Some gameAnalysis, Some tacticsAnalysis, Some openingsAnalysis,
    Some fundamentalsAnalysis =>
      Some {| AnalysisBundle.game := Cast gameAnalysis;
              AnalysisBundle.tactics := Cast tacticsAnalysis;
              AnalysisBundle.openings := Cast openingsAnalysis;
              AnalysisBundle.fundamentals := Cast fundamentalsAnalysis |}
  | _, _, _, _ => None
  end.

(** The object returned by the [catch] block of [analyzePgn]. *)
Definition simplifiedAnalysis : AnalysisBundle.t :=
  {| AnalysisBundle.game :=
       Typed {| GameAnalysisResult.outcome := "Unknown";
                GameAnalysisResult.userColor := "white";
                GameAnalysisResult.accuracy := 0;
                GameAnalysisResult.blunders := 0;
                GameAnalysisResult.mistakes := 0;
                GameAnalysisResult.inaccuracies := 0;
                GameAnalysisResult.keyMoments := [] |};
     AnalysisBundle.tactics :=
       Typed {| TacticsAnalysisResult.missedTactics := [];
                TacticsAnalysisResult.executedTactics := [] |};
     AnalysisBundle.openings :=
       Typed {| OpeningsAnalysisResult.eco := EmptyString;
                OpeningsAnalysisResult.name := "Unknown Opening";
                OpeningsAnalysisResult.accuracy := 0;
                OpeningsAnalysisResult.commonLines := [];
                OpeningsAnalysisResult.recommendations :=
                  [ "Focus on basic opening principles";
                    "Develop your pieces toward the center";
                    "Castle early";
                    "Connect your rooks" ] |};
     AnalysisBundle.fundamentals :=
       Typed {| FundamentalsAnalysisResult.pieceDevelopment := 0;
                FundamentalsAnalysisResult.centerControl := 0;
                FundamentalsAnalysisResult.kingSafety := 0;
                FundamentalsAnalysisResult.pawnStructure := 0;
                FundamentalsAnalysisResult.recommendations :=
                  [ "Review basic chess principles";
                    "Practice piece coordination";
                    "Work on tactical awareness" ] |} |}.

(** The [gameInfo] object built by [analyzePgn]. *)
Definition gameInfoOf (pgn : string) (parsedGame : Pgn.ChessGame) (userColor : string)
  : GameInfo.t :=
  {| GameInfo.pgn := pgn;
     GameInfo.white := Pgn.orElse (Pgn.white parsedGame) "Unknown";
     GameInfo.black := Pgn.orElse (Pgn.black parsedGame) "Unknown";
     GameInfo.result := Pgn.orElse (Pgn.result parsedGame) "*";
     GameInfo.event := Pgn.orElse (Pgn.event parsedGame) "Unknown event";
     GameInfo.date := Pgn.orElse (Pgn.date parsedGame) "Unknown date";
     GameInfo.opening := Pgn.orElse (Pgn.opening parsedGame) "Unknown opening";
     GameInfo.eco := Pgn.orElse (Pgn.eco parsedGame) EmptyString;
     GameInfo.moveCount := length (Pgn.moves parsedGame);
     GameInfo.userColor := userColor |}.

(** [analyzePgn(pgn, username)].  The [try] block ends with a promise to
    return: [return this.fallbackAnalysis(...)] hands the promise over
    without awaiting it, so it is settled outside the [try]; the other
    exit awaits inside.  The [catch] block also builds a [Chess] object of
    its own and loads the PGN into it under a [try / catch]; nothing reads
    that object, and it is left out. *)
Definition analyzePgn (pgn username : string) : M Heap AnalysisBundle.t :=
  returned <-
    tryCatch
      (let parsedGame := Pgn.parsePgn pgn in
       let userColor := determineUserColor parsedGame username in
       let gameInfo := gameInfoOf pgn parsedGame userColor in
       if JS.isEmpty openRouterApiKey then
         promise (fallbackAnalysis parsedGame userColor)
       else
         let aiAnalysis := performAIAnalysis gameInfo in
         fallbackAnalysisPromise <- promise (fallbackAnalysis parsedGame userColor) ;;
         result <- match aiAnalysis with
                   | Some result => ret result
                   | None => await fallbackAnalysisPromise
                   end ;;
         ret (Normal result))
      (ret (Normal simplifiedAnalysis)) ;;
  await returned.

End Analysis.

(* ===================================================================== *)
(** * The storage kept in memory (server/storage.ts) *)
(* ===================================================================== *)

(** [a.slice(start, end)] for integer arguments: a negative index counts
    from the end of the array, and both are brought into its bounds. *)
Module JsArray.

Definition slice {A : Type} (start end' : Z) (a : list A) : list A :=
  let len := Z.of_nat (length a) in
  let k := if (start <? 0)%Z then Z.max (len + start) 0 else Z.min start len in
  let final := if (end' <? 0)%Z then Z.max (len + end') 0 else Z.min end' len in
  firstn (Z.to_nat (final - k)) (skipn (Z.to_nat k) a).

End JsArray.

(** A JavaScript [Map] whose keys are numbers: its entries in the order
    of insertion, which is the order [values()] iterates in.  The keys
    are integers: the identifiers the storage hands out are, and it
    stores nothing under another key. *)
Module JsMap.

Definition t (V : Type) : Type := list (Z * V).

(** [map.get(k)]; [None] is [undefined]. *)
Fixpoint get {V : Type} (k : Z) (m : t V) : option V :=
  match m with
  | [] => None
  | (k', v) :: rest => if (k' =? k)%Z then Some v else get k rest
  end.

(** [map.set(k, v)]: a key that is there keeps its place, a new one goes
    to the end. *)
Fixpoint set {V : Type} (k : Z) (v : V) (m : t V) : t V :=
  match m with
  | [] => [(k, v)]
  | (k', v') :: rest =>
      if (k' =? k)%Z then (k, v) :: rest else (k', v') :: set k v rest
  end.

(** [map.delete(k)]: whether the key was there, and the map without it. *)
Fixpoint delete {V : Type} (k : Z) (m : t V) : bool * t V :=
  match m with
  | [] => (false, [])
  | (k', v) :: rest =>
      if (k' =? k)%Z then (true, rest)
      else let (found, rest') := delete k rest in (found, (k', v) :: rest')
  end.

(** [Array.from(map.values())] *)
Definition values {V : Type} (m : t V) : list V := map snd m.

End JsMap.

(** The rows of shared/schema.ts, and what is handed in to create one.
    A [Date] is given by its time value ([getTime()]); a column that may
    be [null] is an [option]. *)
Module Schema.

Definition Date : Type := Z.

Module User.
Record t := {
  id : Z;
  username : string;
  password : string;
  email : string;
  dateJoined : Date
}.
End User.

Module InsertUser.
Record t := {
  username : string;
  password : string;
  email : string
}.
End InsertUser.

Module LinkedAccount.
Record t := {
  id : Z;
  userId : Z;
  platform : string;
  username : string;
  oauthToken : option string;
  dateLinked : Date
}.
End LinkedAccount.

Module InsertLinkedAccount.
Record t := {
  userId : Z;
  platform : string;
  username : string;
  oauthToken : option string
}.
End InsertLinkedAccount.

Module Game.
Record t := {
  id : Z;
  userId : Z;
  platform : string;
  pgn : string;
  datePlayed : option Date;
  importedAt : Date
}.
End Game.

Module InsertGame.
Record t := {
  userId : Z;
  platform : string;
  pgn : string;
  datePlayed : option Date
}.
End InsertGame.

Module AnalysisResult.
Record t := {
  id : Z;
  gameId : Z;
  pipeline : string;
  resultJson : Json;
  createdAt : Date
}.
End AnalysisResult.

Module InsertAnalysisResult.
Record t := {
  gameId : Z;
  pipeline : string;
  resultJson : Json
}.
End InsertAnalysisResult.

End Schema.

(** [class MemStorage].  The state is the four maps and the four
    counters; the session store is not part of it.  A method that changes
    the object returns its result with the new state.  [now] stands for
    the [new Date()] a method takes when it is called. *)
Module MemStorage.

Import Schema.

Record t := {
  users : JsMap.t User.t;
  linkedAccounts : JsMap.t LinkedAccount.t;
  games : JsMap.t Game.t;
  analysisResults : JsMap.t AnalysisResult.t;
  userIdCounter : Z;
  linkedAccountIdCounter : Z;
  gameIdCounter : Z;
  analysisResultIdCounter : Z
}.

(** [constructor()] *)
Definition new : t :=
  {| users := []; linkedAccounts := []; games := []; analysisResults := [];
     userIdCounter := 1; linkedAccountIdCounter := 1;
     gameIdCounter := 1; analysisResultIdCounter := 1 |}.

(** [getUser(id)] *)
Definition getUser (id : Z) (s : t) : option User.t :=
  JsMap.get id (users s).

(** [getUserByUsername(username)] *)
Definition getUserByUsername (username : string) (s : t) : option User.t :=
  find (fun user =>
          String.eqb (JS.toLowerCase (User.username user)) (JS.toLowerCase username))
       (JsMap.values (users s)).

(** [createUser(insertUser)] *)
Definition createUser (now : Date) (insertUser : InsertUser.t) (s : t) : User.t * t :=
  let id := userIdCounter s in
  let user :=
    {| User.id := id;
       User.username := InsertUser.username insertUser;
       User.password := InsertUser.password insertUser;
       User.email := InsertUser.email insertUser;
       User.dateJoined := now |} in
  (user,
   {| users := JsMap.set id user (users s);
      linkedAccounts := linkedAccounts s;
      games := games s;
      analysisResults := analysisResults s;
      userIdCounter := (id + 1)%Z;
      linkedAccountIdCounter := linkedAccountIdCounter s;
      gameIdCounter := gameIdCounter s;
      analysisResultIdCounter := analysisResultIdCounter s |}).

(** [getLinkedAccounts(userId)] *)
Definition getLinkedAccounts (userId : Z) (s : t) : list LinkedAccount.t :=
  filter (fun account => (LinkedAccount.userId account =? userId)%Z)
         (JsMap.values (linkedAccounts s)).

(** [getLinkedAccount(id)] *)
Definition getLinkedAccount (id : Z) (s : t) : option LinkedAccount.t :=
  JsMap.get id (linkedAccounts s).

(** [getLinkedAccountByPlatform(userId, platform)] *)
Definition getLinkedAccountByPlatform (userId : Z) (platform : string) (s : t)
  : option LinkedAccount.t :=
  find (fun account =>
          (LinkedAccount.userId account =? userId)%Z
          && String.eqb (LinkedAccount.platform account) platform)
       (JsMap.values (linkedAccounts s)).

(** [createLinkedAccount(insertAccount)] *)
Definition createLinkedAccount (now : Date) (insertAccount : InsertLinkedAccount.t) (s : t)
  : LinkedAccount.t * t :=
  let id := linkedAccountIdCounter s in
  let account :=
    {| LinkedAccount.id := id;
       LinkedAccount.userId := InsertLinkedAccount.userId insertAccount;
       LinkedAccount.platform := InsertLinkedAccount.platform insertAccount;
       LinkedAccount.username := InsertLinkedAccount.username insertAccount;
       LinkedAccount.oauthToken := InsertLinkedAccount.oauthToken insertAccount;
       LinkedAccount.dateLinked := now |} in
  (account,
   {| users := users s;
      linkedAccounts := JsMap.set id account (linkedAccounts s);
      games := games s;
      analysisResults := analysisResults s;
      userIdCounter := userIdCounter s;
      linkedAccountIdCounter := (id + 1)%Z;
      gameIdCounter := gameIdCounter s;
      analysisResultIdCounter := analysisResultIdCounter s |}).

(** [deleteLinkedAccount(id)] *)
Definition deleteLinkedAccount (id : Z) (s : t) : bool * t :=
  let (found, rest) := JsMap.delete id (linkedAccounts s) in
  (found,
   {| users := users s;
      linkedAccounts := rest;
      games := games s;
      analysisResults := analysisResults s;
      userIdCounter := userIdCounter s;
      linkedAccountIdCounter := linkedAccountIdCounter s;
      gameIdCounter := gameIdCounter s;
      analysisResultIdCounter := analysisResultIdCounter s |}).

(** The comparison function [getGames] sorts by: the later game first,
    and 0 when one of the two has no date. *)
Definition byDatePlayed (a b : Game.t) : Z :=
  match Game.datePlayed a, Game.datePlayed b with
  | Some ta, Some tb => (tb - ta)%Z
  | _, _ => 0%Z
  end.

Section Sorting.

(** [Array.prototype.sort(compareFn)].  The language fixes the order it
    gives for a consistent comparison function only, and [byDatePlayed]
    is not one when some games have a date and others none; so the
    method is a parameter here. *)
Variable sort : forall A : Type, (A -> A -> Z) -> list A -> list A.

(** [getGames(userId, limit?, offset = 0)]; [limit] is [None] when the
    argument is left out. *)
Definition getGames (userId : Z) (limit : option Z) (offset : Z) (s : t) : list Game.t :=
  let userGames :=
    sort Game.t byDatePlayed
      (filter (fun game => (Game.userId game =? userId)%Z) (JsMap.values (games s))) in
  match limit with
  | Some limit => JsArray.slice offset (offset + limit) userGames
  | None => userGames
  end.

End Sorting.

(** [getGame(id)] *)
Definition getGame (id : Z) (s : t) : option Game.t :=
  JsMap.get id (games s).

(** [createGame(insertGame)] *)
Definition createGame (now : Date) (insertGame : InsertGame.t) (s : t) : Game.t * t :=
  let id := gameIdCounter s in
  let game :=
    {| Game.id := id;
       Game.userId := InsertGame.userId insertGame;
       Game.platform := InsertGame.platform insertGame;
       Game.pgn := InsertGame.pgn insertGame;
       Game.datePlayed := InsertGame.datePlayed insertGame;
       Game.importedAt := now |} in
  (game,
   {| users := users s;
      linkedAccounts := linkedAccounts s;
      games := JsMap.set id game (games s);
      analysisResults := analysisResults s;
      userIdCounter := userIdCounter s;
      linkedAccountIdCounter := linkedAccountIdCounter s;
      gameIdCounter := (id + 1)%Z;
      analysisResultIdCounter := analysisResultIdCounter s |}).

(** [getAnalysisResults(gameId)] *)
Definition getAnalysisResults (gameId : Z) (s : t) : list AnalysisResult.t :=
  filter (fun result => (AnalysisResult.gameId result =? gameId)%Z)
         (JsMap.values (analysisResults s)).

(** [getAnalysisResult(gameId, pipeline)] *)
Definition getAnalysisResult (gameId : Z) (pipeline : string) (s : t)
  : option AnalysisResult.t :=
  find (fun result =>
          (AnalysisResult.gameId result =? gameId)%Z
          && String.eqb (AnalysisResult.pipeline result) pipeline)
       (JsMap.values (analysisResults s)).

(** [createAnalysisResult(insertResult)] *)
Definition createAnalysisResult (now : Date) (insertResult : InsertAnalysisResult.t) (s : t)
  : AnalysisResult.t * t :=
  let id := analysisResultIdCounter s in
  let result :=
    {| AnalysisResult.id := id;
       AnalysisResult.gameId := InsertAnalysisResult.gameId insertResult;
       AnalysisResult.pipeline := InsertAnalysisResult.pipeline insertResult;
       AnalysisResult.resultJson := InsertAnalysisResult.resultJson insertResult;
       AnalysisResult.createdAt := now |} in
  (result,
   {| users := users s;
      linkedAccounts := linkedAccounts s;
      games := games s;
      analysisResults := JsMap.set id result (analysisResults s);
      userIdCounter := userIdCounter s;
      linkedAccountIdCounter := linkedAccountIdCounter s;
      gameIdCounter := gameIdCounter s;
      analysisResultIdCounter := (id + 1)%Z |}).

(** [this.analysisResults = m], the other fields kept. *)
Definition withAnalysisResults (m : JsMap.t AnalysisResult.t) (s : t) : t :=
  {| users := users s;
     linkedAccounts := linkedAccounts s;
     games := games s;
     analysisResults := m;
     userIdCounter := userIdCounter s;
     linkedAccountIdCounter := linkedAccountIdCounter s;
     gameIdCounter := gameIdCounter s;
     analysisResultIdCounter := analysisResultIdCounter s |}.

(** [deleteAnalysisResult(id)] *)
Definition deleteAnalysisResult (id : Z) (s : t) : bool * t :=
  let (found, rest) := JsMap.delete id (analysisResults s) in
  (found, withAnalysisResults rest s).

(** [deleteAnalysisResultsByGameId(gameId)]: the results of the game are
    collected first, then each is deleted under its [id]. *)
Definition deleteAnalysisResultsByGameId (gameId : Z) (s : t) : bool * t :=
  let results :=
    filter (fun result => (AnalysisResult.gameId result =? gameId)%Z)
           (JsMap.values (analysisResults s)) in
  (true,
   withAnalysisResults
     (fold_left (fun m result => snd (JsMap.delete (AnalysisResult.id result) m))
                results (analysisResults s))
     s).

End MemStorage.

(* ===================================================================== *)
(** * Pure helpers of the client *)
(* ===================================================================== *)

(** [static parsePgn(pgn)] of [ChessApiClient] (client/src/lib/chess-api.ts).
    It runs the header pattern of the server parser over the text as it
    is given, and compares the keys as they are written. *)
Module ChessApiClient.

(** [Partial<GameData>]; [id] is never set.  [timestamp] is kept as the
    text handed to [new Date]. *)
Record GameData := {
  pgn : string;
  opponent : option string;
  result : option string;
  timestamp : option string;
  timeControl : option string;
  opening : option string
}.

(** The [switch (key)] of the loop. *)
Definition setField (key value : string) (r : GameData) : GameData :=
  if String.eqb key "White" || String.eqb key "Black" then
    {| pgn := pgn r; opponent := Some value; result := result r;
       timestamp := timestamp r; timeControl := timeControl r; opening := opening r |}
  else if String.eqb key "Result" then
    {| pgn := pgn r; opponent := opponent r;
       result := Some (if String.eqb value "1-0" then "win"
                       else if String.eqb value "0-1" then "loss"
                       else "draw");
       timestamp := timestamp r; timeControl := timeControl r; opening := opening r |}
  else if String.eqb key "Date" then
    {| pgn := pgn r; opponent := opponent r; result := result r;
       timestamp := Some value; timeControl := timeControl r; opening := opening r |}
  else if String.eqb key "TimeControl" then
    {| pgn := pgn r; opponent := opponent r; result := result r;
       timestamp := timestamp r; timeControl := Some value; opening := opening r |}
  else if String.eqb key "Opening" || String.eqb key "ECO" then
    {| pgn := pgn r; opponent := opponent r; result := result r;
       timestamp := timestamp r; timeControl := timeControl r; opening := Some value |}
  else r.

(** The [while ((match = headerRegex.exec(pgn)) !== null)] loop. *)
Fixpoint execHeaders (skip : nat) (s : string) (r : GameData) : GameData :=
  match s with
  | EmptyString => r
  | String _ rest =>
      match skip with
      | S k => execHeaders k rest r
      | O =>
          match Pgn.matchHeader s with
          | Some (key, value, len) => execHeaders (len - 1) rest (setField key value r)
          | None => execHeaders 0 rest r
          end
      end
  end.

Definition parsePgn (pgn : string) : GameData :=
  execHeaders 0 pgn
    {| pgn := pgn; opponent := None; result := None; timestamp := None;
       timeControl := None; opening := None |}.

End ChessApiClient.

(** [getPageNumbers] of the games table (client/src/components/games-table.tsx),
    by the two variables it closes over: [totalPages], an integer since
    it is a [Math.ceil], and [currentPage]. *)
Module GamesTable.

Inductive PageItem : Type :=
| Page (n : Z)
| Ellipsis.

(** [for (let i = from; i <= to; i++) pageNumbers.push(i)], by the number
    of rounds. *)
Fixpoint pagesFrom (from : Z) (rounds : nat) : list PageItem :=
  match rounds with
  | O => []
  | S k => Page from :: pagesFrom (from + 1) k
  end.

Definition pagesBetween (from to : Z) : list PageItem :=
  pagesFrom from (Z.to_nat (to - from + 1)).

Definition getPageNumbers (totalPages currentPage : Z) : list PageItem :=
  let maxVisiblePages := 5%Z in
  if (totalPages <=? maxVisiblePages)%Z then pagesBetween 1 totalPages
  else if (currentPage <=? 3)%Z then
    (pagesBetween 1 3 ++ [Ellipsis; Page totalPages])%list
  else if (totalPages - 2 <=? currentPage)%Z then
    ([Page 1; Ellipsis] ++ pagesBetween (totalPages - 2) totalPages)%list
  else
    [Page 1; Ellipsis; Page (currentPage - 1); Page currentPage; Page (currentPage + 1);
     Ellipsis; Page totalPages].

End GamesTable.

(** [formatResult] and [getResultBadgeVariant] of the games page
    (client/src/pages/games-page.tsx). *)
Module GamesPage.



End GamesPage.

(* ===================================================================== *)
(** * A rules engine to run the pipelines on *)
(* ===================================================================== *)

(** An implementation of the [ChessJs.Engine] operations by the rules of
    chess on the standard board: piece movement, captures, the double pawn
    step, en passant, promotion, castling, legality with respect to check,
    SAN with disambiguation and check marks, FEN import and export, undo.
    Moves are enumerated as chess.js does: the squares from a8 to h1, each
    piece in the fixed order of its directions, castling last.  [move]
    reads strict SAN only, and [load] checks the form of a FEN, not its
    plausibility. *)
Module ChessRules.

Local Open Scope Z_scope.

Definition Square : Type := (Z * Z)%type.   (* row from rank 8, column from file a *)

(** The castling rights still held. *)
Record Rights := {
  whiteKingSide : bool;
  whiteQueenSide : bool;
  blackKingSide : bool;
  blackQueenSide : bool
}.

Record Position := {
  placement : list (option Piece);          (* 64 squares, a8 first *)
  sideToMove : Color;
  castling : Rights;
  epSquare : option Square;                 (* the square a pawn has just passed *)
  halfmoveClock : nat;
  fullmoveNumber : nat
}.

Record Game := { current : Position; history : list Position }.

Definition onBoard (sq : Square) : bool :=
  let (r, c) := sq in (0 <=? r) && (r <? 8) && (0 <=? c) && (c <? 8).

Definition pieceOn (pl : list (option Piece)) (sq : Square) : option Piece :=
  if onBoard sq then nth (Z.to_nat (fst sq * 8 + snd sq)) pl None else None.

Definition isFree (pl : list (option Piece)) (sq : Square) : bool :=
  onBoard sq && match pieceOn pl sq with None => true | Some _ => false end.

Definition other (c : Color) : Color :=
  match c with WHITE => BLACK | BLACK => WHITE end.

Definition allSquares : list Square :=
  map (fun rc => (Z.of_nat (fst rc), Z.of_nat (snd rc))) squares.

Definition knightSteps : list Square :=
  [(-1, -2); (-2, -1); (-2, 1); (-1, 2); (1, 2); (2, 1); (2, -1); (1, -2)].
Definition bishopSteps : list Square := [(-1, -1); (-1, 1); (1, 1); (1, -1)].
Definition rookSteps : list Square := [(-1, 0); (0, 1); (1, 0); (0, -1)].
Definition queenSteps : list Square :=
  [(-1, -1); (-1, 0); (-1, 1); (0, 1); (1, 1); (1, 0); (1, -1); (0, -1)].

Definition stepsOf (t : PieceSymbol) : list Square :=
  match t with
  | KNIGHT => knightSteps
  | BISHOP => bishopSteps
  | ROOK => rookSteps
  | QUEEN | KING => queenSteps
  | PAWN => []
  end.

Definition slides (t : PieceSymbol) : bool :=
  match t with BISHOP | ROOK | QUEEN => true | _ => false end.

Definition shift (sq d : Square) : Square := (fst sq + fst d, snd sq + snd d).

Definition Square_eqb (a b : Square) : bool := (fst a =? fst b) && (snd a =? snd b).

(** Does a slider on [sq] moving by [d] reach [target] over empty squares? *)
Fixpoint rayReaches (pl : list (option Piece)) (sq d target : Square) (fuel : nat) : bool :=
  match fuel with
  | O => false
  | S fuel' =>
      let nxt := shift sq d in
      if negb (onBoard nxt) then false
      else if Square_eqb nxt target then true
      else match pieceOn pl nxt with
           | Some _ => false
           | None => rayReaches pl nxt d target fuel'
           end
  end.

(** Does the piece [pc] standing on [sq] attack [target]? *)
Definition attacks (pl : list (option Piece)) (pc : Piece) (sq target : Square) : bool :=
  match type pc with
  | PAWN =>
      let dr := match color pc with WHITE => -1 | BLACK => 1 end in
      Square_eqb (shift sq (dr, -1)) target || Square_eqb (shift sq (dr, 1)) target
  | KNIGHT | KING =>
      existsb (fun d => Square_eqb (shift sq d) target) (stepsOf (type pc))
  | _ =>
      existsb (fun d => rayReaches pl sq d target 8) (stepsOf (type pc))
  end.

Definition attackedBy (pl : list (option Piece)) (target : Square) (by_ : Color) : bool :=
  existsb (fun sq =>
             match pieceOn pl sq with
             | Some pc => Color_eqb (color pc) by_ && attacks pl pc sq target
             | None => false
             end)
          allSquares.

Inductive MoveKind : Type :=
| Quiet | BigPawn | Capture | EnPassant | KingSide | QueenSide.

Record RawMove := {
  mfrom : Square;
  mto : Square;
  mpiece : PieceSymbol;
  mkind : MoveKind;
  mpromotion : option PieceSymbol
}.

Definition isCapture (m : RawMove) : bool :=
  match mkind m with Capture | EnPassant => true | _ => false end.

Definition rawMove (a b : Square) (t : PieceSymbol) (k : MoveKind) : RawMove :=
  {| mfrom := a; mto := b; mpiece := t; mkind := k; mpromotion := None |}.

(** Targets of a piece from [sq] in direction [d], at most [fuel] steps. *)
Fixpoint rayMoves (pl : list (option Piece)) (us : Color) (t : PieceSymbol)
  (origin sq d : Square) (fuel : nat) : list RawMove :=
  match fuel with
  | O => []
  | S fuel' =>
      let nxt := shift sq d in
      if negb (onBoard nxt) then []
      else match pieceOn pl nxt with
           | None => rawMove origin nxt t Quiet :: rayMoves pl us t origin nxt d fuel'
           | Some pc =>
               if Color_eqb (color pc) us then []
               else [rawMove origin nxt t Capture]
           end
  end.

(** A pawn move onto the last rank stands for its four promotions. *)
Definition withPromotions (us : Color) (m : RawMove) : list RawMove :=
  let lastRow := match us with WHITE => 0 | BLACK => 7 end in
  if fst (mto m) =? lastRow then
    map (fun t => {| mfrom := mfrom m; mto := mto m; mpiece := mpiece m;
                     mkind := mkind m; mpromotion := Some t |})
        [KNIGHT; BISHOP; ROOK; QUEEN]
  else [m].

Definition pawnMoves (pl : list (option Piece)) (us : Color) (ep : option Square)
  (sq : Square) : list RawMove :=
  let dr := match us with WHITE => -1 | BLACK => 1 end in
  let startRow := match us with WHITE => 6 | BLACK => 1 end in
  let one := shift sq (dr, 0) in
  let two := shift sq (2 * dr, 0) in
  let pushes :=
    if isFree pl one then
      (withPromotions us (rawMove sq one PAWN Quiet)
       ++ (if (fst sq =? startRow) && isFree pl two
           then [rawMove sq two PAWN BigPawn] else []))%list
    else [] in
  let takes :=
    flat_map
      (fun dc =>
         let t := shift sq (dr, dc) in
         if onBoard t then
           match pieceOn pl t with
           | Some pc =>
               if Color_eqb (color pc) us then []
               else withPromotions us (rawMove sq t PAWN Capture)
           | None =>
               match ep with
               | Some e => if Square_eqb e t then [rawMove sq t PAWN EnPassant] else []
               | None => []
               end
           end
         else [])
      (match us with WHITE => [-1; 1] | BLACK => [1; -1] end) in
  (pushes ++ takes)%list.

Definition pieceMoves (pl : list (option Piece)) (us : Color) (t : PieceSymbol) (sq : Square)
  : list RawMove :=
  flat_map (fun d => rayMoves pl us t sq sq d (if slides t then 8%nat else 1%nat))
           (stepsOf t).

Definition kingSquare (pl : list (option Piece)) (c : Color) : option Square :=
  find (fun sq =>
          match pieceOn pl sq with
          | Some pc => PieceSymbol_eqb (type pc) KING && Color_eqb (color pc) c
          | None => false
          end)
       allSquares.

Definition mayCastle (r : Rights) (us : Color) (k : MoveKind) : bool :=
  match us, k with
  | WHITE, KingSide => whiteKingSide r
  | WHITE, QueenSide => whiteQueenSide r
  | BLACK, KingSide => blackKingSide r
  | BLACK, QueenSide => blackQueenSide r
  | _, _ => false
  end.

(** Castling: the right is held, the squares between king and rook are
    empty, and the king is not attacked where it stands, passes or lands. *)
Definition castlingMoves (pl : list (option Piece)) (us : Color) (r : Rights)
  : list RawMove :=
  match kingSquare pl us with
  | None => []
  | Some k =>
      let them := other us in
      let at_ dc := shift k (0, dc) in
      (if mayCastle r us KingSide
          && isFree pl (at_ 1) && isFree pl (at_ 2)
          && negb (attackedBy pl k them)
          && negb (attackedBy pl (at_ 1) them)
          && negb (attackedBy pl (at_ 2) them)
       then [rawMove k (at_ 2) KING KingSide] else [])
      ++ (if mayCastle r us QueenSide
             && isFree pl (at_ (-1)) && isFree pl (at_ (-2)) && isFree pl (at_ (-3))
             && negb (attackedBy pl k them)
             && negb (attackedBy pl (at_ (-1)) them)
             && negb (attackedBy pl (at_ (-2)) them)
          then [rawMove k (at_ (-2)) KING QueenSide] else [])
  end%list.

Definition pseudoLegal (p : Position) : list RawMove :=
  (flat_map
     (fun sq =>
        match pieceOn (placement p) sq with
        | Some pc =>
            if Color_eqb (color pc) (sideToMove p) then
              match type pc with
              | PAWN => pawnMoves (placement p) (sideToMove p) (epSquare p) sq
              | t => pieceMoves (placement p) (sideToMove p) t sq
              end
            else []
        | None => []
        end)
     allSquares
   ++ castlingMoves (placement p) (sideToMove p) (castling p))%list.

Fixpoint setNth {A : Type} (n : nat) (x : A) (l : list A) : list A :=
  match l, n with
  | [], _ => []
  | _ :: tl, O => x :: tl
  | hd :: tl, S n' => hd :: setNth n' x tl
  end.

Definition put (sq : Square) (x : option Piece) (pl : list (option Piece))
  : list (option Piece) :=
  setNth (Z.to_nat (fst sq * 8 + snd sq)) x pl.

(** The rights left after a move from [a] to [b] by [us]: a king that
    moves gives up both, a rook that leaves its corner gives up its side,
    and a move onto a corner of the other side takes that side's right. *)
Definition rightsAfter (r : Rights) (us : Color) (t : PieceSymbol) (a b : Square) : Rights :=
  let leaves c sq := Color_eqb us c && Square_eqb a sq in
  let lands c sq := Color_eqb us (other c) && Square_eqb b sq in
  let king c := Color_eqb us c && PieceSymbol_eqb t KING in
  {| whiteKingSide :=
       whiteKingSide r && negb (king WHITE || leaves WHITE (7, 7) || lands WHITE (7, 7));
     whiteQueenSide :=
       whiteQueenSide r && negb (king WHITE || leaves WHITE (7, 0) || lands WHITE (7, 0));
     blackKingSide :=
       blackKingSide r && negb (king BLACK || leaves BLACK (0, 7) || lands BLACK (0, 7));
     blackQueenSide :=
       blackQueenSide r && negb (king BLACK || leaves BLACK (0, 0) || lands BLACK (0, 0)) |}.

Definition applyRaw (p : Position) (m : RawMove) : Position :=
  let pl := placement p in
  let us := sideToMove p in
  let a := mfrom m in
  let b := mto m in
  let placed :=
    match mpromotion m with
    | Some t => Some {| color := us; type := t |}
    | None => pieceOn pl a
    end in
  let pl1 := put b placed (put a None pl) in
  let pl2 :=
    match mkind m with
    | EnPassant => put (fst a, snd b) None pl1
    | KingSide =>
        put (fst b, snd b - 1) (pieceOn pl1 (fst b, snd b + 1))
            (put (fst b, snd b + 1) None pl1)
    | QueenSide =>
        put (fst b, snd b + 1) (pieceOn pl1 (fst b, snd b - 2))
            (put (fst b, snd b - 2) None pl1)
    | _ => pl1
    end in
  {| placement := pl2;
     sideToMove := other us;
     castling := rightsAfter (castling p) us (mpiece m) a b;
     epSquare :=
       match mkind m with
       | BigPawn => Some ((fst a + fst b) / 2, snd a)
       | _ => None
       end;
     halfmoveClock :=
       if PieceSymbol_eqb (mpiece m) PAWN || isCapture m then 0%nat
       else S (halfmoveClock p);
     fullmoveNumber :=
       match us with
       | BLACK => S (fullmoveNumber p)
       | WHITE => fullmoveNumber p
       end |}.

Definition inCheck (pl : list (option Piece)) (c : Color) : bool :=
  match kingSquare pl c with
  | Some k => attackedBy pl k (other c)
  | None => false
  end.

Definition legalMoves (p : Position) : list RawMove :=
  filter (fun m => negb (inCheck (placement (applyRaw p m)) (sideToMove p)))
         (pseudoLegal p).

Definition nameOf (sq : Square) : string :=
  squareName (Z.to_nat (fst sq)) (Z.to_nat (snd sq)).

Definition fileOf (sq : Square) : string := String.substring 0 1 (nameOf sq).
Definition rankOf (sq : Square) : string := String.substring 1 1 (nameOf sq).

Definition letterOf (t : PieceSymbol) : string :=
  match t with
  | PAWN => "P" | KNIGHT => "N" | BISHOP => "B"
  | ROOK => "R" | QUEEN => "Q" | KING => "K"
  end%string.

(** The file, the rank or the square of origin, when another piece of the
    same kind can go to the same square. *)
Definition disambiguator (legal : list RawMove) (m : RawMove) : string :=
  let rivals :=
    filter (fun o => PieceSymbol_eqb (mpiece o) (mpiece m)
                     && Square_eqb (mto o) (mto m)
                     && negb (Square_eqb (mfrom o) (mfrom m)))
           legal in
  let sameRank := existsb (fun o => fst (mfrom o) =? fst (mfrom m)) rivals in
  let sameFile := existsb (fun o => snd (mfrom o) =? snd (mfrom m)) rivals in
  match rivals with
  | [] => EmptyString
  | _ => if sameRank && sameFile then nameOf (mfrom m)
         else if sameFile then rankOf (mfrom m)
         else fileOf (mfrom m)
  end.

Definition sanOf (p : Position) (legal : list RawMove) (m : RawMove) : string :=
  let body :=
    match mkind m with
    | KingSide => "O-O"
    | QueenSide => "O-O-O"
    | _ =>
        (match mpiece m with
         | PAWN => if isCapture m then fileOf (mfrom m) else EmptyString
         | t => letterOf t ++ disambiguator legal m
         end
         ++ (if isCapture m then "x" else EmptyString)
         ++ nameOf (mto m)
         ++ match mpromotion m with
            | Some t => "=" ++ letterOf t
            | None => EmptyString
            end)
    end%string in
  let p' := applyRaw p m in
  if inCheck (placement p') (sideToMove p') then
    match legalMoves p' with
    | [] => (body ++ "#")%string
    | _ => (body ++ "+")%string
    end
  else body.

Definition flagsOf (m : RawMove) : string :=
  (match mkind m with
   | Quiet => "n" | Capture => "c" | BigPawn => "b"
   | EnPassant => "e" | KingSide => "k" | QueenSide => "q"
   end
   ++ match mpromotion m with Some _ => "p" | None => EmptyString end)%string.

Definition verbose (p : Position) (legal : list RawMove) (m : RawMove) : Move :=
  {| from := nameOf (mfrom m); to := nameOf (mto m);
     san := sanOf p legal m; flags := flagsOf m; promotion := mpromotion m |}.

(** Decorations are dropped before two SAN strings are compared: the
    first equals sign, then at the end one check mark and the
    annotation marks after it. *)
Fixpoint dropFirst (c : ascii) (s : string) : string :=
  match s with
  | EmptyString => EmptyString
  | String d r => if Ascii.eqb c d then r else String d (dropFirst c r)
  end.

Definition isAnnotation (c : ascii) : bool := Ascii.eqb c "?" || Ascii.eqb c "!".
Definition isCheckMark (c : ascii) : bool := Ascii.eqb c "+" || Ascii.eqb c "#".

Fixpoint dropTail (s : string) : string :=
  match s with
  | EmptyString => EmptyString
  | String c r =>
      if JS.all isAnnotation s then EmptyString
      else if isCheckMark c && JS.all isAnnotation r then EmptyString
      else String c (dropTail r)
  end.

Definition strippedSan (s : string) : string := dropTail (dropFirst "=" s).

Definition start : list (option Piece) :=
  let back c := map (fun t => Some {| color := c; type := t |})
                    [ROOK; KNIGHT; BISHOP; QUEEN; KING; BISHOP; KNIGHT; ROOK] in
  let pawns c := repeat (Some {| color := c; type := PAWN |}) 8 in
  (back BLACK ++ pawns BLACK ++ repeat None 32 ++ pawns WHITE ++ back WHITE)%list.

Definition startPosition : Position :=
  {| placement := start; sideToMove := WHITE;
     castling := {| whiteKingSide := true; whiteQueenSide := true;
                    blackKingSide := true; blackQueenSide := true |};
     epSquare := None; halfmoveClock := 0; fullmoveNumber := 1 |}.

Definition play (g : Game) (m : RawMove) : Game :=
  {| current := applyRaw (current g) m; history := current g :: history g |}.

Definition moveSan (g : Game) (s : string) : option Game :=
  let legal := legalMoves (current g) in
  match find (fun m => String.eqb (strippedSan (sanOf (current g) legal m)) (strippedSan s))
             legal with
  | Some m => Some (play g m)
  | None => None
  end.

Definition samePromotion (a b : option PieceSymbol) : bool :=
  match a, b with
  | None, _ => true
  | Some x, Some y => PieceSymbol_eqb x y
  | Some _, None => false
  end.

Definition moveObj (g : Game) (mv : Move) : option Game :=
  let legal := legalMoves (current g) in
  match find (fun m => String.eqb (nameOf (mfrom m)) (from mv)
                       && String.eqb (nameOf (mto m)) (to mv)
                       && samePromotion (mpromotion m) (promotion mv))
             legal with
  | Some m => Some (play g m)
  | None => None
  end.

Definition undoMove (g : Game) : Game :=
  match history g with
  | p :: rest => {| current := p; history := rest |}
  | [] => g
  end.

Fixpoint rows (n : nat) (pl : list (option Piece)) : Board :=
  match n with
  | O => []
  | S n' => firstn 8 pl :: rows n' (skipn 8 pl)
  end.

Definition squareOfName (s : string) : option Square :=
  match s with
  | String f (String r EmptyString) =>
      let c := Z.of_nat (JS.code f) - 97 in
      let row := 8 - (Z.of_nat (JS.code r) - 48) in
      if onBoard (row, c) then Some (row, c) else None
  | _ => None
  end.

(** FEN export.  The en passant square is given when a capture en passant
    is legal. *)
Definition pieceChar (pc : Piece) : ascii :=
  let upper := match letterOf (type pc) with
               | String c _ => c
               | EmptyString => "?"%char
               end in
  match color pc with
  | WHITE => upper
  | BLACK => JS.lowerChar upper
  end.

Definition decimal (n : nat) : string := NilZero.string_of_uint (Nat.to_uint n).

Fixpoint fenRow (row : list (option Piece)) (empties : nat) : string :=
  match row with
  | [] => if (empties =? 0)%nat then EmptyString else decimal empties
  | None :: tl => fenRow tl (S empties)
  | Some pc :: tl =>
      ((if (empties =? 0)%nat then EmptyString else decimal empties)
       ++ String (pieceChar pc) (fenRow tl 0))%string
  end.

Definition fenRights (r : Rights) : string :=
  let s := ((if whiteKingSide r then "K" else EmptyString)
            ++ (if whiteQueenSide r then "Q" else EmptyString)
            ++ (if blackKingSide r then "k" else EmptyString)
            ++ (if blackQueenSide r then "q" else EmptyString))%string in
  if JS.isEmpty s then "-"%string else s.

Definition fenEp (p : Position) : string :=
  match epSquare p with
  | Some e =>
      if existsb (fun m => match mkind m with EnPassant => true | _ => false end)
                 (legalMoves p)
      then nameOf e else "-"%string
  | None => "-"%string
  end.

Definition fenOf (p : Position) : string :=
  (String.concat "/" (map (fun r => fenRow r 0) (rows 8 (placement p)))
   ++ (match sideToMove p with WHITE => " w " | BLACK => " b " end)
   ++ fenRights (castling p) ++ " " ++ fenEp p ++ " "
   ++ decimal (halfmoveClock p) ++ " " ++ decimal (fullmoveNumber p))%string.

(** FEN import; [None] when the text is not a FEN of six fields with
    eight rows of eight squares. *)
Definition pieceOfChar (c : ascii) : option Piece :=
  let col := if JS.isUpper c then WHITE else BLACK in
  let l := JS.lowerChar c in
  let mk t := Some {| color := col; type := t |} in
  if Ascii.eqb l "p" then mk PAWN
  else if Ascii.eqb l "n" then mk KNIGHT
  else if Ascii.eqb l "b" then mk BISHOP
  else if Ascii.eqb l "r" then mk ROOK
  else if Ascii.eqb l "q" then mk QUEEN
  else if Ascii.eqb l "k" then mk KING
  else None.

Fixpoint parseRow (s : string) : option (list (option Piece)) :=
  match s with
  | EmptyString => Some []
  | String c r =>
      match parseRow r with
      | None => None
      | Some tl =>
          if JS.isDigit c then Some (repeat None (JS.code c - 48)%nat ++ tl)%list
          else match pieceOfChar c with
               | Some pc => Some (Some pc :: tl)
               | None => None
               end
      end
  end.

Fixpoint parseRows (l : list string) : option (list (option Piece)) :=
  match l with
  | [] => Some []
  | r :: tl =>
      match parseRow r, parseRows tl with
      | Some row, Some rest =>
          if (length row =? 8)%nat then Some (row ++ rest)%list else None
      | _, _ => None
      end
  end.

Definition parseNat (s : string) : option nat :=
  option_map Nat.of_uint (NilZero.uint_of_string s).

Definition parseSide (s : string) : option Color :=
  if String.eqb s "w" then Some WHITE
  else if String.eqb s "b" then Some BLACK
  else None.

Definition parseRights (s : string) : Rights :=
  let has c := JS.any (Ascii.eqb c) s in
  {| whiteKingSide := has "K"%char; whiteQueenSide := has "Q"%char;
     blackKingSide := has "k"%char; blackQueenSide := has "q"%char |}.

Definition loadFen (s : string) : option Position :=
  match JS.splitChar " " s with
  | [pl; side; rights; ep; half; full] =>
      let rs := JS.splitChar "/" pl in
      match parseRows rs, parseSide side, parseNat half, parseNat full with
      | Some sq, Some c, Some h, Some f =>
          if (length rs =? 8)%nat then
            Some {| placement := sq; sideToMove := c;
                    castling := parseRights rights;
                    epSquare := squareOfName ep;
                    halfmoveClock := h; fullmoveNumber := f |}
          else None
      | _, _, _, _ => None
      end
  | _ => None
  end.

Definition newGame : Game := {| current := startPosition; history := [] |}.

Definition verboseMoves (g : Game) : list Move :=
  let legal := legalMoves (current g) in
  map (verbose (current g) legal) legal.

Definition engine : ChessJs.Engine :=
  {| ChessJs.Chess := Game;
     ChessJs.newChess := newGame;
     ChessJs.reset := fun _ => newGame;
     ChessJs.load := fun _ fen =>
       option_map (fun p => {| current := p; history := [] |}) (loadFen fen);
     ChessJs.fen := fun g => fenOf (current g);
     ChessJs.turn := fun g => sideToMove (current g);
     ChessJs.board := fun g => rows 8 (placement (current g));
     ChessJs.get := fun g sq =>
       match squareOfName sq with
       | Some s => pieceOn (placement (current g)) s
       | None => None
       end;
     ChessJs.isAttacked := fun g sq by_ =>
       match squareOfName sq with
       | Some s => attackedBy (placement (current g)) s by_
       | None => false
       end;
     ChessJs.moves := fun g => map san (verboseMoves g);
     ChessJs.movesVerbose := verboseMoves;
     ChessJs.move := moveSan;
     ChessJs.moveObject := moveObj;
     ChessJs.undo := undoMove |}.

(** The two objects of an analyzer that has not run yet. *)
Definition freshHeap : @Heap engine :=
  @Build_Heap engine newGame newGame.

(** The game after the SAN moves [sans] from the start; a move the board
    refuses is passed over. *)
Definition after (sans : list string) : Game :=
  fold_left (fun g s => match moveSan g s with Some g' => g' | None => g end)
            sans newGame.

End ChessRules.


(* ===================================================================== *)
(** * What the specification says, in its own words *)
(* ===================================================================== *)

(** The definitions of this part do not come from the code: they restate
    the specification, or a claim as it is amended, in terms of the
    chess.js operations and of the two queries of the evaluator, and the
    theorems below compare the code with them. *)
Module Spec.

(** A JSON document has the fields [names]. *)
Definition hasFields (names : list string) (j : Json) : bool :=
  match j with
  | JObject fields =>
      forallb (fun name => existsb (fun kv => String.eqb (fst kv) name) fields) names
  | _ => false
  end.

Definition shaped {A : Type} (names : list string) (x : Dyn A) : bool :=
  match x with
  | Typed _ => true
  | Cast j => hasFields names j
  end.

(** Every field of each of the four declared shapes is present. *)
Definition fullyShaped (b : AnalysisBundle.t) : bool :=
  shaped ["outcome"; "userColor"; "accuracy"; "blunders"; "mistakes";
          "inaccuracies"; "keyMoments"] (AnalysisBundle.game b)
  && shaped ["missedTactics"; "executedTactics"] (AnalysisBundle.tactics b)
  && shaped ["eco"; "name"; "accuracy"; "commonLines"; "recommendations"]
       (AnalysisBundle.openings b)
  && shaped ["pieceDevelopment"; "centerControl"; "kingSafety"; "pawnStructure";
             "recommendations"] (AnalysisBundle.fundamentals b).

(** [bundle.game.outcome], when it is there and a string. *)
Definition outcomeOf (b : AnalysisBundle.t) : option string :=
  match AnalysisBundle.game b with
  | Typed g => Some (GameAnalysisResult.outcome g)
  | Cast (JObject fields) =>
      match find (fun kv => String.eqb (fst kv) "outcome") fields with
      | Some (_, JString s) => Some s
      | _ => None
      end
  | Cast _ => None
  end.

(** The value a computation returns, [d] if it throws. *)
Definition valueOf {S A : Type} (d : A) (m : M S A) (s : S) : A :=
  match fst (m s) with
  | Normal a => a
  | Throw => d
  end.

(** The thresholds of the game analysis. *)
Definition quality (evalDiff : Num) : MoveQuality :=
  if Num.gtQ evalDiff 2 then blunder
  else if Num.gtQ evalDiff 1 then mistake
  else if Num.gtQ evalDiff (1 # 2) then inaccuracy
  else if Num.ltQ evalDiff (1 # 5) then excellent
  else good.

Definition MoveQuality_eqb (a b : MoveQuality) : bool :=
  match a, b with
  | blunder, blunder | mistake, mistake | inaccuracy, inaccuracy
  | good, good | excellent, excellent => true
  | _, _ => false
  end.

(** A turn of the user in the replay: analysed, with its [evalDiff], or
    refused by the board. *)
Inductive UserTurn : Type :=
| Analysed (evalDiff : Num)
| Refused.

Definition analysed (ts : list UserTurn) : list Num :=
  flat_map (fun t => match t with Analysed d => [d] | Refused => [] end) ts.

Definition countQuality (q : MoveQuality) (ts : list UserTurn) : nat :=
  length (filter (fun d => MoveQuality_eqb (quality d) q) (analysed ts)).

(** Moves that count as good for the accuracy: good or excellent. *)
Definition countGood (ts : list UserTurn) : nat :=
  (countQuality good ts + countQuality excellent ts)%nat.

(** The kinds of the key moments: the blunders and the excellent moves,
    in the order of play. *)
Definition notable (ts : list UserTurn) : list MoveQuality :=
  filter (fun q => MoveQuality_eqb q blunder || MoveQuality_eqb q excellent)
         (map quality (analysed ts)).

(** The counters [v'] are the counters [v] after the turns [ts]. *)
Definition tallied (ts : list UserTurn) (v v' : GameVars.t) : Prop :=
  GameVars.blunders v' = (GameVars.blunders v + countQuality blunder ts)%nat
  /\ GameVars.mistakes v' = (GameVars.mistakes v + countQuality mistake ts)%nat
  /\ GameVars.inaccuracies v'
     = (GameVars.inaccuracies v + countQuality inaccuracy ts)%nat
  /\ GameVars.totalMoves v' = (GameVars.totalMoves v + length ts)%nat
  /\ GameVars.goodMoves v' = (GameVars.goodMoves v + countGood ts)%nat
  /\ map KeyMoment.type (GameVars.keyMoments v')
     = (map KeyMoment.type (GameVars.keyMoments v) ++ notable ts)%list.

(** The outcome of the game for the user, from the Result header. *)
Definition outcomeFor (result : option string) (userColor : string) : string :=
  match result with
  | Some "1-0" => if String.eqb userColor "white" then "Win" else "Loss"
  | Some "0-1" => if String.eqb userColor "black" then "Win" else "Loss"
  | Some "1/2-1/2" => "Draw"
  | _ => "Unknown"
  end.

(** ['w'] for ['b'] and ['b'] for ['w']. *)
Definition opposite (c : Color) : Color :=
  match c with WHITE => BLACK | BLACK => WHITE end.

(** It is the turn of the user: White is to move and the user plays
    white, or Black is to move and the user plays black. *)
Definition usersTurn (turn : Color) (userColor : string) : bool :=
  match turn with
  | WHITE => String.eqb userColor "white"
  | BLACK => String.eqb userColor "black"
  end.

(** The absolute difference of an evaluation and a whole number. *)
Definition distance (a : Num) (b : Z) : Num :=
  match a with
  | Finite x => Finite (if (x <? b)%Z then b - x else x - b)%Z
  | NegInfinity | Infinity => Infinity
  end.

Section WithEngine.

Context {E : ChessJs.Engine}.

(** Pieces of the opponent of [user] that [user] attacks: what the
    specification counts after a candidate move of [user]. *)
Definition opponentPiecesUnderAttack (c : ChessJs.Chess) (user : Color) : nat :=
  length
    (filter
       (fun '(row, col) =>
          match pieceAt (ChessJs.board c) row col with
          | Some piece =>
              negb (Color_eqb (color piece) user)
              && ChessJs.isAttacked c (squareName row col) user
          | None => false
          end)
       squares).

(** Pieces of [user] that the opponent of [user] attacks. *)
Definition ownPiecesUnderAttack (c : ChessJs.Chess) (user : Color) : nat :=
  length
    (filter
       (fun '(row, col) =>
          match pieceAt (ChessJs.board c) row col with
          | Some piece =>
              Color_eqb (color piece) user
              && ChessJs.isAttacked c (squareName row col) (opposite user)
          | None => false
          end)
       squares).

(** The evaluator set to the position [fen]: its board holds that
    position, or the start position when the text is refused as a FEN. *)
Definition positioned (e : ChessJs.Chess) (fen : string) : ChessJs.Chess :=
  match ChessJs.load e fen with
  | Some e' => e'
  | None => ChessJs.reset e
  end.

(** The turns of the user in the replay of a game, in order, as the
    amended C4 has them.  The moves are tried one after the other.  On a
    turn of the user the evaluator is set to the position before the
    move and asked for its best move, the move is played, and the
    evaluator is set to the position after it and asked for its
    evaluation: the turn is analysed, with the distance of the two
    evaluations.  A move of the user the board refuses is a turn too,
    the last one: the replay ends there.  A move of the opponent the
    board refuses is passed over. *)
Fixpoint userTurns (userColor : string) (moves : list Pgn.ChessMove) (h : Heap)
  : list UserTurn :=
  match moves with
  | [] => []
  | moveInfo :: rest =>
      if usersTurn (ChessJs.turn (chess h)) userColor then
        let before := positioned (chessEngine h) (ChessJs.fen (chess h)) in
        let best := valueOf {| BestMove.move := EmptyString;
                               BestMove.evaluation := Finite 0 |} getBestMove before in
        let searched := snd (getBestMove before) in
        match ChessJs.move (chess h) (Pgn.move moveInfo) with
        | Some c' =>
            let after := positioned searched (ChessJs.fen c') in
            Analysed (distance (BestMove.evaluation best) (valueOf 0%Z evaluate after))
            :: userTurns userColor rest {| chess := c'; chessEngine := after |}
        | None => [Refused]
        end
      else
        match ChessJs.move (chess h) (Pgn.move moveInfo) with
        | Some c' => userTurns userColor rest {| chess := c'; chessEngine := chessEngine h |}
        | None => userTurns userColor rest h
        end
  end.

(** The positions the fundamentals are scored on: those reached by a
    move of the user among the first 40 half-moves; the replay ends at
    the first move the board refuses. *)
Fixpoint scoredPositions (userColor : string) (i : nat) (moves : list Pgn.ChessMove)
  (c : ChessJs.Chess) : list ChessJs.Chess :=
  match moves with
  | [] => []
  | moveInfo :: rest =>
      match ChessJs.move c (Pgn.move moveInfo) with
      | Some c' =>
          (if (i <? 40)%nat && isUserMove (ChessJs.turn c) userColor then [c'] else [])
          ++ scoredPositions userColor (S i) rest c'
      | None => []
      end
  end.

(** The sum of a heuristic over the scored positions. *)
Definition total (heuristic : M ChessJs.Chess Z) (positions : list ChessJs.Chess) : Z :=
  fold_left (fun acc c => (acc + valueOf 0%Z heuristic c)%Z) positions 0%Z.

(** The value of a candidate in the one-ply search: the negated
    material evaluation of the position it leads to. *)
Definition negatedEvaluation (c : ChessJs.Chess) (m : Move) : Z :=
  match ChessJs.moveObject c m with
  | Some c' => (- materialOf (ChessJs.board c'))%Z
  | None => 0%Z
  end.

(** The number [countAttackedPieces] returns after the candidate [m]. *)
Definition attackedAfter (c : ChessJs.Chess) (m : Move) : nat :=
  match ChessJs.moveObject c m with
  | Some c' => valueOf 0%nat countAttackedPieces c'
  | None => 0%nat
  end.

(** The choice made by one round of the one-ply search. *)
Definition pick (c : ChessJs.Chess) (best : BestMove.t) (m : Move) : BestMove.t :=
  if Num.gtb (Finite (negatedEvaluation c m)) (BestMove.evaluation best)
  then {| BestMove.move := san m;
          BestMove.evaluation := Finite (negatedEvaluation c m) |}
  else best.

(** [best] is the first candidate of [l] of greatest value: none has a
    greater value, and those before it have a smaller one. *)
Definition firstBest (c : ChessJs.Chess) (l : list Move) (best : BestMove.t) : Prop :=
  exists k m,
    nth_error l k = Some m
    /\ best = {| BestMove.move := san m;
                 BestMove.evaluation := Finite (negatedEvaluation c m) |}
    /\ (forall m', In m' l -> (negatedEvaluation c m' <= negatedEvaluation c m)%Z)
    /\ (forall j m', (j < k)%nat -> nth_error l j = Some m' ->
          (negatedEvaluation c m' < negatedEvaluation c m)%Z).

End WithEngine.

End Spec.

(** The header line [[Key "value"]]. *)
Definition header (key value : string) : string :=
  "[" ++ key ++ " " ++ String JS.quote value ++ String JS.quote "]".

(** Runs the calls made on the two [Chess] objects of a pipeline. *)
Ltac run_heap :=
  unfold outer, onChess, onEngine, assign;
  unfold bind, tryCatch, ret, gets, modify, zoom, chess_move;
  cbn [fst snd chess chessEngine].

(* ===================================================================== *)
(** * Notions used to state further properties *)
(* ===================================================================== *)

Module Props.

(** ** Notions used to state properties of the analysis *)

(** The number of pieces of colour [c] and type [t] on the board. *)
Definition countPieces (b : Board) (c : Color) (t : PieceSymbol) : Z :=
  Z.of_nat
    (length
       (filter (fun sq =>
                  match pieceAt b (fst sq) (snd sq) with
                  | Some piece => Color_eqb (color piece) c && PieceSymbol_eqb (type piece) t
                  | None => false
                  end)
               squares)).

(** White's pieces of type [t] minus Black's. *)
Definition balance (b : Board) (t : PieceSymbol) : Z :=
  (countPieces b WHITE t - countPieces b BLACK t)%Z.

(** A turn of the user whose evaluation difference, if it has one, is a
    whole number that is not negative, and is classified accordingly. *)
Definition wholeTurn (t : Spec.UserTurn) : Prop :=
  match t with
  | Spec.Analysed d =>
      exists n : Z,
        d = Finite n /\ (0 <= n)%Z
        /\ Spec.quality d
           = if (n =? 0)%Z then excellent
             else if (n =? 1)%Z then inaccuracy
             else if (n =? 2)%Z then mistake
             else blunder
  | Spec.Refused => True
  end.

(** The number the openings pipeline counts: the moves of the user among
    the first twelve half-moves that the board accepts, up to the first
    move it refuses. *)
Fixpoint openingCredits {E : ChessJs.Engine} (userColor : string) (i : nat)
  (moves : list Pgn.ChessMove) (c : ChessJs.Chess) : nat :=
  match moves with
  | [] => 0
  | moveInfo :: rest =>
      match ChessJs.move c (Pgn.move moveInfo) with
      | Some c' =>
          ((if Spec.usersTurn (ChessJs.turn c) userColor && (i <? 12)%nat then 1 else 0)
           + openingCredits userColor (S i) rest c')%nat
      | None => 0%nat
      end
  end.

(** An entry of the list of missed tactics of a game of [total] moves:
    its move number is one of the game, and its kind and explanation are
    those of a fork or those of a pin or skewer. *)
Definition missedEntry (total : nat) (x : MissedTactic.t) : Prop :=
  (1 <= MissedTactic.moveNumber x)%nat
  /\ (2 * MissedTactic.moveNumber x <= total + 1)%nat
  /\ ((MissedTactic.tactic x = "Fork"
       /\ MissedTactic.explanation x
          = "There's a fork opportunity where your piece can attack multiple pieces at once.")
      \/ (MissedTactic.tactic x = "Pin/Skewer"
          /\ MissedTactic.explanation x
             = "There's an opportunity to pin or skewer one of your opponent's pieces.")).

(** An entry of the list of executed tactics of a game of [total] moves. *)
Definition executedEntry (total : nat) (x : ExecutedTactic.t) : Prop :=
  (1 <= ExecutedTactic.moveNumber x)%nat
  /\ (2 * ExecutedTactic.moveNumber x <= total + 1)%nat
  /\ (ExecutedTactic.tactic x = "Fork" \/ ExecutedTactic.tactic x = "Pin/Skewer").

(** The page numbers among the items of a pagination bar, in order. *)
Definition pagesOf (items : list GamesTable.PageItem) : list Z :=
  flat_map (fun item => match item with
                        | GamesTable.Page n => [n]
                        | GamesTable.Ellipsis => []
                        end) items.

(** Each number of the list is below the next. *)
Fixpoint increasing (l : list Z) : Prop :=
  match l with
  | [] => True
  | x :: rest =>
      match rest with
      | [] => True
      | y :: _ => (x < y)%Z /\ increasing rest
      end
  end.

(** The tag pairs [hs] taken over by the client one after the other. *)
Definition setFields (hs : list (string * string)) (r : ChessApiClient.GameData)
  : ChessApiClient.GameData :=
  fold_left (fun r kv => ChessApiClient.setField (fst kv) (snd kv) r) hs r.

(** ** Notions used to state properties of the parser *)

(** A tag name the header pattern reads: one or more word characters. *)
Definition isKey (k : string) : bool :=
  negb (JS.isEmpty k) && JS.all JS.isWordChar k.

(** A tag value the header pattern reads as it is: no double quote, and
    no carriage return for the clean-up of the text to change. *)
Definition isValue (v : string) : bool :=
  JS.all (fun c => negb (Ascii.eqb c JS.quote) && negb (Ascii.eqb c JS.CR)) v.

(** Move text without brackets and carriage returns. *)
Definition isBody (b : string) : bool :=
  JS.all (fun c => negb (Ascii.eqb c "[") && negb (Ascii.eqb c "]")
                   && negb (Ascii.eqb c JS.CR)) b.

(** A tag pair the header pattern reads. *)
Definition tagPair (kv : string * string) : Prop :=
  isKey (fst kv) = true /\ isValue (snd kv) = true.

(** The tag pairs [hs], one header line each. *)
Fixpoint headerBlock (hs : list (string * string)) : string :=
  match hs with
  | [] => EmptyString
  | kv :: rest => header (fst kv) (snd kv) ++ String JS.LF (headerBlock rest)
  end.

(** The tag pairs [hs] stored one after the other. *)
Definition setHeaders (hs : list (string * string)) (game : Pgn.ChessGame) : Pgn.ChessGame :=
  fold_left (fun g kv => Pgn.setHeader (fst kv) (snd kv) g) hs game.

(** A map of the storage is keyed by identifier below [counter]: the
    counter is at least 1, no key is there twice, every row is stored
    under its own [id], and every key is at least 1 and below the
    counter. *)
Definition keyed {V : Type} (idOf : V -> Z) (counter : Z) (m : JsMap.t V) : Prop :=
  (1 <= counter)%Z
  /\ NoDup (map fst m)
  /\ Forall (fun entry => idOf (snd entry) = fst entry
                          /\ (1 <= fst entry < counter)%Z) m.

Definition wellKeyed (s : MemStorage.t) : Prop :=
  keyed Schema.User.id (MemStorage.userIdCounter s) (MemStorage.users s)
  /\ keyed Schema.LinkedAccount.id (MemStorage.linkedAccountIdCounter s)
           (MemStorage.linkedAccounts s)
  /\ keyed Schema.Game.id (MemStorage.gameIdCounter s) (MemStorage.games s)
  /\ keyed Schema.AnalysisResult.id (MemStorage.analysisResultIdCounter s)
           (MemStorage.analysisResults s).

(** A call of a method of the storage that changes it, with the time at
    which it is made where the method takes one. *)
Inductive StorageCall : Type :=
| CreateUser (now : Schema.Date) (insertUser : Schema.InsertUser.t)
| CreateLinkedAccount (now : Schema.Date) (insertAccount : Schema.InsertLinkedAccount.t)
| DeleteLinkedAccount (id : Z)
| CreateGame (now : Schema.Date) (insertGame : Schema.InsertGame.t)
| CreateAnalysisResult (now : Schema.Date) (insertResult : Schema.InsertAnalysisResult.t)
| DeleteAnalysisResult (id : Z)
| DeleteAnalysisResultsByGameId (gameId : Z).

(** The storage after a call. *)
Definition perform (s : MemStorage.t) (call : StorageCall) : MemStorage.t :=
  match call with
  | CreateUser now insertUser => snd (MemStorage.createUser now insertUser s)
  | CreateLinkedAccount now insertAccount =>
      snd (MemStorage.createLinkedAccount now insertAccount s)
  | DeleteLinkedAccount id => snd (MemStorage.deleteLinkedAccount id s)
  | CreateGame now insertGame => snd (MemStorage.createGame now insertGame s)
  | CreateAnalysisResult now insertResult =>
      snd (MemStorage.createAnalysisResult now insertResult s)
  | DeleteAnalysisResult id => snd (MemStorage.deleteAnalysisResult id s)
  | DeleteAnalysisResultsByGameId gameId =>
      snd (MemStorage.deleteAnalysisResultsByGameId gameId s)
  end.

(** The storage after a sequence of calls on a new one. *)
Definition stored (calls : list StorageCall) : MemStorage.t :=
  fold_left perform calls MemStorage.new.

End Props.

(* ===================================================================== *)
(** * The parser *)
(* ===================================================================== *)

Section ParserFacts.

Lemma filter_Forall {A : Type} (p : A -> bool) (l : list A) :
  Forall (fun x => p x = true) (filter p l).
Proof.
  induction l as [|x l IH]; simpl; [constructor|].
  destruct (p x) eqn:Hp; [constructor; assumption | assumption].
Qed.

(** The headers never add to the move list. *)
Lemma setHeader_moves key value g :
  Pgn.moves (Pgn.setHeader key value g) = Pgn.moves g.
Proof.
  unfold Pgn.setHeader.
  repeat match goal with
         | |- context [if ?b then _ else _] => destruct b
         end; reflexivity.
Qed.

Lemma execHeaders_moves s : forall skip g,
  Pgn.moves (Pgn.execHeaders skip s g) = Pgn.moves g.
Proof.
  induction s as [|c r IH]; intros skip g; cbn [Pgn.execHeaders]; [reflexivity|].
  destruct skip as [|k]; [|apply IH].
  destruct (Pgn.matchHeader (String c r)) as [[[key value] len]|].
  - transitivity (Pgn.moves (Pgn.setHeader key value g));
      [apply IH | apply setHeader_moves].
  - apply IH.
Qed.

Lemma parseMoves_alnum text g :
  Forall (fun m => JS.any JS.isAlnum (Pgn.move m) = true) (Pgn.moves g) ->
  Forall (fun m => JS.any JS.isAlnum (Pgn.move m) = true)
         (Pgn.moves (Pgn.parseMoves text g)).
Proof.
  intros Hg. unfold Pgn.parseMoves. simpl.
  apply Forall_app. split; [assumption|].
  apply Forall_map. simpl. apply filter_Forall.
Qed.

End ParserFacts.

(** C7. The moves parsed from [1. e4 e5 2. Nf3 Nc6 3. Bb5 *] are exactly
    e4, e5, Nf3, Nc6, Bb5: the result token is cut off the end, the move
    numbers are removed, the rest is split on white space; and for every
    input each move kept holds at least one alphanumeric character. *)
Theorem parsePgn_moves_example :
  map Pgn.move (Pgn.moves (Pgn.parsePgn "1. e4 e5 2. Nf3 Nc6 3. Bb5 *"))
    = ["e4"; "e5"; "Nf3"; "Nc6"; "Bb5"]
  /\ Pgn.stripResult "1. e4 e5 2. Nf3 Nc6 3. Bb5 *" = "1. e4 e5 2. Nf3 Nc6 3. Bb5"
  /\ Pgn.stripMoveNumbers 0 "1. e4 e5 2. Nf3 Nc6 3. Bb5" = "e4 e5 Nf3 Nc6 Bb5"
  /\ JS.splitSpaces "e4 e5 Nf3 Nc6 Bb5" = ["e4"; "e5"; "Nf3"; "Nc6"; "Bb5"]
  /\ forall pgn,
       Forall (fun m => JS.any JS.isAlnum (Pgn.move m) = true)
              (Pgn.moves (Pgn.parsePgn pgn)).
Proof.
  repeat split; try reflexivity.
  intros pgn. unfold Pgn.parsePgn. cbv zeta.
  destruct (JS.lastIndexOf "]" (JS.trim (JS.replaceCRLF pgn)) =? -1)%Z;
    apply parseMoves_alnum; rewrite execHeaders_moves; constructor.
Qed.

Lemma parseDate_Some (h : option string) (d : Pgn.JSDate) :
  Pgn.parseDate h = Some d <->
  exists v p0 p1 p2 y m dd,
    h = Some v /\ JS.splitChar "." v = [p0; p1; p2]
    /\ JS.parseInt p0 = Some y /\ JS.parseInt p1 = Some m /\ JS.parseInt p2 = Some dd
    /\ d = {| Pgn.year := y; Pgn.monthIndex := (m - 1)%Z; Pgn.day := dd |}.
Proof.
  unfold Pgn.parseDate. split.
  - destruct h as [v|]; [|discriminate].
    destruct (JS.isEmpty v); [discriminate|].
    destruct (JS.splitChar "." v) as [|p0 [|p1 [|p2 [|? ?]]]] eqn:Hs; try discriminate.
    destruct (JS.parseInt p0) as [y|] eqn:H0; [|discriminate].
    destruct (JS.parseInt p1) as [m|] eqn:H1; [|discriminate].
    destruct (JS.parseInt p2) as [dd|] eqn:H2; [|discriminate].
    simpl. intros [= <-]. exists v, p0, p1, p2, y, m, dd. repeat split; assumption.
  - intros (v & p0 & p1 & p2 & y & m & dd & -> & Hs & H0 & H1 & H2 & ->).
    destruct v as [|c r]; [discriminate Hs|].
    cbn [JS.isEmpty]. rewrite Hs, H0, H1, H2. reflexivity.
Qed.

(** C8. [extractBasicInfo] is a total function; the date it returns is
    defined exactly when the Date header splits on the dot into three parts
    that [parseInt] reads as integers, and is then the date of these three
    numbers (the month counted from 0); the header [2024.03.15] gives year
    2024, month index 2 (March), day 15, and the header [????.??.??] gives
    no date. *)
Theorem extractBasicInfo_date :
  (forall pgn d,
     Pgn.info_date (Pgn.extractBasicInfo pgn) = Some d <->
     exists v p0 p1 p2 y m dd,
       Pgn.date (Pgn.parsePgn pgn) = Some v /\ JS.splitChar "." v = [p0; p1; p2]
       /\ JS.parseInt p0 = Some y /\ JS.parseInt p1 = Some m /\ JS.parseInt p2 = Some dd
       /\ d = {| Pgn.year := y; Pgn.monthIndex := (m - 1)%Z; Pgn.day := dd |})
  /\ Pgn.info_date (Pgn.extractBasicInfo (header "Date" "2024.03.15"))
       = Some {| Pgn.year := 2024; Pgn.monthIndex := 2; Pgn.day := 15 |}
  /\ Pgn.info_date (Pgn.extractBasicInfo (header "Date" "????.??.??")) = None.
Proof.
  split; [|split; reflexivity].
  intros pgn d. unfold Pgn.extractBasicInfo. cbn [Pgn.info_date].
  apply parseDate_Some.
Qed.

(* ===================================================================== *)
(** * The colour of the user *)
(* ===================================================================== *)

(** C10. When the White header and the Black header both equal the
    username up to case, [determineUserColor] answers white: the White
    header is looked at first. *)
Theorem determineUserColor_both_match (parsedGame : Pgn.ChessGame)
  (username w b : string)
  (Hw : Pgn.white parsedGame = Some w)
  (Hb : Pgn.black parsedGame = Some b)
  (Hwu : JS.toLowerCase w = JS.toLowerCase username)
  (Hbu : JS.toLowerCase b = JS.toLowerCase username) :
  determineUserColor parsedGame username = "white".
Proof.
  unfold determineUserColor. rewrite Hw, Hwu, String.eqb_refl. reflexivity.
Qed.

Lemma determineUserColor_both_match_witness :
  determineUserColor
    (Pgn.parsePgn (header "White" "Magnus" ++ String JS.LF (header "Black" "MAGNUS")))
    "magnus" = "white".
Proof.
  apply (determineUserColor_both_match _ "magnus" "Magnus" "MAGNUS"); reflexivity.
Defined.

(* ===================================================================== *)
(** * Reasoning about computations *)
(* ===================================================================== *)

Section MonadFacts.

Context {St : Type}.

Lemma bind_Normal {A B : Type} (m : M St A) (k : A -> M St B) (s s' : St) (a : A) :
  m s = (Normal a, s') -> bind m k s = k a s'.
Proof. intros H. unfold bind. rewrite H. reflexivity. Qed.

Lemma bind_Throw {A B : Type} (m : M St A) (k : A -> M St B) (s s' : St) :
  m s = (Throw, s') -> bind m k s = (Throw, s').
Proof. intros H. unfold bind. rewrite H. reflexivity. Qed.

(** A loop whose body leaves the state as it found it does so too. *)
Lemma forOfReturn_restores {A R : Type} (body : A -> M St (option R)) (s : St) :
  (forall x, exists r, body x s = (r, s)) ->
  forall l, exists r, forOfReturn l body s = (r, s).
Proof.
  intros Hbody. induction l as [|x l IH]; cbn [forOfReturn].
  - eexists. reflexivity.
  - destruct (Hbody x) as [[[v|]|] Hr].
    + rewrite (bind_Normal _ _ _ _ _ Hr). eexists. reflexivity.
    + rewrite (bind_Normal _ _ _ _ _ Hr). exact IH.
    + rewrite (bind_Throw _ _ _ _ Hr). eexists. reflexivity.
Qed.

(** A loop whose body computes [f] and leaves the state is a fold. *)
Lemma forOfAcc_fold {A B : Type} (body : B -> A -> M St B) (f : B -> A -> B) (s : St) :
  forall l,
    (forall x, In x l -> forall acc, body acc x s = (Normal (f acc x), s)) ->
    forall acc, forOfAcc l body acc s = (Normal (fold_left f l acc), s).
Proof.
  induction l as [|x l IH]; intros Hbody acc; cbn [forOfAcc fold_left].
  - reflexivity.
  - rewrite (bind_Normal _ _ _ _ _ (Hbody x (or_introl eq_refl) acc)).
    apply IH. intros y Hy. apply Hbody. right. assumption.
Qed.

Lemma withLocals_tryCatch {V : Type} (init : V) (m : M (St * V) unit) (s : St) :
  exists s' v, withLocals init (tryCatch m (ret tt)) s = (Normal (tt, v), s').
Proof.
  unfold withLocals, tryCatch, ret.
  destruct (m (s, init)) as [[[]|] [s' v]]; eexists; eexists; reflexivity.
Qed.

End MonadFacts.

(* ===================================================================== *)
(** * The evaluator and the tactics probe *)
(* ===================================================================== *)

Section EngineFacts.

Context {E : ChessJs.Engine}.

Lemma evaluateMaterial_run (c : ChessJs.Chess) :
  evaluateMaterial c = (Normal (materialOf (ChessJs.board c)), c).
Proof. reflexivity. Qed.

Lemma evaluate_run (c : ChessJs.Chess) :
  evaluate c = (Normal (materialOf (ChessJs.board c)), c).
Proof. reflexivity. Qed.

Lemma countAttackedPieces_run (c : ChessJs.Chess) :
  exists n, countAttackedPieces c = (Normal n, c).
Proof. eexists. reflexivity. Qed.

Lemma setPosition_run (fen : string) (c : ChessJs.Chess) :
  exists c', setPosition fen c = (Normal tt, c').
Proof.
  unfold setPosition, tryCatch, chess_load, chess_reset, modify.
  destruct (ChessJs.load c fen); eexists; reflexivity.
Qed.

Section WithUndo.

(** The contract of [undo]: it takes back the last move made. *)
Hypothesis undo_move : forall (c c' : ChessJs.Chess) (m : Move),
  ChessJs.moveObject c m = Some c' -> ChessJs.undo c' = c.

Lemma forkLoop_restores (l : list Move) (c : ChessJs.Chess) :
  exists r, forkLoop l c = (r, c).
Proof.
  apply forOfReturn_restores. intros m.
  unfold bind, chess_moveObject.
  destruct (ChessJs.moveObject c m) as [c'|] eqn:Hm; [|eexists; reflexivity].
  destruct (countAttackedPieces_run c') as [n ->].
  destruct (2 <=? n)%nat; unfold chess_undo, modify, ret;
    rewrite (undo_move _ _ _ Hm); eexists; reflexivity.
Qed.

Lemma pinLoop_restores (l : list Move) (c : ChessJs.Chess) :
  exists r, pinLoop l c = (r, c).
Proof.
  apply forOfReturn_restores. intros m.
  destruct (JS.includes (flags m) "c"); [|eexists; reflexivity].
  unfold bind, chess_moveObject.
  destruct (ChessJs.moveObject c m) as [c'|] eqn:Hm; [|eexists; reflexivity].
  unfold gets.
  destruct (length (ChessJs.moves c') <? 10)%nat; unfold chess_undo, modify, ret;
    rewrite (undo_move _ _ _ Hm); eexists; reflexivity.
Qed.

Lemma findTactics_run (c : ChessJs.Chess) :
  exists t, findTactics c = (Normal t, c).
Proof.
  unfold findTactics, bind, tryCatch, gets.
  destruct (forkLoop_restores (ChessJs.movesVerbose c) c) as [r ->].
  destruct r as [[t|]|]; try (eexists; reflexivity).
  destruct (pinLoop_restores (ChessJs.movesVerbose c) c) as [r' ->].
  destruct r' as [[t|]|]; eexists; reflexivity.
Qed.

Lemma bestMove_loop (c : ChessJs.Chess) (l : list Move) (best : BestMove.t) :
  (forall m, In m l -> ChessJs.moveObject c m <> None) ->
  forOfAcc l
    (fun bestMove move =>
       chess_moveObject move ;;
       e <- evaluate ;;
       let evaluation := Finite (- e) in
       chess_undo ;;
       ret (if Num.gtb evaluation (BestMove.evaluation bestMove)
            then {| BestMove.move := san move; BestMove.evaluation := evaluation |}
            else bestMove))
    best c
  = (Normal (fold_left (Spec.pick c) l best), c).
Proof.
  intros Hl. apply forOfAcc_fold. intros m Hm acc.
  unfold bind, chess_moveObject, Spec.pick, Spec.negatedEvaluation.
  destruct (ChessJs.moveObject c m) as [c'|] eqn:Hc.
  - rewrite evaluate_run. unfold chess_undo, modify, ret.
    rewrite (undo_move _ _ _ Hc). reflexivity.
  - exfalso. exact (Hl m Hm Hc).
Qed.

End WithUndo.

Lemma pick_firstBest (c : ChessJs.Chess) (l : list Move) : forall pre best,
  Spec.firstBest c pre best ->
  Spec.firstBest c (pre ++ l) (fold_left (Spec.pick c) l best).
Proof.
  induction l as [|x l IH]; intros pre best Hb; cbn [fold_left].
  - rewrite app_nil_r. assumption.
  - replace (pre ++ x :: l)%list with ((pre ++ [x]) ++ l)%list
      by (rewrite <- app_assoc; reflexivity).
    apply IH.
    destruct Hb as (k & m & Hk & -> & Hmax & Hfirst).
    unfold Spec.pick. cbn [BestMove.evaluation Num.gtb].
    destruct (Spec.negatedEvaluation c m <? Spec.negatedEvaluation c x)%Z eqn:Hlt.
    + apply Z.ltb_lt in Hlt.
      exists (length pre), x. repeat split.
      * rewrite nth_error_app2 by lia. rewrite Nat.sub_diag. reflexivity.
      * intros m' Hin. apply in_app_or in Hin. destruct Hin as [Hin|[<-|[]]].
        -- specialize (Hmax _ Hin). lia.
        -- lia.
      * intros j m' Hj Hn. rewrite nth_error_app1 in Hn by assumption.
        apply nth_error_In in Hn. specialize (Hmax _ Hn). lia.
    + apply Z.ltb_ge in Hlt.
      exists k, m. repeat split.
      * rewrite nth_error_app1; [assumption|].
        apply nth_error_Some. rewrite Hk. discriminate.
      * intros m' Hin. apply in_app_or in Hin. destruct Hin as [Hin|[<-|[]]].
        -- apply Hmax; assumption.
        -- assumption.
      * intros j m' Hj Hn.
        assert (Hkl : (k < length pre)%nat)
          by (apply nth_error_Some; rewrite Hk; discriminate).
        rewrite nth_error_app1 in Hn by lia.
        apply (Hfirst j); assumption.
Qed.

Lemma pick_from_sentinel (c : ChessJs.Chess) (x : Move) (l : list Move) :
  Spec.firstBest c (x :: l)
    (fold_left (Spec.pick c) (x :: l)
       {| BestMove.move := EmptyString; BestMove.evaluation := NegInfinity |}).
Proof.
  cbn [fold_left]. apply (pick_firstBest c l [x]).
  unfold Spec.pick. cbn [BestMove.evaluation Num.gtb].
  exists 0%nat, x. repeat split.
  - intros m' [<-|[]]. lia.
  - intros j m' Hj. lia.
Qed.

End EngineFacts.

(** The contracts hold of [ChessRules]. *)
Section ChessRulesFacts.

Lemma ChessRules_undo_move (c c' : ChessRules.Game) (m : Move) :
  ChessRules.moveObj c m = Some c' -> ChessRules.undoMove c' = c.
Proof.
  unfold ChessRules.moveObj.
  destruct (find _ (ChessRules.legalMoves (ChessRules.current c))); [|discriminate].
  intros [= <-]. destruct c. reflexivity.
Qed.

Lemma ChessRules_turn_move (c c' : ChessRules.Game) (m : Move) :
  ChessRules.moveObj c m = Some c' ->
  ChessRules.sideToMove (ChessRules.current c')
    = ChessRules.other (ChessRules.sideToMove (ChessRules.current c)).
Proof.
  unfold ChessRules.moveObj.
  destruct (find _ (ChessRules.legalMoves (ChessRules.current c))); [|discriminate].
  intros [= <-]. reflexivity.
Qed.

Lemma ChessRules_legal_apply (c : ChessRules.Game) (m : Move) :
  In m (ChessRules.verboseMoves c) -> ChessRules.moveObj c m <> None.
Proof.
  unfold ChessRules.verboseMoves, ChessRules.moveObj. intros Hin.
  apply in_map_iff in Hin. destruct Hin as (raw & <- & Hraw).
  destruct (find _ (ChessRules.legalMoves (ChessRules.current c))) eqn:Hf; [discriminate|].
  apply (find_none _ _ Hf) in Hraw. cbn [from to promotion ChessRules.verbose] in Hraw.
  rewrite !String.eqb_refl in Hraw.
  destruct (ChessRules.mpromotion raw) as [[]|]; discriminate.
Qed.

End ChessRulesFacts.

(** C6. In a position with at least one legal move, [getBestMove] returns
    the first move, in the order of enumeration, whose negated material
    evaluation after the move is greatest: no candidate has a greater
    value and every earlier one has a smaller value; each candidate is
    made and taken back, and the [Chess] object of the evaluator is the
    same when [getBestMove] returns. *)
Theorem getBestMove_first_maximum {E : ChessJs.Engine}
  (undo_move : forall (c c' : ChessJs.Chess) (m : Move),
      ChessJs.moveObject c m = Some c' -> ChessJs.undo c' = c)
  (c : ChessJs.Chess)
  (legal_apply : forall m, In m (ChessJs.movesVerbose c) -> ChessJs.moveObject c m <> None)
  (some_move : ChessJs.movesVerbose c <> []) :
  exists best,
    getBestMove c = (Normal best, c)
    /\ Spec.firstBest c (ChessJs.movesVerbose c) best.
Proof.
  unfold getBestMove, tryCatch, bind, gets.
  destruct (ChessJs.movesVerbose c) as [|x l] eqn:Hmoves; [contradiction|].
  cbn [length Nat.eqb].
  rewrite (bestMove_loop undo_move c (x :: l) _ legal_apply).
  eexists. split; [reflexivity|]. apply pick_from_sentinel.
Qed.

Lemma getBestMove_first_maximum_witness :
  exists best,
    getBestMove (E := ChessRules.engine) (ChessRules.after ["e4"; "d5"])
      = (Normal best, ChessRules.after ["e4"; "d5"])
    /\ Spec.firstBest (E := ChessRules.engine) (ChessRules.after ["e4"; "d5"])
         (ChessRules.verboseMoves (ChessRules.after ["e4"; "d5"])) best.
Proof.
  apply (getBestMove_first_maximum (E := ChessRules.engine) ChessRules_undo_move).
  - apply ChessRules_legal_apply.
  - vm_compute. discriminate.
Defined.

(** C5. [findTactics] returns normally and leaves the [Chess] object it
    probes as it found it, and so with the same FEN, whether it reports a
    tactic or none and also when a hypothetical move is refused: every
    move it makes is taken back. *)
Theorem findTactics_leaves_board {E : ChessJs.Engine}
  (undo_move : forall (c c' : ChessJs.Chess) (m : Move),
      ChessJs.moveObject c m = Some c' -> ChessJs.undo c' = c)
  (c : ChessJs.Chess) :
  exists t,
    findTactics c = (Normal t, c)
    /\ ChessJs.fen (snd (findTactics c)) = ChessJs.fen c.
Proof.
  destruct (findTactics_run undo_move c) as [t Ht].
  exists t. rewrite Ht. split; reflexivity.
Qed.

Lemma findTactics_leaves_board_witness :
  exists t,
    findTactics (E := ChessRules.engine) (ChessRules.after ["e4"; "d5"])
      = (Normal t, ChessRules.after ["e4"; "d5"])
    /\ ChessRules.fenOf (ChessRules.current
          (snd (findTactics (E := ChessRules.engine) (ChessRules.after ["e4"; "d5"]))))
       = ChessRules.fenOf (ChessRules.current (ChessRules.after ["e4"; "d5"])).
Proof.
  exact (findTactics_leaves_board (E := ChessRules.engine) ChessRules_undo_move
           (ChessRules.after ["e4"; "d5"])).
Defined.

(* ===================================================================== *)
(** * Fork detection *)
(* ===================================================================== *)

Section ForkFacts.

Context {E : ChessJs.Engine}.

Lemma count_fold {A : Type} (p : A -> bool) (f : nat -> A -> nat) (l : list A) :
  (forall n x, f n x = if p x then S n else n) ->
  forall n, fold_left f l n = (n + length (filter p l))%nat.
Proof.
  intros Hf. induction l as [|x l IH]; intros n; cbn [fold_left filter].
  - cbn. lia.
  - rewrite IH, Hf. destruct (p x); cbn [length]; lia.
Qed.

(** After a move, the side [countAttackedPieces] calls the opponent is the
    side that has just moved: the pieces it counts are those of the mover
    that the other side attacks. *)
Lemma countAttackedPieces_counts_mover
  (turn_move : forall (c c' : ChessJs.Chess) (m : Move),
      ChessJs.moveObject c m = Some c' ->
      ChessJs.turn c' = Spec.opposite (ChessJs.turn c))
  (c c' : ChessJs.Chess) (m : Move) :
  ChessJs.moveObject c m = Some c' ->
  countAttackedPieces c'
    = (Normal (Spec.ownPiecesUnderAttack c' (ChessJs.turn c)), c').
Proof.
  intros Hm. unfold countAttackedPieces, tryCatch, bind, gets, ret.
  rewrite (turn_move _ _ _ Hm). unfold Spec.ownPiecesUnderAttack.
  f_equal. f_equal.
  rewrite (count_fold
             (fun '(row, col) =>
                match pieceAt (ChessJs.board c') row col with
                | Some piece =>
                    Color_eqb (color piece) (ChessJs.turn c)
                    && ChessJs.isAttacked c' (squareName row col)
                         (Spec.opposite (ChessJs.turn c))
                | None => false
                end)).
  - reflexivity.
  - intros n [row col]. destruct (pieceAt (ChessJs.board c') row col) as [piece|];
      [|reflexivity].
    destruct (ChessJs.turn c), (color piece); cbn;
      match goal with
      | |- context [ChessJs.isAttacked ?a ?b ?d] =>
          destruct (ChessJs.isAttacked a b d)
      | _ => idtac
      end; reflexivity.
Qed.

End ForkFacts.

Section ForkLoop.

Context {E : ChessJs.Engine}.

Hypothesis undo_move : forall (c c' : ChessJs.Chess) (m : Move),
  ChessJs.moveObject c m = Some c' -> ChessJs.undo c' = c.

(** The fork loop reports the first candidate after which
    [countAttackedPieces] returns at least 2, and nothing when there is
    none. *)
Lemma forkLoop_first (c : ChessJs.Chess) (l : list Move) :
  (forall m, In m l -> ChessJs.moveObject c m <> None) ->
  forkLoop l c
  = (Normal (option_map forkInfo
               (find (fun m => (2 <=? Spec.attackedAfter c m)%nat) l)), c).
Proof.
  unfold forkLoop. induction l as [|m l IH]; intros Hl; cbn [forOfReturn find].
  - reflexivity.
  - assert (Hbody :
      (chess_moveObject m ;;
       attackedPieces <- countAttackedPieces ;;
       if (2 <=? attackedPieces)%nat
       then (let tacticInfo := forkInfo m in chess_undo ;; ret (Some tacticInfo))
       else (chess_undo ;; ret None)) c
      = (Normal (if (2 <=? Spec.attackedAfter c m)%nat then Some (forkInfo m) else None),
         c)).
    { unfold bind, chess_moveObject, Spec.attackedAfter, Spec.valueOf.
      destruct (ChessJs.moveObject c m) as [c'|] eqn:Hm.
      - destruct (countAttackedPieces_run c') as [n Hn]. rewrite Hn. cbn [fst].
        destruct (2 <=? n)%nat; unfold chess_undo, modify, ret;
          rewrite (undo_move _ _ _ Hm); reflexivity.
      - exfalso. exact (Hl m (or_introl eq_refl) Hm). }
    rewrite (bind_Normal _ _ _ _ _ Hbody).
    destruct (2 <=? Spec.attackedAfter c m)%nat.
    + reflexivity.
    + apply IH. intros x Hx. apply Hl. right. exact Hx.
Qed.

End ForkLoop.

(** C2 (the code departs from the claim). After 1. e4 d5 it is White to
    move and the pawn move c4 is a candidate. After c4 White attacks one
    black piece, the pawn on d5, so by the count of the specification there
    is no fork at c4. [countAttackedPieces] returns 2: it counts the pieces
    of the side that has just moved which the side to move attacks, here
    the white pawns on c4 and e4. [findTactics] therefore reports a fork at
    c4, and the game 1. e4 d5 2. c4 is credited with an executed fork. *)
Theorem fork_counts_the_movers_pieces :
  let c := ChessRules.after ["e4"; "d5"] in
  let c4 := {| from := "c2"; to := "c4"; san := "c4"; flags := "b";
               promotion := None |} in
  ChessJs.turn (Engine := ChessRules.engine) c = WHITE
  /\ In c4 (ChessJs.movesVerbose (Engine := ChessRules.engine) c)
  /\ exists c',
       ChessJs.moveObject (Engine := ChessRules.engine) c c4 = Some c'
       /\ Spec.opponentPiecesUnderAttack (E := ChessRules.engine) c' WHITE = 1%nat
       /\ Spec.ownPiecesUnderAttack (E := ChessRules.engine) c' WHITE = 2%nat
       /\ countAttackedPieces (E := ChessRules.engine) c' = (Normal 2%nat, c')
       /\ fst (findTactics (E := ChessRules.engine) c) = Normal (forkInfo c4)
       /\ fst (runTacticsAnalysis (E := ChessRules.engine)
                 (Pgn.parsePgn "1. e4 d5 2. c4") "white"
                 ChessRules.freshHeap)
          = Normal
              {| TacticsAnalysisResult.missedTactics := [];
                 TacticsAnalysisResult.executedTactics :=
                   [ {| ExecutedTactic.moveNumber := 2;
                        ExecutedTactic.position :=
                          "rnbqkbnr/ppp1pppp/8/3p4/4P3/8/PPPP1PPP/RNBQKBNR w KQkq - 0 2";
                        ExecutedTactic.tactic := "Fork" |} ] |}.
Proof.
  cbv zeta. split; [reflexivity|]. split.
  - vm_compute. tauto.
  - eexists. split; [vm_compute; reflexivity|].
    repeat split; vm_compute; reflexivity.
Qed.

(* ===================================================================== *)
(** * The game analysis *)
(* ===================================================================== *)

Section GameFacts.

Context {E : ChessJs.Engine}.

Lemma getBestMove_total (c : ChessJs.Chess) :
  exists best c', getBestMove c = (Normal best, c').
Proof.
  unfold getBestMove, tryCatch.
  match goal with
  | |- context [match ?x c with _ => _ end] => destruct (x c) as [[best|] c']
  end; eexists; eexists; reflexivity.
Qed.

Lemma tallied_refl (v : GameVars.t) : Spec.tallied [] v v.
Proof.
  unfold Spec.tallied, Spec.countGood, Spec.countQuality, Spec.notable. cbn.
  rewrite app_nil_r. repeat split; lia.
Qed.

Lemma analysed_app (a b : list Spec.UserTurn) :
  Spec.analysed (a ++ b) = (Spec.analysed a ++ Spec.analysed b)%list.
Proof. unfold Spec.analysed. apply flat_map_app. Qed.

Lemma countQuality_app (q : MoveQuality) (a b : list Spec.UserTurn) :
  Spec.countQuality q (a ++ b) = (Spec.countQuality q a + Spec.countQuality q b)%nat.
Proof.
  unfold Spec.countQuality. rewrite analysed_app, filter_app, length_app. reflexivity.
Qed.

Lemma tallied_trans (a b : list Spec.UserTurn) (v v1 v2 : GameVars.t) :
  Spec.tallied a v v1 -> Spec.tallied b v1 v2 -> Spec.tallied (a ++ b) v v2.
Proof.
  unfold Spec.tallied, Spec.countGood, Spec.notable.
  intros (Ha1 & Ha2 & Ha3 & Ha4 & Ha5 & Ha6) (Hb1 & Hb2 & Hb3 & Hb4 & Hb5 & Hb6).
  rewrite !countQuality_app, length_app, analysed_app, map_app, filter_app.
  rewrite Hb1, Hb2, Hb3, Hb4, Hb5, Hb6, Ha1, Ha2, Ha3, Ha4, Ha5, Ha6.
  unfold Spec.countGood, Spec.notable.
  rewrite <- app_assoc. repeat split; lia.
Qed.


(** [setPosition] sets the evaluator to the position, and to the start
    position when the FEN is refused. *)
Lemma setPosition_positioned (fen : string) (c : ChessJs.Chess) :
  setPosition fen c = (Normal tt, Spec.positioned c fen).
Proof.
  unfold setPosition, tryCatch, chess_load, chess_reset, modify, Spec.positioned.
  destruct (ChessJs.load c fen); reflexivity.
Qed.

Lemma usersTurn_isUserMove (turn : Color) (userColor : string) :
  isUserMove turn userColor = Spec.usersTurn turn userColor.
Proof.
  unfold isUserMove. destruct turn; cbn [Color_eqb andb orb Spec.usersTurn].
  - apply orb_false_r.
  - reflexivity.
Qed.

Lemma absDiff_distance (a : Num) (b : Z) : Num.absDiff a b = Spec.distance a b.
Proof.
  destruct a as [|x|]; cbn [Num.absDiff Spec.distance]; try reflexivity.
  f_equal. destruct (Z.ltb_spec x b); lia.
Qed.

Lemma percentage_pos (k n : nat) :
  n <> 0%nat ->
  percentage k n = inject_Z (Z.of_nat k) / inject_Z (Z.of_nat n) * inject_Z 100.
Proof. destruct n; [contradiction | reflexivity]. Qed.

(** Every evaluation difference is of exactly one kind. *)
Lemma quality_partition (ts : list Spec.UserTurn) :
  (Spec.countQuality blunder ts + Spec.countQuality mistake ts
   + Spec.countQuality inaccuracy ts + Spec.countGood ts
   = length (Spec.analysed ts))%nat.
Proof.
  unfold Spec.countGood, Spec.countQuality.
  induction (Spec.analysed ts) as [|d ds IH]; [reflexivity|].
  cbn [filter length]. destruct (Spec.quality d); cbn [Spec.MoveQuality_eqb length]; lia.
Qed.


Lemma getBestMove_eq (d : BestMove.t) (c : ChessJs.Chess) :
  getBestMove c = (Normal (Spec.valueOf d getBestMove c), snd (getBestMove c)).
Proof.
  destruct (getBestMove_total c) as (best & c' & H).
  unfold Spec.valueOf. rewrite H. reflexivity.
Qed.

Lemma evaluate_eq (c : ChessJs.Chess) :
  evaluate c = (Normal (Spec.valueOf 0%Z evaluate c), c).
Proof. unfold Spec.valueOf. rewrite evaluate_run. cbn [fst]. reflexivity. Qed.

(** A move of the user the board refuses: the retry in the catch block
    is refused too, and the exception leaves the loop body. *)
Lemma gameLoopBody_user_refused (userColor : string) (i : nat)
  (moveInfo : Pgn.ChessMove) (h : Heap) (v : GameVars.t) :
  isUserMove (ChessJs.turn (chess h)) userColor = true ->
  ChessJs.move (chess h) (Pgn.move moveInfo) = None ->
  gameLoopBody userColor i moveInfo (h, v)
  = (Throw,
     ({| chess := chess h;
         chessEngine :=
           snd (getBestMove
                  (Spec.positioned (chessEngine h) (ChessJs.fen (chess h)))) |},
      GameVars.incTotalMoves v)).
Proof.
  intros Huser Hmove. destruct h as [c e]. cbn [chess chessEngine] in *.
  unfold gameLoopBody, analyzeUserMove. run_heap. rewrite Huser. run_heap.
  rewrite (setPosition_positioned (ChessJs.fen c) e).
  rewrite (getBestMove_eq {| BestMove.move := EmptyString;
                             BestMove.evaluation := Finite 0 |}).
  cbn [fst snd chess chessEngine]. rewrite Hmove.
  cbn [fst snd chess chessEngine]. rewrite Hmove. reflexivity.
Qed.

(** A move of the opponent: made when the board accepts it, passed over
    otherwise. *)
Lemma gameLoopBody_opponent (userColor : string) (i : nat)
  (moveInfo : Pgn.ChessMove) (h : Heap) (v : GameVars.t) :
  isUserMove (ChessJs.turn (chess h)) userColor = false ->
  gameLoopBody userColor i moveInfo (h, v)
  = (Normal tt,
     (match ChessJs.move (chess h) (Pgn.move moveInfo) with
      | Some c' => {| chess := c'; chessEngine := chessEngine h |}
      | None => h
      end, v)).
Proof.
  intros Huser. destruct h as [c e]. cbn [chess chessEngine] in *.
  unfold gameLoopBody. run_heap. rewrite Huser. run_heap.
  destruct (ChessJs.move c (Pgn.move moveInfo)); reflexivity.
Qed.

Lemma tallied_one (d : Num) (v v' : GameVars.t) :
  GameVars.blunders v'
    = (GameVars.blunders v
       + if Spec.MoveQuality_eqb (Spec.quality d) blunder then 1 else 0)%nat ->
  GameVars.mistakes v'
    = (GameVars.mistakes v
       + if Spec.MoveQuality_eqb (Spec.quality d) mistake then 1 else 0)%nat ->
  GameVars.inaccuracies v'
    = (GameVars.inaccuracies v
       + if Spec.MoveQuality_eqb (Spec.quality d) inaccuracy then 1 else 0)%nat ->
  GameVars.totalMoves v' = S (GameVars.totalMoves v) ->
  GameVars.goodMoves v'
    = (GameVars.goodMoves v
       + ((if Spec.MoveQuality_eqb (Spec.quality d) good then 1 else 0)
          + (if Spec.MoveQuality_eqb (Spec.quality d) excellent then 1 else 0)))%nat ->
  map KeyMoment.type (GameVars.keyMoments v')
    = (map KeyMoment.type (GameVars.keyMoments v)
       ++ (if Spec.MoveQuality_eqb (Spec.quality d) blunder
              || Spec.MoveQuality_eqb (Spec.quality d) excellent
           then [Spec.quality d] else []))%list ->
  Spec.tallied [Spec.Analysed d] v v'.
Proof.
  intros H1 H2 H3 H4 H5 H6.
  unfold Spec.tallied, Spec.countGood, Spec.countQuality, Spec.notable.
  cbn [Spec.analysed flat_map app map filter length].
  rewrite H1, H2, H3, H4, H5, H6.
  repeat split; try reflexivity;
    repeat match goal with
           | |- context [if ?b then _ else _] => destruct b
           end; cbn [length]; lia.
Qed.

(** A move of the user the board accepts: it is classified by its
    [evalDiff] and counted. *)
Lemma gameLoopBody_user_applied (userColor : string) (i : nat)
  (moveInfo : Pgn.ChessMove) (h : Heap) (v : GameVars.t) (c' : ChessJs.Chess) :
  isUserMove (ChessJs.turn (chess h)) userColor = true ->
  ChessJs.move (chess h) (Pgn.move moveInfo) = Some c' ->
  let e1 := Spec.positioned (chessEngine h) (ChessJs.fen (chess h)) in
  let best := Spec.valueOf {| BestMove.move := EmptyString;
                              BestMove.evaluation := Finite 0 |} getBestMove e1 in
  let e2 := snd (getBestMove e1) in
  let e3 := Spec.positioned e2 (ChessJs.fen c') in
  let d := Spec.distance (BestMove.evaluation best) (Spec.valueOf 0%Z evaluate e3) in
  exists v',
    gameLoopBody userColor i moveInfo (h, v)
    = (Normal tt, ({| chess := c'; chessEngine := e3 |}, v'))
    /\ Spec.tallied [Spec.Analysed d] v v'.
Proof.
  intros Huser Hmove. destruct h as [c e]. cbn [chess chessEngine] in *.
  cbv zeta.
  unfold gameLoopBody, analyzeUserMove. run_heap. rewrite Huser. run_heap.
  rewrite (setPosition_positioned (ChessJs.fen c) e).
  rewrite (getBestMove_eq {| BestMove.move := EmptyString;
                             BestMove.evaluation := Finite 0 |}).
  cbn [fst snd chess chessEngine]. rewrite Hmove.
  rewrite (setPosition_positioned (ChessJs.fen c')).
  cbn [fst snd chess chessEngine]. rewrite evaluate_eq.
  cbn [fst snd chess chessEngine].
  set (e3 := Spec.positioned _ (ChessJs.fen c')).
  rewrite absDiff_distance.
  set (d := Spec.distance _ _).
  unfold classify. run_heap.
  destruct (Num.gtQ d 2) eqn:G2; [|destruct (Num.gtQ d 1) eqn:G1;
    [|destruct (Num.gtQ d (1 # 2)) eqn:G5; [|destruct (Num.ltQ d (1 # 5)) eqn:L2]]];
    cbn [fst snd]; eexists; (split; [reflexivity|]);
    apply tallied_one; unfold Spec.quality; rewrite ?G2, ?G1, ?G5, ?L2;
    cbn; rewrite ?map_app; cbn; try rewrite app_nil_r; try reflexivity; lia.
Qed.


Lemma tallied_refused (v : GameVars.t) :
  Spec.tallied [Spec.Refused] v (GameVars.incTotalMoves v).
Proof.
  unfold Spec.tallied, Spec.countGood, Spec.countQuality, Spec.notable. cbn.
  rewrite app_nil_r. repeat split; lia.
Qed.

(** The loop of [runGameAnalysis] counts the turns of the user. *)
Lemma gameLoop_tallied (userColor : string) (moves : list Pgn.ChessMove) :
  forall (i : nat) (h : Heap) (v : GameVars.t),
  exists r h' v',
    forIndex i moves (gameLoopBody userColor) (h, v) = (r, (h', v'))
    /\ Spec.tallied (Spec.userTurns userColor moves h) v v'.
Proof.
  induction moves as [|moveInfo rest IH]; intros i h v;
    cbn [forIndex Spec.userTurns].
  - exists (Normal tt), h, v. split; [reflexivity | apply tallied_refl].
  - rewrite <- usersTurn_isUserMove.
    destruct (isUserMove (ChessJs.turn (chess h)) userColor) eqn:Huser.
    + destruct (ChessJs.move (chess h) (Pgn.move moveInfo)) as [c'|] eqn:Hmove.
      * destruct (gameLoopBody_user_applied userColor i moveInfo h v c' Huser Hmove)
          as (v1 & Hstep & Hone).
        rewrite (bind_Normal _ _ _ _ _ Hstep).
        match goal with
        | |- context [forIndex (S i) rest _ (?h1, v1)] =>
            destruct (IH (S i) h1 v1) as (r & h' & v' & Hloop & Hrest)
        end.
        exists r, h', v'. split; [exact Hloop|].
        exact (tallied_trans [_] _ _ _ _ Hone Hrest).
      * rewrite (bind_Throw _ _ _ _
                   (gameLoopBody_user_refused userColor i moveInfo h v Huser Hmove)).
        eexists _, _, _. split; [reflexivity | apply tallied_refused].
    + rewrite (bind_Normal _ _ _ _ _
                 (gameLoopBody_opponent userColor i moveInfo h v Huser)).
      destruct (ChessJs.move (chess h) (Pgn.move moveInfo)) as [c'|]; apply IH.
Qed.

Lemma outcome_agrees (result : option string) (userColor : string) :
  match result with
  | Some result =>
      if JS.isEmpty result then "Unknown"
      else if String.eqb result "1-0" then
             (if String.eqb userColor "white" then "Win" else "Loss")
      else if String.eqb result "0-1" then
             (if String.eqb userColor "black" then "Win" else "Loss")
      else if String.eqb result "1/2-1/2" then "Draw"
      else "Unknown"
  | None => "Unknown"
  end = Spec.outcomeFor result userColor.
Proof.
  destruct result as [r|]; [|reflexivity].
  destruct (JS.isEmpty r) eqn:He.
  - destruct r; [reflexivity | discriminate].
  - destruct (String.eqb r "1-0") eqn:H1; [apply String.eqb_eq in H1; subst; reflexivity|].
    destruct (String.eqb r "0-1") eqn:H2; [apply String.eqb_eq in H2; subst; reflexivity|].
    destruct (String.eqb r "1/2-1/2") eqn:H3;
      [apply String.eqb_eq in H3; subst; reflexivity|].
    apply String.eqb_neq in H1, H2, H3. unfold Spec.outcomeFor.
    repeat match goal with
           | |- context [match ?x with _ => _ end] => destruct x; try reflexivity
           end; congruence.
Qed.

(** What [runGameAnalysis] returns, by the turns of the user. *)
Lemma runGameAnalysis_run (parsedGame : Pgn.ChessGame) (userColor : string) (h : Heap) :
  exists r h' v,
    runGameAnalysis parsedGame userColor h = (Normal r, h')
    /\ Spec.tallied
         (Spec.userTurns userColor (Pgn.moves parsedGame)
            {| chess := ChessJs.reset (chess h); chessEngine := chessEngine h |})
         GameVars.init v
    /\ r = {| GameAnalysisResult.outcome :=
                Spec.outcomeFor (Pgn.result parsedGame) userColor;
              GameAnalysisResult.userColor := userColor;
              GameAnalysisResult.accuracy :=
                percentage (GameVars.goodMoves v) (GameVars.totalMoves v);
              GameAnalysisResult.blunders := GameVars.blunders v;
              GameAnalysisResult.mistakes := GameVars.mistakes v;
              GameAnalysisResult.inaccuracies := GameVars.inaccuracies v;
              GameAnalysisResult.keyMoments := GameVars.keyMoments v |}.
Proof.
  unfold runGameAnalysis.
  rewrite (bind_Normal _ _ _ _ _
             (eq_refl : onChess chess_reset h
                        = (Normal tt, {| chess := ChessJs.reset (chess h);
                                         chessEngine := chessEngine h |}))).
  cbv zeta.
  destruct (gameLoop_tallied userColor (Pgn.moves parsedGame) 0
              {| chess := ChessJs.reset (chess h); chessEngine := chessEngine h |}
              GameVars.init) as (r & h' & v' & Hloop & Htally).
  assert (Hlocals :
    withLocals GameVars.init
      (tryCatch (forIndex 0 (Pgn.moves parsedGame) (gameLoopBody userColor)) (ret tt))
      {| chess := ChessJs.reset (chess h); chessEngine := chessEngine h |}
    = (Normal (tt, v'), h')).
  { unfold withLocals, tryCatch. rewrite Hloop. destruct r as [[]|]; reflexivity. }
  rewrite (bind_Normal _ _ _ _ _ Hlocals). cbn [snd]. unfold ret.
  eexists _, h', v'. split; [reflexivity|]. split; [exact Htally|].
  rewrite outcome_agrees. reflexivity.
Qed.

End GameFacts.

Section ReplayFacts.

Context {E : ChessJs.Engine}.

(** A move of the user the board refuses ends the loop of
    [runGameAnalysis]: the moves after it are not looked at. *)
Lemma gameLoop_stops_at_refused_user_move (userColor : string) (i : nat)
  (moveInfo : Pgn.ChessMove) (rest : list Pgn.ChessMove) (h : Heap) (v : GameVars.t) :
  isUserMove (ChessJs.turn (chess h)) userColor = true ->
  ChessJs.move (chess h) (Pgn.move moveInfo) = None ->
  exists e,
    forIndex i (moveInfo :: rest) (gameLoopBody userColor) (h, v)
    = (Throw, ({| chess := chess h; chessEngine := e |}, GameVars.incTotalMoves v)).
Proof.
  intros Huser Hmove. cbn [forIndex].
  rewrite (bind_Throw _ _ _ _
             (gameLoopBody_user_refused userColor i moveInfo h v Huser Hmove)).
  eexists. reflexivity.
Qed.

End ReplayFacts.



(** C3 (the code departs from the claim). In the game
    [1. e4 e5 {Open game} 2. Nf3 Nc6], which the parser reads as six move
    tokens, White is the user and the third token comes on a turn of
    White. The board refuses it; the catch block makes the same call again,
    which is refused again, and that exception ends the loop: the board
    stays where it was after 1. e4 e5, none of the later tokens is tried,
    and the result counts two turns of the user, one of them good.
    Passing over the refused tokens and going on would have reached the
    position after 2. Nf3 Nc6. *)
Theorem refused_user_move_ends_replay :
  let parsedGame := Pgn.parsePgn "1. e4 e5 {Open game} 2. Nf3 Nc6" in
  let run := runGameAnalysis (E := ChessRules.engine) parsedGame "white"
               ChessRules.freshHeap in
  map Pgn.move (Pgn.moves parsedGame) = ["e4"; "e5"; "{Open"; "game}"; "Nf3"; "Nc6"]
  /\ ChessRules.moveSan (ChessRules.after ["e4"; "e5"]) "{Open" = None
  /\ chess (snd run) = ChessRules.after ["e4"; "e5"]
  /\ ChessRules.fenOf (ChessRules.current (chess (snd run)))
     = "rnbqkbnr/pppp1ppp/8/4p3/4P3/8/PPPP1PPP/RNBQKBNR w KQkq - 0 2"
  /\ ChessRules.fenOf
       (ChessRules.current
          (ChessRules.after ["e4"; "e5"; "{Open"; "game}"; "Nf3"; "Nc6"]))
     = "r1bqkbnr/pppp1ppp/2n5/4p3/4P3/5N2/PPPP1PPP/RNBQKB1R w KQkq - 2 3"
  /\ exists r,
       fst run = Normal r
       /\ GameAnalysisResult.accuracy r = percentage 1 2.
Proof.
  cbv zeta.
  split; [vm_compute; reflexivity|].
  split; [vm_compute; reflexivity|].
  split; [vm_compute; reflexivity|].
  split; [vm_compute; reflexivity|].
  split; [vm_compute; reflexivity|].
  eexists. split; vm_compute; reflexivity.
Qed.

(* ===================================================================== *)
(** * The fundamentals *)
(* ===================================================================== *)

Section FundamentalsFacts.

Context {E : ChessJs.Engine}.

Lemma pure_value {A : Type} (d : A) (m : M ChessJs.Chess A) (c : ChessJs.Chess) :
  (exists z, m c = (Normal z, c)) -> m c = (Normal (Spec.valueOf d m c), c).
Proof. intros [z H]. unfold Spec.valueOf. rewrite H. reflexivity. Qed.

Lemma evaluatePieceDevelopment_pure (userColor : string) (c : ChessJs.Chess) :
  exists z, evaluatePieceDevelopment userColor c = (Normal z, c).
Proof. eexists. reflexivity. Qed.

Lemma evaluateCenterControl_pure (userColor : string) (c : ChessJs.Chess) :
  exists z, evaluateCenterControl userColor c = (Normal z, c).
Proof. eexists. reflexivity. Qed.

Lemma evaluateKingSafety_pure (userColor : string) (c : ChessJs.Chess) :
  exists z, evaluateKingSafety userColor c = (Normal z, c).
Proof.
  unfold evaluateKingSafety, tryCatch, bind, gets, ret.
  destruct (findKing (ChessJs.board c) (colorOf userColor)) as [[row col]|];
    [|eexists; reflexivity].
  destruct (Color_eqb (colorOf userColor) WHITE);
    match goal with
    | |- context [if ?b then _ else _] => destruct b
    end; eexists; reflexivity.
Qed.

Lemma evaluatePawnStructure_pure (userColor : string) (c : ChessJs.Chess) :
  exists z, evaluatePawnStructure userColor c = (Normal z, c).
Proof.
  unfold evaluatePawnStructure, tryCatch, bind, gets, ret.
  match goal with
  | |- context [fold_left ?f ?l ?a] => destruct (fold_left f l a) as [doubled isolated]
  end.
  eexists. reflexivity.
Qed.

Lemma fold_add {A : Type} (g : A -> Z) (ps : list A) : forall a : Z,
  fold_left (fun acc c => (acc + g c)%Z) ps a
  = (a + fold_left (fun acc c => (acc + g c)%Z) ps 0%Z)%Z.
Proof.
  induction ps as [|x ps IH]; intros a; cbn [fold_left]; [lia|].
  rewrite (IH (a + g x)%Z), (IH (0 + g x)%Z). lia.
Qed.

Lemma total_cons (heuristic : M ChessJs.Chess Z) (c : ChessJs.Chess)
  (ps : list ChessJs.Chess) :
  Spec.total heuristic (c :: ps)
  = (Spec.valueOf 0%Z heuristic c + Spec.total heuristic ps)%Z.
Proof.
  unfold Spec.total. cbn [fold_left].
  rewrite (fold_add (Spec.valueOf 0%Z heuristic)). lia.
Qed.

(** One round of the loop of [runFundamentalsAnalysis]. *)
Lemma fundamentalsLoopBody_step (userColor : string) (i : nat)
  (moveInfo : Pgn.ChessMove) (h : Heap) (v : FundamentalsVars.t) :
  fundamentalsLoopBody userColor i moveInfo (h, v)
  = match ChessJs.move (chess h) (Pgn.move moveInfo) with
    | None => (Throw, (h, v))
    | Some c' =>
        (Normal tt,
         ({| chess := c'; chessEngine := chessEngine h |},
          if (i <? 40)%nat && isUserMove (ChessJs.turn (chess h)) userColor
          then FundamentalsVars.add
                 (Spec.valueOf 0%Z (evaluatePieceDevelopment userColor) c')
                 (Spec.valueOf 0%Z (evaluateCenterControl userColor) c')
                 (Spec.valueOf 0%Z (evaluateKingSafety userColor) c')
                 (Spec.valueOf 0%Z (evaluatePawnStructure userColor) c')
                 v
          else v))
    end.
Proof.
  destruct h as [c e]. unfold fundamentalsLoopBody. run_heap.
  destruct (ChessJs.move c (Pgn.move moveInfo)) as [c'|]; [|reflexivity].
  destruct ((i <? 40)%nat && isUserMove (ChessJs.turn c) userColor); [|reflexivity].
  cbn [fst snd chess chessEngine].
  rewrite (pure_value 0%Z _ _ (evaluatePieceDevelopment_pure userColor c')).
  cbn [fst snd chess chessEngine].
  rewrite (pure_value 0%Z _ _ (evaluateCenterControl_pure userColor c')).
  cbn [fst snd chess chessEngine].
  rewrite (pure_value 0%Z _ _ (evaluateKingSafety_pure userColor c')).
  cbn [fst snd chess chessEngine].
  rewrite (pure_value 0%Z _ _ (evaluatePawnStructure_pure userColor c')).
  reflexivity.
Qed.

(** The loop adds the four heuristics over the scored positions. *)
Lemma fundamentalsLoop_totals (userColor : string) (moves : list Pgn.ChessMove) :
  forall (i : nat) (h : Heap) (v : FundamentalsVars.t),
  exists r h' v',
    forIndex i moves (fundamentalsLoopBody userColor) (h, v) = (r, (h', v'))
    /\ let ps := Spec.scoredPositions userColor i moves (chess h) in
       FundamentalsVars.pieceDevelopmentScore v'
       = (FundamentalsVars.pieceDevelopmentScore v
          + Spec.total (evaluatePieceDevelopment userColor) ps)%Z
       /\ FundamentalsVars.centerControlScore v'
          = (FundamentalsVars.centerControlScore v
             + Spec.total (evaluateCenterControl userColor) ps)%Z
       /\ FundamentalsVars.kingSafetyScore v'
          = (FundamentalsVars.kingSafetyScore v
             + Spec.total (evaluateKingSafety userColor) ps)%Z
       /\ FundamentalsVars.pawnStructureScore v'
          = (FundamentalsVars.pawnStructureScore v
             + Spec.total (evaluatePawnStructure userColor) ps)%Z.
Proof.
  induction moves as [|moveInfo rest IH]; intros i h v;
    cbn [forIndex Spec.scoredPositions].
  - exists (Normal tt), h, v. split; [reflexivity|].
    cbv zeta. unfold Spec.total. cbn [fold_left]. repeat split; lia.
  - pose proof (fundamentalsLoopBody_step userColor i moveInfo h v) as Hstep.
    destruct (ChessJs.move (chess h) (Pgn.move moveInfo)) as [c'|].
    + rewrite (bind_Normal _ _ _ _ _ Hstep).
      match goal with
      | |- context [forIndex (S i) rest _ (?h1, ?v1)] =>
          destruct (IH (S i) h1 v1) as (r & h' & v' & Hloop & H1 & H2 & H3 & H4)
      end.
      exists r, h', v'. split; [exact Hloop|].
      cbn [chess] in H1, H2, H3, H4. cbv zeta.
      rewrite H1, H2, H3, H4.
      destruct ((i <? 40)%nat && isUserMove (ChessJs.turn (chess h)) userColor).
      * cbn [app]. rewrite !total_cons.
        cbn [FundamentalsVars.add FundamentalsVars.pieceDevelopmentScore
             FundamentalsVars.centerControlScore FundamentalsVars.kingSafetyScore
             FundamentalsVars.pawnStructureScore].
        repeat split; lia.
      * cbn [app]. repeat split; reflexivity.
    + rewrite (bind_Throw _ _ _ _ Hstep).
      exists Throw, h, v. split; [reflexivity|].
      cbv zeta. unfold Spec.total. cbn [fold_left]. repeat split; lia.
Qed.

Lemma clamp_range (x : Z) : (0 <= clamp x <= 100)%Z.
Proof. unfold clamp. lia. Qed.

(** What [runFundamentalsAnalysis] returns. *)
Lemma runFundamentalsAnalysis_run (parsedGame : Pgn.ChessGame) (userColor : string)
  (h : Heap) :
  let ps := Spec.scoredPositions userColor 0 (Pgn.moves parsedGame)
              (ChessJs.reset (chess h)) in
  exists r h',
    runFundamentalsAnalysis parsedGame userColor h = (Normal r, h')
    /\ FundamentalsAnalysisResult.pieceDevelopment r
       = clamp (Spec.total (evaluatePieceDevelopment userColor) ps)
    /\ FundamentalsAnalysisResult.centerControl r
       = clamp (Spec.total (evaluateCenterControl userColor) ps)
    /\ FundamentalsAnalysisResult.kingSafety r
       = clamp (Spec.total (evaluateKingSafety userColor) ps)
    /\ FundamentalsAnalysisResult.pawnStructure r
       = clamp (Spec.total (evaluatePawnStructure userColor) ps).
Proof.
  cbv zeta. unfold runFundamentalsAnalysis.
  rewrite (bind_Normal _ _ _ _ _
             (eq_refl : onChess chess_reset h
                        = (Normal tt, {| chess := ChessJs.reset (chess h);
                                         chessEngine := chessEngine h |}))).
  destruct (fundamentalsLoop_totals userColor (Pgn.moves parsedGame) 0
              {| chess := ChessJs.reset (chess h); chessEngine := chessEngine h |}
              FundamentalsVars.init) as (r & h' & v' & Hloop & H1 & H2 & H3 & H4).
  assert (Hlocals :
    withLocals FundamentalsVars.init
      (tryCatch (forIndex 0 (Pgn.moves parsedGame) (fundamentalsLoopBody userColor))
                (ret tt))
      {| chess := ChessJs.reset (chess h); chessEngine := chessEngine h |}
    = (Normal (tt, v'), h')).
  { unfold withLocals, tryCatch. rewrite Hloop. destruct r as [[]|]; reflexivity. }
  rewrite (bind_Normal _ _ _ _ _ Hlocals). cbn [snd]. unfold ret.
  eexists _, h'. split; [reflexivity|].
  cbn [FundamentalsAnalysisResult.pieceDevelopment
       FundamentalsAnalysisResult.centerControl
       FundamentalsAnalysisResult.kingSafety
       FundamentalsAnalysisResult.pawnStructure].
  cbn [chess] in H1, H2, H3, H4. rewrite H1, H2, H3, H4.
  cbn [FundamentalsVars.init FundamentalsVars.pieceDevelopmentScore
       FundamentalsVars.centerControlScore FundamentalsVars.kingSafetyScore
       FundamentalsVars.pawnStructureScore].
  repeat split; reflexivity.
Qed.

End FundamentalsFacts.

(** C9. [runFundamentalsAnalysis] returns normally; each of its four scores
    is the sum of its heuristic over the positions reached by a move of the
    user among the first 40 half-moves, brought into the range from 0 to
    100; so each of the four lies between 0 and 100, whatever the game. *)
Theorem runFundamentalsAnalysis_scores {E : ChessJs.Engine}
  (parsedGame : Pgn.ChessGame) (userColor : string) (h : Heap) :
  let ps := Spec.scoredPositions userColor 0 (Pgn.moves parsedGame)
              (ChessJs.reset (chess h)) in
  exists r h',
    runFundamentalsAnalysis parsedGame userColor h = (Normal r, h')
    /\ FundamentalsAnalysisResult.pieceDevelopment r
       = clamp (Spec.total (evaluatePieceDevelopment userColor) ps)
    /\ FundamentalsAnalysisResult.centerControl r
       = clamp (Spec.total (evaluateCenterControl userColor) ps)
    /\ FundamentalsAnalysisResult.kingSafety r
       = clamp (Spec.total (evaluateKingSafety userColor) ps)
    /\ FundamentalsAnalysisResult.pawnStructure r
       = clamp (Spec.total (evaluatePawnStructure userColor) ps)
    /\ (0 <= FundamentalsAnalysisResult.pieceDevelopment r <= 100)%Z
    /\ (0 <= FundamentalsAnalysisResult.centerControl r <= 100)%Z
    /\ (0 <= FundamentalsAnalysisResult.kingSafety r <= 100)%Z
    /\ (0 <= FundamentalsAnalysisResult.pawnStructure r <= 100)%Z.
Proof.
  cbv zeta.
  destruct (runFundamentalsAnalysis_run parsedGame userColor h)
    as (r & h' & Hrun & H1 & H2 & H3 & H4).
  exists r, h'. split; [exact Hrun|].
  rewrite H1, H2, H3, H4.
  repeat split; try reflexivity; apply clamp_range.
Qed.

(** The game of the single move 1. e4, analysed for White: no minor piece
    is developed, one centre square is held, the king has the base score
    and the pawns theirs. *)
Example fundamentals_one_move_game :
  exists r,
    fst (runFundamentalsAnalysis (E := ChessRules.engine) (Pgn.parsePgn "1. e4") "white"
           ChessRules.freshHeap) = Normal r
    /\ FundamentalsAnalysisResult.pieceDevelopment r = 0%Z
    /\ FundamentalsAnalysisResult.centerControl r = 15%Z
    /\ FundamentalsAnalysisResult.kingSafety r = 50%Z
    /\ FundamentalsAnalysisResult.pawnStructure r = 60%Z.
Proof.
  eexists. split; [vm_compute; reflexivity|]. repeat split.
Qed.

(* ===================================================================== *)
(** * The orchestrator *)
(* ===================================================================== *)

Section OrchestratorFacts.

Context {E : ChessJs.Engine}.

Lemma runTacticsAnalysis_total (parsedGame : Pgn.ChessGame) (userColor : string)
  (h : Heap) :
  exists r h', runTacticsAnalysis parsedGame userColor h = (Normal r, h').
Proof.
  unfold runTacticsAnalysis.
  rewrite (bind_Normal _ _ _ _ _
             (eq_refl : onChess chess_reset h
                        = (Normal tt, {| chess := ChessJs.reset (chess h);
                                         chessEngine := chessEngine h |}))).
  match goal with
  | |- context [withLocals ?init (tryCatch ?m (ret tt))] =>
      destruct (withLocals_tryCatch init m
                  {| chess := ChessJs.reset (chess h); chessEngine := chessEngine h |})
        as (h' & v & Hlocals)
  end.
  rewrite (bind_Normal _ _ _ _ _ Hlocals). eexists _, _. reflexivity.
Qed.

Lemma runOpeningsAnalysis_total (parsedGame : Pgn.ChessGame) (userColor : string)
  (h : Heap) :
  exists r h', runOpeningsAnalysis parsedGame userColor h = (Normal r, h').
Proof.
  unfold runOpeningsAnalysis.
  rewrite (bind_Normal _ _ _ _ _
             (eq_refl : onChess chess_reset h
                        = (Normal tt, {| chess := ChessJs.reset (chess h);
                                         chessEngine := chessEngine h |}))).
  cbv zeta.
  match goal with
  | |- context [withLocals ?init (tryCatch ?m (ret tt))] =>
      destruct (withLocals_tryCatch init m
                  {| chess := ChessJs.reset (chess h); chessEngine := chessEngine h |})
        as (h' & v & Hlocals)
  end.
  rewrite (bind_Normal _ _ _ _ _ Hlocals). eexists _, _. reflexivity.
Qed.

(** The heuristic analysis never throws: it makes a new [Chess] object
    and runs the four pipelines on it, one after the other. *)
Lemma fallbackAnalysis_run (parsedGame : Pgn.ChessGame) (userColor : string) (h : Heap) :
  exists g t o f h1 h2 h3 h4,
    runGameAnalysis parsedGame userColor
      {| chess := ChessJs.newChess; chessEngine := chessEngine h |} = (Normal g, h1)
    /\ runTacticsAnalysis parsedGame userColor h1 = (Normal t, h2)
    /\ runOpeningsAnalysis parsedGame userColor h2 = (Normal o, h3)
    /\ runFundamentalsAnalysis parsedGame userColor h3 = (Normal f, h4)
    /\ fallbackAnalysis parsedGame userColor h
       = (Normal {| AnalysisBundle.game := Typed g;
                    AnalysisBundle.tactics := Typed t;
                    AnalysisBundle.openings := Typed o;
                    AnalysisBundle.fundamentals := Typed f |}, h4)
    /\ GameAnalysisResult.outcome g = Spec.outcomeFor (Pgn.result parsedGame) userColor.
Proof.
  unfold fallbackAnalysis.
  rewrite (bind_Normal _ _ _ _ _
             (eq_refl : modify (fun h => {| chess := ChessJs.newChess;
                                            chessEngine := chessEngine h |}) h
                        = (Normal tt, {| chess := ChessJs.newChess;
                                         chessEngine := chessEngine h |}))).
  destruct (runGameAnalysis_run parsedGame userColor
              {| chess := ChessJs.newChess; chessEngine := chessEngine h |})
    as (g & h1 & v & Hg & _ & Hgv).
  rewrite (bind_Normal _ _ _ _ _ Hg).
  destruct (runTacticsAnalysis_total parsedGame userColor h1) as (t & h2 & Ht).
  rewrite (bind_Normal _ _ _ _ _ Ht).
  destruct (runOpeningsAnalysis_total parsedGame userColor h2) as (o & h3 & Ho).
  rewrite (bind_Normal _ _ _ _ _ Ho).
  destruct (runFundamentalsAnalysis_run parsedGame userColor h3) as (f & h4 & Hf & _).
  rewrite (bind_Normal _ _ _ _ _ Hf).
  exists g, t, o, f, h1, h2, h3, h4.
  split; [exact Hg|]. split; [exact Ht|]. split; [exact Ho|]. split; [exact Hf|].
  split; [reflexivity|].
  rewrite Hgv. reflexivity.
Qed.

End OrchestratorFacts.

(** C1 (amended). [analyzePgn] always returns normally, with a bundle of
    four results.  The remote analysis is made of four requests, one for
    each pipeline, all for the game information drawn from the PGN.  When
    no API key is configured, or one of the four requests rejects or is
    not settled in time, the four results are those of the heuristic
    pipelines: the game analysis, the tactics analysis, the openings
    analysis and the fundamentals analysis of the parsed game for the
    colour of the user, run in this order on one new board; every field of
    each declared shape is then present, the outcome is the one the Result
    header gives, and for the empty PGN it is Unknown.  When a key is
    configured and the four requests resolve in time, the bundle is made
    of the four parsed replies as they came. *)
Theorem analyzePgn_resolves {E : ChessJs.Engine}
  (openRouterApiKey : string) (callOpenRouterAPI : GameInfo.t -> string -> option Json)
  (pgn username : string) (h : Heap) :
  let parsedGame := Pgn.parsePgn pgn in
  let userColor := determineUserColor parsedGame username in
  let text field default :=
    match field with
    | Some (String c s) => String c s
    | _ => default
    end in
  let gameInfo :=
    {| GameInfo.pgn := pgn;
       GameInfo.white := text (Pgn.white parsedGame) "Unknown";
       GameInfo.black := text (Pgn.black parsedGame) "Unknown";
       GameInfo.result := text (Pgn.result parsedGame) "*";
       GameInfo.event := text (Pgn.event parsedGame) "Unknown event";
       GameInfo.date := text (Pgn.date parsedGame) "Unknown date";
       GameInfo.opening := text (Pgn.opening parsedGame) "Unknown opening";
       GameInfo.eco := text (Pgn.eco parsedGame) EmptyString;
       GameInfo.moveCount := length (Pgn.moves parsedGame);
       GameInfo.userColor := userColor |} in
  let reply pipeline := callOpenRouterAPI gameInfo pipeline in
  exists b h',
    analyzePgn openRouterApiKey callOpenRouterAPI pgn username h = (Normal b, h')
    /\ (openRouterApiKey = EmptyString
        \/ reply "gameAnalysis" = None \/ reply "tacticsAnalysis" = None
        \/ reply "openingsAnalysis" = None \/ reply "fundamentalsAnalysis" = None ->
        (exists g t o f h1 h2 h3,
            runGameAnalysis parsedGame userColor
              {| chess := ChessJs.newChess; chessEngine := chessEngine h |}
            = (Normal g, h1)
            /\ runTacticsAnalysis parsedGame userColor h1 = (Normal t, h2)
            /\ runOpeningsAnalysis parsedGame userColor h2 = (Normal o, h3)
            /\ runFundamentalsAnalysis parsedGame userColor h3 = (Normal f, h')
            /\ b = {| AnalysisBundle.game := Typed g;
                      AnalysisBundle.tactics := Typed t;
                      AnalysisBundle.openings := Typed o;
                      AnalysisBundle.fundamentals := Typed f |})
        /\ Spec.fullyShaped b = true
        /\ Spec.outcomeOf b = Some (Spec.outcomeFor (Pgn.result parsedGame) userColor)
        /\ (pgn = EmptyString -> Spec.outcomeOf b = Some "Unknown"))
    /\ (openRouterApiKey <> EmptyString ->
        forall j1 j2 j3 j4,
          reply "gameAnalysis" = Some j1 -> reply "tacticsAnalysis" = Some j2 ->
          reply "openingsAnalysis" = Some j3 -> reply "fundamentalsAnalysis" = Some j4 ->
          b = {| AnalysisBundle.game := Cast j1;
                 AnalysisBundle.tactics := Cast j2;
                 AnalysisBundle.openings := Cast j3;
                 AnalysisBundle.fundamentals := Cast j4 |}).
Proof.
  cbv zeta. unfold analyzePgn.
  set (parsedGame := Pgn.parsePgn pgn).
  set (userColor := determineUserColor parsedGame username).
  match goal with
  | |- context [callOpenRouterAPI ?gi "gameAnalysis"] => set (gameInfo := gi)
  end.
  assert (Hinfo : gameInfoOf pgn parsedGame userColor = gameInfo).
  { unfold gameInfoOf, gameInfo, Pgn.orElse. f_equal;
      match goal with
      | |- context [match ?x with _ => _ end] => destruct x as [[|? ?]|]; reflexivity
      end. }
  destruct (fallbackAnalysis_run parsedGame userColor h)
    as (g & t & o & f & h1 & h2 & h3 & h' & Hg & Ht & Ho & Hf & Hfb & Hout).
  assert (Hfallback :
    let b := {| AnalysisBundle.game := Typed g; AnalysisBundle.tactics := Typed t;
                AnalysisBundle.openings := Typed o;
                AnalysisBundle.fundamentals := Typed f |} in
    (exists g0 t0 o0 f0 h10 h20 h30,
        runGameAnalysis parsedGame userColor
          {| chess := ChessJs.newChess; chessEngine := chessEngine h |}
        = (Normal g0, h10)
        /\ runTacticsAnalysis parsedGame userColor h10 = (Normal t0, h20)
        /\ runOpeningsAnalysis parsedGame userColor h20 = (Normal o0, h30)
        /\ runFundamentalsAnalysis parsedGame userColor h30 = (Normal f0, h')
        /\ b = {| AnalysisBundle.game := Typed g0; AnalysisBundle.tactics := Typed t0;
                  AnalysisBundle.openings := Typed o0;
                  AnalysisBundle.fundamentals := Typed f0 |})
    /\ Spec.fullyShaped b = true
    /\ Spec.outcomeOf b = Some (Spec.outcomeFor (Pgn.result parsedGame) userColor)
    /\ (pgn = EmptyString -> Spec.outcomeOf b = Some "Unknown")).
  { cbv zeta. split; [exists g, t, o, f, h1, h2, h3; repeat split; assumption|].
    split; [reflexivity|].
    assert (Hoc : Spec.outcomeOf
          {| AnalysisBundle.game := Typed g; AnalysisBundle.tactics := Typed t;
             AnalysisBundle.openings := Typed o; AnalysisBundle.fundamentals := Typed f |}
        = Some (Spec.outcomeFor (Pgn.result parsedGame) userColor))
      by (cbn [Spec.outcomeOf AnalysisBundle.game]; rewrite Hout; reflexivity).
    split; [exact Hoc|].
    intros Hpgn. rewrite Hoc. unfold parsedGame. rewrite Hpgn. reflexivity. }
  cbv zeta in Hfallback.
  unfold bind at 1. unfold tryCatch at 1. cbv zeta.
  fold parsedGame. fold userColor. rewrite Hinfo.
  destruct (JS.isEmpty openRouterApiKey) eqn:Hkey.
  - assert (Hempty : openRouterApiKey = EmptyString)
      by (destruct openRouterApiKey; [reflexivity | discriminate Hkey]).
    unfold promise, await. rewrite Hfb.
    eexists _, h'. split; [reflexivity|]. split; [intros _; exact Hfallback|].
    intros Hne. contradiction.
  - assert (Hne : openRouterApiKey <> EmptyString)
      by (intros ->; discriminate Hkey).
    unfold bind, promise, await, ret. rewrite Hfb. unfold performAIAnalysis.
    destruct (callOpenRouterAPI gameInfo "gameAnalysis") as [j1|];
      [destruct (callOpenRouterAPI gameInfo "tacticsAnalysis") as [j2|];
       [destruct (callOpenRouterAPI gameInfo "openingsAnalysis") as [j3|];
        [destruct (callOpenRouterAPI gameInfo "fundamentalsAnalysis") as [j4|]|]|]|].
    + eexists _, h'. split; [reflexivity|]. split.
      * intros [Hk|[Hn|[Hn|[Hn|Hn]]]]; [contradiction | discriminate Hn ..].
      * intros _ k1 k2 k3 k4 [= <-] [= <-] [= <-] [= <-]. reflexivity.
    + eexists _, h'. split; [reflexivity|]. split; [intros _; exact Hfallback|].
      intros _ k1 k2 k3 k4 _ _ _ Hk. discriminate Hk.
    + eexists _, h'. split; [reflexivity|]. split; [intros _; exact Hfallback|].
      intros _ k1 k2 k3 k4 _ _ Hk. discriminate Hk.
    + eexists _, h'. split; [reflexivity|]. split; [intros _; exact Hfallback|].
      intros _ k1 k2 k3 k4 _ Hk. discriminate Hk.
    + eexists _, h'. split; [reflexivity|]. split; [intros _; exact Hfallback|].
      intros _ k1 k2 k3 k4 Hk. discriminate Hk.
Qed.

Lemma analyzePgn_resolves_witness :
  exists b h' g t o f h1 h2 h3,
    analyzePgn (E := ChessRules.engine) EmptyString (fun _ _ => None)
      EmptyString "someuser" ChessRules.freshHeap = (Normal b, h')
    /\ runGameAnalysis (E := ChessRules.engine) (Pgn.parsePgn EmptyString) "white"
         ChessRules.freshHeap = (Normal g, h1)
    /\ runTacticsAnalysis (E := ChessRules.engine) (Pgn.parsePgn EmptyString) "white" h1
       = (Normal t, h2)
    /\ runOpeningsAnalysis (E := ChessRules.engine) (Pgn.parsePgn EmptyString) "white" h2
       = (Normal o, h3)
    /\ runFundamentalsAnalysis (E := ChessRules.engine) (Pgn.parsePgn EmptyString) "white" h3
       = (Normal f, h')
    /\ b = {| AnalysisBundle.game := Typed g; AnalysisBundle.tactics := Typed t;
              AnalysisBundle.openings := Typed o; AnalysisBundle.fundamentals := Typed f |}
    /\ Spec.fullyShaped b = true
    /\ Spec.outcomeOf b = Some "Unknown".
Proof.
  destruct (analyzePgn_resolves (E := ChessRules.engine) EmptyString (fun _ _ => None)
              EmptyString "someuser" ChessRules.freshHeap)
    as (b & h' & Hrun & Hfallback & _).
  destruct (Hfallback (or_introl eq_refl))
    as ((g & t & o & f & h1 & h2 & h3 & Hg & Ht & Ho & Hf & Hb) & Hshape & _ & Hempty).
  exists b, h', g, t, o, f, h1, h2, h3.
  split; [exact Hrun|]. split; [exact Hg|]. split; [exact Ht|]. split; [exact Ho|].
  split; [exact Hf|]. split; [exact Hb|].
  split; [exact Hshape | exact (Hempty eq_refl)].
Defined.

(** C1 as stated fails: with an API key configured and a remote model that
    answers each of the four requests with the empty JSON object,
    [analyzePgn] on the empty PGN returns these four objects, in which no
    field of the declared shapes is present. *)
Lemma analyzePgn_unvalidated_reply :
  ~ (forall (E : ChessJs.Engine) (openRouterApiKey : string)
            (callOpenRouterAPI : GameInfo.t -> string -> option Json)
            (pgn username : string) (h : Heap),
        exists b h',
          analyzePgn openRouterApiKey callOpenRouterAPI pgn username h = (Normal b, h')
          /\ Spec.fullyShaped b = true
          /\ (pgn = EmptyString -> Spec.outcomeOf b = Some "Unknown")).
Proof.
  intros H.
  destruct (H ChessRules.engine "sk-or-v1-key" (fun _ _ => Some (JObject []))
              EmptyString "someuser" ChessRules.freshHeap)
    as (b & h' & Hrun & Hshape & _).
  assert (Hb :
    fst (analyzePgn (E := ChessRules.engine) "sk-or-v1-key"
           (fun _ _ => Some (JObject [])) EmptyString "someuser" ChessRules.freshHeap)
    = Normal {| AnalysisBundle.game := Cast (JObject []);
                AnalysisBundle.tactics := Cast (JObject []);
                AnalysisBundle.openings := Cast (JObject []);
                AnalysisBundle.fundamentals := Cast (JObject []) |})
    by (vm_compute; reflexivity).
  rewrite Hrun in Hb. cbn [fst] in Hb. injection Hb as ->.
  vm_compute in Hshape. discriminate.
Qed.

(* ===================================================================== *)
(** * Further properties of the parser, the analysis, the storage and the client *)
(* ===================================================================== *)

Section StringFacts.

Lemma append_assoc (a b c : string) : (a ++ b) ++ c = a ++ (b ++ c).
Proof. induction a as [|x a IH]; cbn [append]; [reflexivity | rewrite IH; reflexivity]. Qed.

Lemma append_nil_r (a : string) : a ++ EmptyString = a.
Proof. induction a as [|x a IH]; cbn [append]; [reflexivity | rewrite IH; reflexivity]. Qed.

Lemma length_append (a b : string) :
  String.length (a ++ b) = (String.length a + String.length b)%nat.
Proof. induction a as [|x a IH]; cbn [append String.length]; [reflexivity | rewrite IH; reflexivity]. Qed.

Lemma any_app (p : ascii -> bool) (a b : string) :
  JS.any p (a ++ b) = JS.any p a || JS.any p b.
Proof.
  induction a as [|c a IH]; cbn [append JS.any]; [reflexivity|].
  rewrite IH. apply orb_assoc.
Qed.

Lemma all_app (p : ascii -> bool) (a b : string) :
  JS.all p (a ++ b) = JS.all p a && JS.all p b.
Proof.
  induction a as [|c a IH]; cbn [append JS.all]; [reflexivity|].
  rewrite IH. apply andb_assoc.
Qed.

Lemma any_trimStart (p : ascii -> bool) (s : string) :
  JS.any p s = false -> JS.any p (JS.trimStart s) = false.
Proof.
  induction s as [|c r IH]; cbn [JS.trimStart]; [reflexivity|].
  intros H. destruct (JS.isWhiteSpace c); [|exact H].
  cbn [JS.any] in H. apply orb_false_iff in H. apply IH, H.
Qed.

Lemma any_trimEnd (p : ascii -> bool) (s : string) :
  JS.any p s = false -> JS.any p (JS.trimEnd s) = false.
Proof.
  induction s as [|c r IH]; cbn [JS.trimEnd]; [reflexivity|].
  intros H. destruct (JS.all JS.isWhiteSpace (String c r)); [reflexivity|].
  cbn [JS.any] in *. apply orb_false_iff in H. destruct H as [Hc Hr].
  rewrite Hc. apply IH, Hr.
Qed.

Lemma any_trim (p : ascii -> bool) (s : string) :
  JS.any p s = false -> JS.any p (JS.trim s) = false.
Proof. intros H. unfold JS.trim. apply any_trimEnd, any_trimStart, H. Qed.

(** Induction two characters at a time, as [replaceCRLF] recurses. *)
Lemma string_pair_ind (P : string -> Prop) :
  P EmptyString ->
  (forall c, P (String c EmptyString)) ->
  (forall c d r, P r -> P (String d r) -> P (String c (String d r))) ->
  forall s, P s.
Proof.
  intros H0 H1 H2 s.
  assert (H : P s /\ forall c, P (String c s)).
  { induction s as [|d r [IHr IHdr]].
    - split; [exact H0 | exact H1].
    - split; [apply IHdr|]. intros c. apply H2; [exact IHr | apply IHdr]. }
  apply H.
Qed.

Lemma any_replaceCRLF (p : ascii -> bool) (s : string) :
  JS.any p s = false -> JS.any p (JS.replaceCRLF s) = false.
Proof.
  induction s as [|c|c d r IHr IHdr] using string_pair_ind; intros H;
    cbn [JS.replaceCRLF]; try exact H.
  cbn [JS.any] in H. apply orb_false_iff in H. destruct H as [Hc H].
  destruct (Ascii.eqb c JS.CR && Ascii.eqb d JS.LF) eqn:Hcd.
  - apply andb_true_iff in Hcd. destruct Hcd as [_ Hd'].
    apply Ascii.eqb_eq in Hd'. subst d.
    pose proof H as Hd. cbn [JS.any] in Hd. apply orb_false_iff in Hd.
    destruct Hd as [Hd Hr]. cbn [JS.any]. rewrite Hd. apply IHr, Hr.
  - cbn [JS.any]. rewrite Hc. apply IHdr. exact H.
Qed.

Lemma replaceCRLF_noCR (s : string) :
  JS.any (fun c => Ascii.eqb c JS.CR) s = false -> JS.replaceCRLF s = s.
Proof.
  induction s as [|c|c d r IHr IHdr] using string_pair_ind; intros H;
    cbn [JS.replaceCRLF]; try reflexivity.
  cbn [JS.any] in H. apply orb_false_iff in H. destruct H as [Hc H].
  rewrite Hc. cbn [andb]. f_equal. apply IHdr, H.
Qed.

Lemma trimStart_blank (s : string) :
  JS.all JS.isWhiteSpace s = true -> JS.trimStart s = EmptyString.
Proof.
  induction s as [|c r IH]; cbn [JS.trimStart JS.all]; [reflexivity|].
  intros H. apply andb_true_iff in H. destruct H as [-> Hr]. apply IH, Hr.
Qed.

Lemma trimStart_app_nonws (a : string) (c : ascii) (b : string) :
  JS.isWhiteSpace c = false ->
  JS.trimStart (a ++ String c b) = JS.trimStart a ++ String c b.
Proof.
  intros Hc. induction a as [|x a IH]; cbn [append JS.trimStart].
  - rewrite Hc. reflexivity.
  - destruct (JS.isWhiteSpace x); [exact IH | reflexivity].
Qed.

Lemma trimEnd_app_nonws (a : string) (c : ascii) (b : string) :
  JS.isWhiteSpace c = false ->
  JS.trimEnd (a ++ String c b) = a ++ JS.trimEnd (String c b).
Proof.
  intros Hc. induction a as [|x a IH]; [reflexivity|].
  cbn [append]. cbn [JS.trimEnd]. fold (append a (String c b)).
  replace (JS.all JS.isWhiteSpace (String x (a ++ String c b))) with false.
  - rewrite IH. reflexivity.
  - symmetry. cbn [JS.all]. rewrite all_app. cbn [JS.all]. rewrite Hc.
    rewrite andb_false_r, andb_false_r. reflexivity.
Qed.

Lemma trimEnd_cons_nonws (c : ascii) (b : string) :
  JS.isWhiteSpace c = false -> JS.trimEnd (String c b) = String c (JS.trimEnd b).
Proof. intros Hc. cbn [JS.trimEnd JS.all]. rewrite Hc. reflexivity. Qed.

Lemma trimEnd_blank (s : string) :
  JS.all JS.isWhiteSpace s = true -> JS.trimEnd s = EmptyString.
Proof. destruct s as [|c r]; [reflexivity|]. cbn [JS.trimEnd]. intros ->. reflexivity. Qed.

Lemma trimStart_trimEnd (s : string) :
  JS.trimStart (JS.trimEnd s) = JS.trimEnd (JS.trimStart s).
Proof.
  induction s as [|c r IH]; [reflexivity|].
  destruct (JS.isWhiteSpace c) eqn:Hc.
  - cbn [JS.trimStart]. rewrite Hc. cbn [JS.trimEnd JS.all]. rewrite Hc. cbn [andb].
    destruct (JS.all JS.isWhiteSpace r) eqn:Hr.
    + rewrite (trimStart_blank r Hr). reflexivity.
    + cbn [JS.trimStart]. rewrite Hc. exact IH.
  - rewrite (trimEnd_cons_nonws c r Hc). cbn [JS.trimStart]. rewrite Hc.
    rewrite (trimEnd_cons_nonws c r Hc). reflexivity.
Qed.

Lemma all_trimEnd (p : ascii -> bool) (s : string) :
  JS.all p s = true -> JS.all p (JS.trimEnd s) = true.
Proof.
  induction s as [|c r IH]; [reflexivity|]. intros H.
  cbn [JS.trimEnd]. destruct (JS.all JS.isWhiteSpace (String c r)); [reflexivity|].
  cbn [JS.all] in *. apply andb_true_iff in H. destruct H as [-> Hr]. apply IH, Hr.
Qed.

Lemma trimEnd_idem (s : string) : JS.trimEnd (JS.trimEnd s) = JS.trimEnd s.
Proof.
  induction s as [|c r IH]; [reflexivity|].
  cbn [JS.trimEnd]. destruct (JS.all JS.isWhiteSpace (String c r)) eqn:Hall; [reflexivity|].
  cbn [JS.trimEnd]. rewrite IH.
  replace (JS.all JS.isWhiteSpace (String c (JS.trimEnd r))) with false; [reflexivity|].
  symmetry. cbn [JS.all] in *. destruct (JS.isWhiteSpace c); [|reflexivity]. cbn [andb] in *.
  clear IH. induction r as [|d r IHr]; [discriminate|].
  cbn [JS.trimEnd]. rewrite Hall. cbn [JS.all] in *.
  destruct (JS.isWhiteSpace d); [|reflexivity]. cbn [andb] in *. apply IHr, Hall.
Qed.

Lemma trim_trimEnd (s : string) : JS.trim (JS.trimEnd s) = JS.trim s.
Proof. unfold JS.trim. rewrite trimStart_trimEnd, trimEnd_idem. reflexivity. Qed.

Lemma trim_cons_ws (c : ascii) (s : string) :
  JS.isWhiteSpace c = true -> JS.trim (String c s) = JS.trim s.
Proof. intros Hc. unfold JS.trim. cbn [JS.trimStart]. rewrite Hc. reflexivity. Qed.

Lemma lastIndexFrom_absent (c : ascii) (s : string) : forall i found,
  JS.any (Ascii.eqb c) s = false -> JS.lastIndexFrom c s i found = found.
Proof.
  induction s as [|d r IH]; intros i found H; cbn [JS.lastIndexFrom]; [reflexivity|].
  cbn [JS.any] in H. apply orb_false_iff in H. destruct H as [Hd Hr].
  rewrite Ascii.eqb_sym, Hd. apply IH, Hr.
Qed.

Lemma lastIndexFrom_last (c : ascii) (a b : string) : forall i found,
  JS.any (Ascii.eqb c) b = false ->
  JS.lastIndexFrom c (a ++ String c b) i found = (i + Z.of_nat (String.length a))%Z.
Proof.
  induction a as [|x a IH]; intros i found Hb; cbn [append JS.lastIndexFrom String.length].
  - rewrite Ascii.eqb_refl. rewrite (lastIndexFrom_absent c b _ _ Hb). lia.
  - rewrite IH by exact Hb. lia.
Qed.

Lemma lastIndexOf_absent (c : ascii) (s : string) :
  JS.any (Ascii.eqb c) s = false -> JS.lastIndexOf c s = (-1)%Z.
Proof. apply lastIndexFrom_absent. Qed.

Lemma lastIndexOf_last (c : ascii) (a b : string) :
  JS.any (Ascii.eqb c) b = false ->
  JS.lastIndexOf c (a ++ String c b) = Z.of_nat (String.length a).
Proof. intros Hb. unfold JS.lastIndexOf. rewrite (lastIndexFrom_last c a b 0 (-1) Hb). lia. Qed.

Lemma substring_app (a b : string) : JS.substring (String.length a) (a ++ b) = b.
Proof. induction a as [|x a IH]; [destruct b; reflexivity | exact IH]. Qed.

End StringFacts.

Section ParserMore.

Lemma replaceCRLF_cons2 (c d : ascii) (r : string) :
  JS.replaceCRLF (String c (String d r))
  = if Ascii.eqb c JS.CR && Ascii.eqb d JS.LF
    then String JS.LF (JS.replaceCRLF r)
    else String c (JS.replaceCRLF (String d r)).
Proof. reflexivity. Qed.

Lemma replaceCRLF_app_char (a : string) (c : ascii) (b : string) :
  Ascii.eqb c JS.CR = false -> Ascii.eqb c JS.LF = false ->
  JS.replaceCRLF (a ++ String c b) = JS.replaceCRLF a ++ String c (JS.replaceCRLF b).
Proof.
  intros Hcr Hlf.
  assert (H0 : JS.replaceCRLF (String c b) = String c (JS.replaceCRLF b)).
  { destruct b as [|d r]; [reflexivity|]. rewrite replaceCRLF_cons2, Hcr. reflexivity. }
  induction a as [|x|x d r IHr IHdr] using string_pair_ind.
  - exact H0.
  - change (String x EmptyString ++ String c b) with (String x (String c b)).
    rewrite replaceCRLF_cons2, Hlf, andb_false_r, H0. reflexivity.
  - change (String x (String d r) ++ String c b)
      with (String x (String d (r ++ String c b))).
    rewrite !replaceCRLF_cons2.
    destruct (Ascii.eqb x JS.CR && Ascii.eqb d JS.LF).
    + rewrite IHr. reflexivity.
    + change (String d (r ++ String c b)) with (String d r ++ String c b).
      rewrite IHdr. reflexivity.
Qed.

Lemma matchHeader_no_bracket (c : ascii) (r : string) :
  Ascii.eqb "[" c = false -> Pgn.matchHeader (String c r) = None.
Proof.
  intros H.
  destruct c as [[|] [|] [|] [|] [|] [|] [|] [|]]; try reflexivity; discriminate H.
Qed.

Lemma execHeaders_no_bracket (s : string) (g : Pgn.ChessGame) :
  JS.any (Ascii.eqb "[") s = false -> Pgn.execHeaders 0 s g = g.
Proof.
  induction s as [|c r IH]; intros H; cbn [Pgn.execHeaders]; [reflexivity|].
  cbn [JS.any] in H. apply orb_false_iff in H. destruct H as [Hc Hr].
  rewrite (matchHeader_no_bracket c r Hc). apply IH, Hr.
Qed.

(** The move list [parseMoves] makes of a text. *)
Lemma parseMoves_eq (text : string) (g : Pgn.ChessGame) :
  Pgn.parseMoves text g
  = Pgn.pushMoves (Pgn.moves (Pgn.parseMoves text (Pgn.emptyGame EmptyString))) g.
Proof. reflexivity. Qed.

Lemma parsePgn_eq (pgn : string) :
  let cleanPgn := JS.trim (JS.replaceCRLF pgn) in
  Pgn.parsePgn pgn
  = Pgn.parseMoves
      (if (JS.lastIndexOf "]" cleanPgn =? -1)%Z then cleanPgn
       else JS.trim (JS.substring (Z.to_nat (JS.lastIndexOf "]" cleanPgn + 1)) cleanPgn))
      (Pgn.execHeaders 0 cleanPgn (Pgn.emptyGame cleanPgn)).
Proof.
  cbv zeta. unfold Pgn.parsePgn. cbv zeta.
  destruct (JS.lastIndexOf "]" (JS.trim (JS.replaceCRLF pgn)) =? -1)%Z; reflexivity.
Qed.

Lemma trim_around_bracket (a b : string) :
  JS.trim (a ++ String "]" b) = JS.trimStart a ++ String "]" (JS.trimEnd b).
Proof.
  unfold JS.trim.
  rewrite (trimStart_app_nonws a "]" b eq_refl).
  rewrite (trimEnd_app_nonws (JS.trimStart a) "]" b eq_refl).
  rewrite (trimEnd_cons_nonws "]" b eq_refl). reflexivity.
Qed.

Lemma moveText_after_bracket (a b : string) :
  JS.any (Ascii.eqb "]") b = false ->
  let cleanPgn := a ++ String "]" b in
  (JS.lastIndexOf "]" cleanPgn =? -1)%Z = false
  /\ JS.substring (Z.to_nat (JS.lastIndexOf "]" cleanPgn + 1)) cleanPgn = b.
Proof.
  intros Hb. cbv zeta. rewrite (lastIndexOf_last "]" a b Hb). split.
  - apply Z.eqb_neq. lia.
  - replace (Z.to_nat (Z.of_nat (String.length a) + 1))
      with (String.length (a ++ String "]" EmptyString)).
    + replace (a ++ String "]" b) with ((a ++ String "]" EmptyString) ++ b).
      * apply substring_app.
      * rewrite append_assoc. reflexivity.
    + rewrite length_append. cbn [String.length]. lia.
Qed.

End ParserMore.

(** X1. The move list depends on the text after the last closing bracket
    only: whatever stands before it, moves included, is not read as move
    text. *)
Theorem parsePgn_moves_after_last_bracket (s t : string) :
  JS.any (Ascii.eqb "]") t = false ->
  Pgn.moves (Pgn.parsePgn (s ++ String "]" t)) = Pgn.moves (Pgn.parsePgn t).
Proof.
  intros Ht.
  assert (HB : JS.any (Ascii.eqb "]") (JS.replaceCRLF t) = false)
    by (apply any_replaceCRLF, Ht).
  rewrite !parsePgn_eq. cbv zeta.
  rewrite (parseMoves_eq _ (Pgn.execHeaders _ _ _)).
  rewrite (parseMoves_eq _ (Pgn.execHeaders 0 (JS.trim (JS.replaceCRLF t)) _)).
  cbn [Pgn.pushMoves Pgn.moves]. rewrite !execHeaders_moves. cbn [Pgn.emptyGame Pgn.moves app].
  rewrite (replaceCRLF_app_char s "]" t eq_refl eq_refl).
  rewrite trim_around_bracket.
  destruct (moveText_after_bracket (JS.trimStart (JS.replaceCRLF s))
              (JS.trimEnd (JS.replaceCRLF t)) (any_trimEnd _ _ HB)) as [-> ->].
  rewrite trim_trimEnd.
  rewrite (lastIndexOf_absent "]" (JS.trim (JS.replaceCRLF t)) (any_trim _ _ HB)).
  reflexivity.
Qed.

Lemma parsePgn_moves_after_last_bracket_witness :
  JS.any (Ascii.eqb "]") " } e5 2. Nf3" = false
  /\ Pgn.moves (Pgn.parsePgn "1. e4 { [%clk 0:03:00] } e5 2. Nf3")
     = Pgn.moves (Pgn.parsePgn " } e5 2. Nf3").
Proof.
  split; [reflexivity|].
  exact (parsePgn_moves_after_last_bracket "1. e4 { [%clk 0:03:00" " } e5 2. Nf3" eq_refl).
Defined.


Section TagPairs.

Lemma parseMoves_fields (text : string) (g : Pgn.ChessGame) :
  Pgn.event (Pgn.parseMoves text g) = Pgn.event g
  /\ Pgn.site (Pgn.parseMoves text g) = Pgn.site g
  /\ Pgn.date (Pgn.parseMoves text g) = Pgn.date g
  /\ Pgn.white (Pgn.parseMoves text g) = Pgn.white g
  /\ Pgn.black (Pgn.parseMoves text g) = Pgn.black g
  /\ Pgn.result (Pgn.parseMoves text g) = Pgn.result g
  /\ Pgn.timeControl (Pgn.parseMoves text g) = Pgn.timeControl g
  /\ Pgn.eco (Pgn.parseMoves text g) = Pgn.eco g
  /\ Pgn.opening (Pgn.parseMoves text g) = Pgn.opening g
  /\ Pgn.fen (Pgn.parseMoves text g) = Pgn.fen g.
Proof. repeat split. Qed.

Lemma span_all (p : ascii -> bool) (a b : string) :
  JS.all p a = true ->
  match b with EmptyString => True | String c _ => p c = false end ->
  JS.span p (a ++ b) = (a, b).
Proof.
  intros Ha Hb. induction a as [|x a IH]; cbn [append].
  - destruct b as [|c r]; [reflexivity|]. cbn [JS.span]. rewrite Hb. reflexivity.
  - cbn [JS.all] in Ha. apply andb_true_iff in Ha. destruct Ha as [Hx Ha].
    cbn [JS.span]. rewrite Hx, (IH Ha). reflexivity.
Qed.

Lemma header_eq (key value rest : string) :
  header key value ++ rest
  = String "[" (key ++ String " " (String JS.quote (value ++ String JS.quote (String "]" rest)))).
Proof.
  unfold header. cbn [append]. f_equal.
  rewrite append_assoc. f_equal. cbn [append]. f_equal. f_equal.
  rewrite append_assoc. reflexivity.
Qed.

Lemma header_length (key value : string) :
  String.length (header key value)
  = (String.length key + 1 + String.length value + 4)%nat.
Proof.
  rewrite <- (append_nil_r (header key value)), header_eq.
  cbn [String.length]. rewrite length_append. cbn [String.length].
  rewrite length_append. cbn [String.length]. lia.
Qed.

Lemma matchHeader_header (key value rest : string) :
  Props.isKey key = true ->
  JS.all (fun c => negb (Ascii.eqb c JS.quote)) value = true ->
  Pgn.matchHeader (header key value ++ rest)
  = Some (key, value, String.length (header key value)).
Proof.
  intros Hk Hv. unfold Props.isKey in Hk. apply andb_true_iff in Hk.
  destruct Hk as [Hne Hword].
  rewrite header_eq, header_length. unfold Pgn.matchHeader.
  rewrite (span_all JS.isWordChar key) by (try exact Hword; reflexivity).
  match goal with
  | |- context [JS.span JS.isWhiteSpace (String " " ?r)] =>
      change (JS.span JS.isWhiteSpace (String " " r)) with (String " " EmptyString, r)
  end.
  destruct (JS.isEmpty key); [discriminate|]. cbn [negb orb JS.isEmpty].
  change (Ascii.eqb JS.quote JS.quote) with true. cbv iota.
  rewrite (span_all (fun c => negb (Ascii.eqb c JS.quote)) value)
    by (try exact Hv; reflexivity).
  change (Ascii.eqb JS.quote JS.quote) with true. reflexivity.
Qed.

Lemma execHeaders_skip (a rest : string) (g : Pgn.ChessGame) :
  Pgn.execHeaders (String.length a) (a ++ rest) g = Pgn.execHeaders 0 rest g.
Proof.
  induction a as [|x a IH]; [reflexivity|]. exact IH.
Qed.

Lemma execHeaders_header (key value rest : string) (g : Pgn.ChessGame) :
  Props.isKey key = true ->
  JS.all (fun c => negb (Ascii.eqb c JS.quote)) value = true ->
  Pgn.execHeaders 0 (header key value ++ rest) g
  = Pgn.execHeaders 0 rest (Pgn.setHeader key value g).
Proof.
  intros Hk Hv.
  pose proof (matchHeader_header key value rest Hk Hv) as Hm.
  pose proof (header_length key value) as Hl.
  destruct (header key value) as [|c tail] eqn:Hh; [cbn in Hl; lia|].
  cbn [append] in *. cbn [Pgn.execHeaders]. rewrite Hm.
  cbn [String.length]. rewrite Nat.sub_succ, Nat.sub_0_r.
  apply execHeaders_skip.
Qed.

Lemma isValue_noquote (v : string) :
  Props.isValue v = true -> JS.all (fun c => negb (Ascii.eqb c JS.quote)) v = true.
Proof.
  unfold Props.isValue. induction v as [|c r IH]; [reflexivity|].
  cbn [JS.all]. intros H. apply andb_true_iff in H. destruct H as [Hc Hr].
  apply andb_true_iff in Hc. destruct Hc as [-> _]. apply IH, Hr.
Qed.

Lemma execHeaders_block (hs : list (string * string)) : forall (tail : string) g,
  Forall Props.tagPair hs ->
  Pgn.execHeaders 0 (Props.headerBlock hs ++ tail) g
  = Pgn.execHeaders 0 tail (Props.setHeaders hs g).
Proof.
  induction hs as [|[k v] hs IH]; intros tail g Hhs; [reflexivity|].
  inversion Hhs as [|? ? [Hk Hv] Hrest]; subst. cbn [fst snd] in *.
  cbn [Props.headerBlock fst snd]. rewrite append_assoc.
  rewrite (execHeaders_header k v _ g Hk (isValue_noquote v Hv)).
  cbn [append]. cbn [Pgn.execHeaders].
  rewrite (matchHeader_no_bracket JS.LF _ eq_refl).
  rewrite (IH tail _ Hrest). reflexivity.
Qed.

End TagPairs.


Section TagPairsMore.

Lemma all_any (p q : ascii -> bool) (s : string) :
  (forall c, p c = true -> q c = false) ->
  JS.all p s = true -> JS.any q s = false.
Proof.
  intros Hpq. induction s as [|c r IH]; [reflexivity|].
  cbn [JS.all JS.any]. intros H. apply andb_true_iff in H. destruct H as [Hc Hr].
  rewrite (Hpq c Hc), (IH Hr). reflexivity.
Qed.

Lemma body_no_open (body : string) :
  Props.isBody body = true -> JS.any (Ascii.eqb "[") body = false.
Proof.
  apply all_any. intros c H. rewrite Ascii.eqb_sym.
  destruct (Ascii.eqb c "["); [discriminate H | reflexivity].
Qed.

Lemma body_no_close (body : string) :
  Props.isBody body = true -> JS.any (Ascii.eqb "]") body = false.
Proof.
  apply all_any. intros c H. rewrite Ascii.eqb_sym.
  destruct (Ascii.eqb c "]"); [|reflexivity].
  rewrite andb_false_r in H. discriminate H.
Qed.

Lemma body_no_CR (body : string) :
  Props.isBody body = true -> JS.any (fun c => Ascii.eqb c JS.CR) body = false.
Proof.
  apply all_any. intros c H.
  destruct (Ascii.eqb c JS.CR); [|reflexivity].
  rewrite andb_false_r in H. discriminate H.
Qed.

Lemma key_no_CR (k : string) :
  Props.isKey k = true -> JS.any (fun c => Ascii.eqb c JS.CR) k = false.
Proof.
  unfold Props.isKey. intros H. apply andb_true_iff in H. destruct H as [_ H].
  revert H. apply all_any. intros c Hc.
  destruct (Ascii.eqb c JS.CR) eqn:E; [|reflexivity].
  apply Ascii.eqb_eq in E. subst c. discriminate Hc.
Qed.

Lemma value_no_CR (v : string) :
  Props.isValue v = true -> JS.any (fun c => Ascii.eqb c JS.CR) v = false.
Proof.
  apply all_any. intros c H.
  destruct (Ascii.eqb c JS.CR); [|reflexivity].
  rewrite andb_false_r in H. discriminate H.
Qed.

Lemma block_no_CR (hs : list (string * string)) (body : string) :
  Forall Props.tagPair hs -> JS.any (fun c => Ascii.eqb c JS.CR) body = false ->
  JS.any (fun c => Ascii.eqb c JS.CR) (Props.headerBlock hs ++ body) = false.
Proof.
  intros Hhs Hb. induction Hhs as [|[k v] hs [Hk Hv] Hrest IH]; [exact Hb|].
  cbn [fst snd] in *. cbn [Props.headerBlock fst snd].
  rewrite append_assoc, header_eq.
  cbn [JS.any]. rewrite any_app. cbn [JS.any]. rewrite any_app. cbn [JS.any append].
  rewrite (key_no_CR k Hk), (value_no_CR v Hv), IH. reflexivity.
Qed.

Lemma header_split (key value rest : string) :
  header key value ++ rest
  = String "[" (key ++ String " " (String JS.quote (value ++ String JS.quote EmptyString)))
    ++ String "]" rest.
Proof.
  rewrite header_eq. cbn [append]. f_equal.
  rewrite append_assoc. f_equal. cbn [append]. f_equal. f_equal.
  rewrite append_assoc. reflexivity.
Qed.

Lemma headerBlock_app (a b : list (string * string)) :
  Props.headerBlock (a ++ b) = Props.headerBlock a ++ Props.headerBlock b.
Proof.
  induction a as [|kv a IH]; [reflexivity|].
  cbn [app Props.headerBlock]. rewrite IH, append_assoc. reflexivity.
Qed.

(** A block of at least one header line ends with a closing bracket and
    a line feed; the headers are read up to that bracket. *)
Lemma block_split (hs : list (string * string)) :
  hs <> [] -> Forall Props.tagPair hs ->
  exists Q,
    JS.trimStart Q = Q
    /\ (forall tail,
          Props.headerBlock hs ++ tail = Q ++ String "]" (String JS.LF tail))
    /\ (forall T g,
          Pgn.execHeaders 0 (Q ++ String "]" T) g
          = Pgn.execHeaders 0 T (Props.setHeaders hs g)).
Proof.
  intros Hne Hhs.
  destruct (exists_last Hne) as (hs' & [k v] & ->).
  apply Forall_app in Hhs. destruct Hhs as [Hhs' Hkv].
  inversion Hkv as [|? ? [Hk Hv] _]; subst. cbn [fst snd] in *.
  exists (Props.headerBlock hs'
          ++ String "[" (k ++ String " "
                           (String JS.quote (v ++ String JS.quote EmptyString)))).
  split; [|split].
  - destruct hs' as [|[k' v'] hs']; [reflexivity|].
    cbn [Props.headerBlock fst snd]. rewrite append_assoc, header_eq. reflexivity.
  - intros tail. rewrite headerBlock_app. cbn [Props.headerBlock fst snd].
    rewrite !append_assoc. f_equal.
    rewrite <- header_split. cbn [append]. reflexivity.
  - intros T g. rewrite append_assoc, <- header_split.
    rewrite (execHeaders_block hs' _ g Hhs').
    rewrite (execHeaders_header k v T _ Hk (isValue_noquote v Hv)).
    unfold Props.setHeaders. rewrite fold_left_app. reflexivity.
Qed.

End TagPairsMore.

(** X2. A text made of header lines, each a tag name of word characters,
    a space and a quoted value without double quote, followed by move
    text without brackets: [parsePgn] stores the tags in order, by the
    rule of its switch, and reads the moves from the move text. *)
Theorem parsePgn_tag_pairs (hs : list (string * string)) (body : string) :
  Forall Props.tagPair hs ->
  Props.isBody body = true ->
  Pgn.parsePgn (Props.headerBlock hs ++ body)
  = Pgn.parseMoves (JS.trim body)
      (Props.setHeaders hs
         (Pgn.emptyGame (JS.trim (Props.headerBlock hs ++ body)))).
Proof.
  intros Hhs Hbody.
  rewrite parsePgn_eq. cbv zeta.
  rewrite (replaceCRLF_noCR _ (block_no_CR hs body Hhs (body_no_CR body Hbody))).
  destruct hs as [|kv hs'].
  - cbn [Props.headerBlock append Props.setHeaders fold_left].
    rewrite (lastIndexOf_absent "]" (JS.trim body)
               (any_trim _ _ (body_no_close body Hbody))).
    rewrite (execHeaders_no_bracket (JS.trim body) _
               (any_trim _ _ (body_no_open body Hbody))).
    reflexivity.
  - destruct (block_split (kv :: hs') (fun H => nil_cons (eq_sym H)) Hhs)
      as (Q & HQ & Htext & Hexec).
    rewrite (Htext body). rewrite trim_around_bracket, HQ.
    assert (Hclose : JS.any (Ascii.eqb "]") (JS.trimEnd (String JS.LF body)) = false)
      by (apply any_trimEnd; exact (body_no_close body Hbody)).
    assert (Hopen : JS.any (Ascii.eqb "[") (JS.trimEnd (String JS.LF body)) = false)
      by (apply any_trimEnd; exact (body_no_open body Hbody)).
    destruct (moveText_after_bracket Q _ Hclose) as [-> ->].
    rewrite trim_trimEnd, (trim_cons_ws JS.LF body eq_refl).
    rewrite Hexec, (execHeaders_no_bracket _ _ Hopen). reflexivity.
Qed.

Lemma parsePgn_tag_pairs_witness :
  let hs := [("Event", "Casual game"); ("White", "Magnus"); ("black", "Hikaru");
             ("Result", "1-0"); ("Round", "3")] in
  let game := Pgn.parsePgn (Props.headerBlock hs ++ String JS.LF "1. e4 e5 2. Nf3 1-0") in
  Pgn.event game = Some "Casual game"
  /\ Pgn.white game = Some "Magnus"
  /\ Pgn.black game = Some "Hikaru"
  /\ Pgn.result game = Some "1-0"
  /\ map Pgn.move (Pgn.moves game) = ["e4"; "e5"; "Nf3"]%list.
Proof.
  cbv zeta. rewrite parsePgn_tag_pairs.
  - repeat split.
  - repeat constructor.
  - reflexivity.
Defined.

(** X3. A text without an opening bracket has no header: [parsePgn]
    leaves the ten header fields undefined, whatever the move text says
    (a result at the end of the move text is cut off, not stored), so
    [extractBasicInfo] answers with its defaults and the user is taken
    to play White. *)
Theorem parsePgn_without_tags (pgn : string) :
  JS.any (Ascii.eqb "[") pgn = false ->
  let game := Pgn.parsePgn pgn in
  (Pgn.event game = None /\ Pgn.site game = None /\ Pgn.date game = None
   /\ Pgn.white game = None /\ Pgn.black game = None /\ Pgn.result game = None
   /\ Pgn.timeControl game = None /\ Pgn.eco game = None
   /\ Pgn.opening game = None /\ Pgn.fen game = None)
  /\ Pgn.extractBasicInfo pgn
     = {| Pgn.info_white := "Unknown"; Pgn.info_black := "Unknown";
          Pgn.info_result := "*"; Pgn.info_date := None;
          Pgn.info_opening := None; Pgn.info_timeControl := None |}
  /\ forall username, determineUserColor game username = "white".
Proof.
  intros Hpgn. cbv zeta.
  assert (Hclean : JS.any (Ascii.eqb "[") (JS.trim (JS.replaceCRLF pgn)) = false)
    by (apply any_trim, any_replaceCRLF, Hpgn).
  assert (Hfields :
    Pgn.event (Pgn.parsePgn pgn) = None /\ Pgn.site (Pgn.parsePgn pgn) = None
    /\ Pgn.date (Pgn.parsePgn pgn) = None /\ Pgn.white (Pgn.parsePgn pgn) = None
    /\ Pgn.black (Pgn.parsePgn pgn) = None /\ Pgn.result (Pgn.parsePgn pgn) = None
    /\ Pgn.timeControl (Pgn.parsePgn pgn) = None /\ Pgn.eco (Pgn.parsePgn pgn) = None
    /\ Pgn.opening (Pgn.parsePgn pgn) = None /\ Pgn.fen (Pgn.parsePgn pgn) = None).
  { rewrite parsePgn_eq. cbv zeta.
    rewrite (execHeaders_no_bracket _ _ Hclean). repeat split. }
  split; [exact Hfields|].
  destruct Hfields as (He & Hs & Hd & Hw & Hb & Hr & Ht & Hec & Ho & Hf).
  split.
  - unfold Pgn.extractBasicInfo. rewrite Hw, Hb, Hr, Hd, Ho, Ht. reflexivity.
  - intros username. unfold determineUserColor. rewrite Hw, Hb. reflexivity.
Qed.

Lemma parsePgn_without_tags_witness :
  Pgn.result (Pgn.parsePgn "1. e4 e5 2. Qh5 Ke7 3. Qxe5# 1-0") = None
  /\ Pgn.info_result (Pgn.extractBasicInfo "1. e4 e5 2. Qh5 Ke7 3. Qxe5# 1-0") = "*".
Proof.
  destruct (parsePgn_without_tags "1. e4 e5 2. Qh5 Ke7 3. Qxe5# 1-0" eq_refl)
    as ((_ & _ & _ & _ & _ & Hr & _) & Hinfo & _).
  split; [exact Hr|]. rewrite Hinfo. reflexivity.
Defined.


(* ===================================================================== *)
(** * The evaluator, further *)
(* ===================================================================== *)

Section MaterialFacts.

Lemma materialOf_fold (b : Board) (l : list (nat * nat)) : forall acc : Z,
  let cnt c t :=
    Z.of_nat
      (length
         (filter (fun sq =>
                    match pieceAt b (fst sq) (snd sq) with
                    | Some piece =>
                        Color_eqb (color piece) c && PieceSymbol_eqb (type piece) t
                    | None => false
                    end) l)) in
  fold_left
    (fun score '(row, col) =>
       match pieceAt b row col with
       | Some piece =>
           let value := match pieceValues (type piece) with
                        | Some v => v
                        | None => 0%Z
                        end in
           (score + (if Color_eqb (color piece) WHITE then value else - value))%Z
       | None => score
       end) l acc
  = (acc + (cnt WHITE PAWN - cnt BLACK PAWN)
         + 3 * (cnt WHITE KNIGHT - cnt BLACK KNIGHT)
         + 3 * (cnt WHITE BISHOP - cnt BLACK BISHOP)
         + 5 * (cnt WHITE ROOK - cnt BLACK ROOK)
         + 9 * (cnt WHITE QUEEN - cnt BLACK QUEEN))%Z.
Proof.
  induction l as [|[row col] l IH]; intros acc; cbv zeta in *.
  - cbn. lia.
  - cbn [fold_left filter fst snd]. rewrite IH.
    destruct (pieceAt b row col) as [[[] []]|]; cbn [color type Color_eqb PieceSymbol_eqb
      andb pieceValues length]; rewrite ?Nat2Z.inj_succ; lia.
Qed.

End MaterialFacts.

(** X4. The evaluation is the material balance seen from White: a pawn
    counts 1, a knight or a bishop 3, a rook 5, a queen 9 and a king
    nothing, White's pieces positively and Black's negatively, whoever
    is to move; it is computed without changing the position. *)
Theorem evaluate_material_balance {E : ChessJs.Engine} (c : ChessJs.Chess) :
  let b := ChessJs.board c in
  evaluate c
  = (Normal (Props.balance b PAWN + 3 * Props.balance b KNIGHT
             + 3 * Props.balance b BISHOP + 5 * Props.balance b ROOK
             + 9 * Props.balance b QUEEN)%Z, c).
Proof.
  cbv zeta. rewrite evaluate_run. f_equal. f_equal.
  unfold materialOf, Props.balance, Props.countPieces.
  pose proof (materialOf_fold (ChessJs.board c) squares 0%Z) as H.
  cbv zeta in H. rewrite H. lia.
Qed.


Section BestMoveFacts.

Context {E : ChessJs.Engine}.

Lemma forOfAcc_invariant {St A B : Type} (P : B -> Prop) (body : B -> A -> M St B) :
  (forall acc x s acc' s', P acc -> body acc x s = (Normal acc', s') -> P acc') ->
  forall l acc s acc' s',
    P acc -> forOfAcc l body acc s = (Normal acc', s') -> P acc'.
Proof.
  intros Hbody. induction l as [|x l IH]; intros acc s acc' s' Hacc Hrun;
    cbn [forOfAcc] in Hrun.
  - unfold ret in Hrun. injection Hrun as <- _. exact Hacc.
  - unfold bind in Hrun. destruct (body acc x s) as [[a1|] s1] eqn:Hb; [|discriminate].
    exact (IH a1 s1 acc' s' (Hbody _ _ _ _ _ Hacc Hb) Hrun).
Qed.

(** One round of the search: the candidate is kept when its value is
    greater. *)
Lemma bestMove_round (bestMove : BestMove.t) (move : Move) (c : ChessJs.Chess)
  (best' : BestMove.t) (c' : ChessJs.Chess) :
  (chess_moveObject move ;;
   e <- evaluate ;;
   let evaluation := Finite (- e) in
   chess_undo ;;
   ret (if Num.gtb evaluation (BestMove.evaluation bestMove)
        then {| BestMove.move := san move; BestMove.evaluation := evaluation |}
        else bestMove)) c = (Normal best', c') ->
  exists z,
    best' = if Num.gtb (Finite z) (BestMove.evaluation bestMove)
            then {| BestMove.move := san move; BestMove.evaluation := Finite z |}
            else bestMove.
Proof.
  unfold bind, chess_moveObject.
  destruct (ChessJs.moveObject c move) as [c1|]; [|discriminate].
  rewrite evaluate_run. generalize (materialOf (ChessJs.board c1)). intros m.
  unfold chess_undo, modify, ret. cbv zeta. intros H.
  injection H as H1 _. exists (- m)%Z. symmetry. exact H1.
Qed.

(** The search over a list of candidates keeps a whole number once it
    has one, and has one after the first candidate. *)
Lemma bestMove_search_finite (l : list Move) : forall (acc : BestMove.t) (c : ChessJs.Chess)
  (best : BestMove.t) (c' : ChessJs.Chess),
  forOfAcc l
    (fun bestMove move =>
       chess_moveObject move ;;
       e <- evaluate ;;
       let evaluation := Finite (- e) in
       chess_undo ;;
       ret (if Num.gtb evaluation (BestMove.evaluation bestMove)
            then {| BestMove.move := san move; BestMove.evaluation := evaluation |}
            else bestMove))
    acc c = (Normal best, c') ->
  BestMove.evaluation acc <> Infinity ->
  (l <> [] \/ exists z, BestMove.evaluation acc = Finite z) ->
  exists z, BestMove.evaluation best = Finite z.
Proof.
  induction l as [|x l IH]; intros acc c best c' Hrun Hinf Hne; cbn [forOfAcc] in Hrun.
  - unfold ret in Hrun. injection Hrun as <- _.
    destruct Hne as [Hne|Hz]; [contradiction | exact Hz].
  - unfold bind at 1 in Hrun.
    match type of Hrun with
    | context [match ?m c with _ => _ end] =>
        destruct (m c) as [[a1|] c1] eqn:Hfirst; [|discriminate]
    end.
    destruct (bestMove_round _ _ _ _ _ Hfirst) as [z Ha1].
    assert (Hfin : exists z1, BestMove.evaluation a1 = Finite z1).
    { subst a1. destruct (BestMove.evaluation acc) as [|y|] eqn:Hy.
      - cbn. eexists. reflexivity.
      - cbn. destruct (y <? z)%Z; [eexists; reflexivity | exists y; exact Hy].
      - contradiction. }
    apply (IH a1 c1 best c' Hrun).
    + destruct Hfin as [z1 ->]. discriminate.
    + right. exact Hfin.
Qed.

End BestMoveFacts.

(** What [getBestMove] returns is a whole number. *)
Lemma getBestMove_whole {E : ChessJs.Engine} (c : ChessJs.Chess) :
  exists best c',
    getBestMove c = (Normal best, c')
    /\ exists z, BestMove.evaluation best = Finite z.
Proof.
  destruct (getBestMove_total c) as (best & c' & Hrun).
  exists best, c'. split; [exact Hrun|].
  unfold getBestMove, tryCatch, bind, gets in Hrun.
  destruct (ChessJs.movesVerbose c) as [|x l] eqn:Hmoves.
  - cbn [length Nat.eqb] in Hrun. unfold ret in Hrun. injection Hrun as <- <-.
    eexists; reflexivity.
  - cbn [length Nat.eqb] in Hrun.
    match type of Hrun with
    | context [forOfAcc (x :: l) ?body ?init c] =>
        destruct (forOfAcc (x :: l) body init c) as [[b1|] c1] eqn:Hloop
    end.
    + injection Hrun as <- <-.
      apply (bestMove_search_finite (x :: l) _ c b1 c1 Hloop); [discriminate|].
      left. discriminate.
    + unfold ret in Hrun. injection Hrun as <- _. eexists. reflexivity.
Qed.

(** X5. [getBestMove] always returns, and the evaluation it returns is a
    whole number: the initial [-Infinity] never comes out, since the
    first candidate replaces it; without a legal move the answer is the
    empty move with evaluation 0, and the position is not touched. *)
Theorem getBestMove_finite {E : ChessJs.Engine} (c : ChessJs.Chess) :
  exists best c',
    getBestMove c = (Normal best, c')
    /\ (exists z, BestMove.evaluation best = Finite z)
    /\ (ChessJs.movesVerbose c = [] ->
        best = {| BestMove.move := EmptyString; BestMove.evaluation := Finite 0 |}
        /\ c' = c).
Proof.
  destruct (getBestMove_total c) as (best & c' & Hrun).
  exists best, c'. split; [exact Hrun|].
  unfold getBestMove, tryCatch, bind, gets in Hrun.
  destruct (ChessJs.movesVerbose c) as [|x l] eqn:Hmoves.
  - cbn [length Nat.eqb] in Hrun. unfold ret in Hrun. injection Hrun as <- <-.
    split; [eexists; reflexivity|]. intros _. split; reflexivity.
  - cbn [length Nat.eqb] in Hrun. split; [|discriminate].
    match type of Hrun with
    | context [forOfAcc (x :: l) ?body ?init c] =>
        destruct (forOfAcc (x :: l) body init c) as [[b1|] c1] eqn:Hloop
    end.
    + injection Hrun as <- <-.
      apply (bestMove_search_finite (x :: l) _ c b1 c1 Hloop); [discriminate|].
      left. discriminate.
    + unfold ret in Hrun. injection Hrun as <- _. eexists. reflexivity.
Qed.


Section WholeEvalDiff.

Context {E : ChessJs.Engine}.

Lemma quality_whole (n : Z) :
  (0 <= n)%Z ->
  Spec.quality (Finite n)
  = if (n =? 0)%Z then excellent
    else if (n =? 1)%Z then inaccuracy
    else if (n =? 2)%Z then mistake
    else blunder.
Proof.
  intros Hn. unfold Spec.quality, Num.gtQ, Num.ltQ, Qle_bool. cbn [Qnum Qden inject_Z].
  destruct (Z.leb_spec (n * 1) (2 * 1)); cbn [negb].
  - destruct (Z.leb_spec (n * 1) (1 * 1)); cbn [negb].
    + destruct (Z.leb_spec (n * 2) (1 * 1)); cbn [negb].
      * destruct (Z.leb_spec (1 * 1) (n * 5)); cbn [negb]; [lia|].
        replace n with 0%Z by lia. reflexivity.
      * replace n with 1%Z by lia. reflexivity.
    + replace n with 2%Z by lia. reflexivity.
  - destruct (Z.eqb_spec n 0); [lia|]. destruct (Z.eqb_spec n 1); [lia|].
    destruct (Z.eqb_spec n 2); [lia | reflexivity].
Qed.

Lemma userTurns_whole (userColor : string) (moves : list Pgn.ChessMove) :
  forall h : Heap, Forall Props.wholeTurn (Spec.userTurns userColor moves h).
Proof.
  induction moves as [|moveInfo rest IH]; intros h; cbn [Spec.userTurns]; [constructor|].
  destruct (Spec.usersTurn (ChessJs.turn (chess h)) userColor).
  - destruct (ChessJs.move (chess h) (Pgn.move moveInfo)) as [c'|].
    + constructor; [|apply IH].
      destruct (getBestMove_whole
                  (Spec.positioned (chessEngine h) (ChessJs.fen (chess h))))
        as (best & e2 & Hbest & [z Hz]).
      unfold Spec.valueOf at 1. rewrite Hbest. cbn [fst]. rewrite Hz.
      generalize (Spec.valueOf 0%Z evaluate
                    (Spec.positioned
                       (snd (Normal best, e2)) (ChessJs.fen c'))).
      intros v. cbn [Spec.distance Props.wholeTurn].
      assert (Hm : (0 <= (if (z <? v)%Z then v - z else z - v))%Z)
        by (destruct (Z.ltb_spec z v); lia).
      eexists. split; [reflexivity|]. split; [exact Hm | exact (quality_whole _ Hm)].
    + constructor; [exact I | constructor].
  - destruct (ChessJs.move (chess h) (Pgn.move moveInfo)) as [c'|]; apply IH.
Qed.

Lemma notable_length (ts : list Spec.UserTurn) :
  length (Spec.notable ts)
  = (Spec.countQuality blunder ts + Spec.countQuality excellent ts)%nat.
Proof.
  unfold Spec.notable, Spec.countQuality.
  induction (Spec.analysed ts) as [|d ds IH]; [reflexivity|].
  cbn [map filter]. destruct (Spec.quality d);
    cbn [Spec.MoveQuality_eqb orb length]; lia.
Qed.

Lemma countQuality_good_whole (ts : list Spec.UserTurn) :
  Forall Props.wholeTurn ts -> Spec.countQuality good ts = 0%nat.
Proof.
  unfold Spec.countQuality. induction 1 as [|t ts Ht _ IH]; [reflexivity|].
  destruct t as [d|]; [|exact IH].
  cbn [Spec.analysed flat_map app filter].
  change (flat_map _ ts) with (Spec.analysed ts).
  destruct Ht as (n & _ & _ & ->).
  destruct (n =? 0)%Z; [exact IH|]. destruct (n =? 1)%Z; [exact IH|].
  destruct (n =? 2)%Z; exact IH.
Qed.

Lemma analysed_le (ts : list Spec.UserTurn) :
  (length (Spec.analysed ts) <= length ts)%nat.
Proof.
  unfold Spec.analysed.
  induction ts as [|[d|] ts IH]; cbn [flat_map app length] in *; lia.
Qed.

Lemma userTurns_length (userColor : string) (moves : list Pgn.ChessMove) :
  forall h : Heap, (length (Spec.userTurns userColor moves h) <= length moves)%nat.
Proof.
  induction moves as [|moveInfo rest IH]; intros h; cbn [Spec.userTurns length]; [lia|].
  destruct (Spec.usersTurn (ChessJs.turn (chess h)) userColor).
  - destruct (ChessJs.move (chess h) (Pgn.move moveInfo)) as [c'|].
    + cbn [length]. apply le_n_S, IH.
    + cbn [length]. lia.
  - destruct (ChessJs.move (chess h) (Pgn.move moveInfo)) as [c'|];
      apply Nat.le_le_succ_r, IH.
Qed.

End WholeEvalDiff.

Section Percentages.

Lemma percentage_range (k n : nat) :
  (k <= n)%nat -> 0 <= percentage k n /\ percentage k n <= 100.
Proof.
  intros Hkn. unfold percentage. destruct n as [|m]; cbn [Nat.ltb Nat.leb].
  - split; [apply Qle_refl | discriminate].
  - unfold Qle, Qdiv, Qmult, Qinv, inject_Z.
    rewrite Nat2Z.inj_succ. 
    destruct (Z.succ (Z.of_nat m)) as [|p|p] eqn:Hp; try lia.
    cbn [Qnum Qden]. split; nia.
Qed.

Lemma percentage_full (k n : nat) :
  (k <= n)%nat -> percentage k n == 100 -> k = n /\ n <> 0%nat.
Proof.
  intros Hkn. unfold percentage. destruct n as [|m]; cbn [Nat.ltb Nat.leb].
  - discriminate.
  - unfold Qeq, Qdiv, Qmult, Qinv, inject_Z.
    rewrite Nat2Z.inj_succ. 
    destruct (Z.succ (Z.of_nat m)) as [|p|p] eqn:Hp; try lia.
    cbn [Qnum Qden]. intros H. split; [|discriminate]. nia.
Qed.

End Percentages.

(** X6. The evaluations are whole numbers, so every evaluation
    difference is a whole number that is not negative: 0 is an excellent
    move, 1 an inaccuracy, 2 a mistake and 3 or more a blunder.  No move
    is ever classified as good without being excellent, every move that
    counts for the accuracy is among the key moments, and the accuracy
    is the share of the excellent moves. *)
Theorem runGameAnalysis_never_good {E : ChessJs.Engine}
  (parsedGame : Pgn.ChessGame) (userColor : string) (h : Heap) :
  let ts := Spec.userTurns userColor (Pgn.moves parsedGame)
              {| chess := ChessJs.reset (chess h); chessEngine := chessEngine h |} in
  exists r h',
    runGameAnalysis parsedGame userColor h = (Normal r, h')
    /\ Forall Props.wholeTurn ts
    /\ Spec.countQuality good ts = 0%nat
    /\ length (GameAnalysisResult.keyMoments r)
       = (GameAnalysisResult.blunders r + Spec.countGood ts)%nat
    /\ (ts <> [] ->
        GameAnalysisResult.accuracy r
        = inject_Z (Z.of_nat (Spec.countQuality excellent ts))
          / inject_Z (Z.of_nat (length ts)) * inject_Z 100).
Proof.
  cbv zeta.
  destruct (runGameAnalysis_run parsedGame userColor h)
    as (r & h' & v & Hrun & (H1 & H2 & H3 & H4 & H5 & H6) & ->).
  pose proof (userTurns_whole userColor (Pgn.moves parsedGame)
                {| chess := ChessJs.reset (chess h); chessEngine := chessEngine h |})
    as Hwhole.
  eexists _, h'. split; [exact Hrun|]. split; [exact Hwhole|].
  split; [exact (countQuality_good_whole _ Hwhole)|].
  cbn [GameAnalysisResult.keyMoments GameAnalysisResult.blunders
       GameAnalysisResult.accuracy].
  split.
  - rewrite <- (length_map KeyMoment.type), H6, H1. cbn [GameVars.init GameVars.keyMoments
      GameVars.blunders map app Nat.add].
    rewrite notable_length. unfold Spec.countGood.
    rewrite (countQuality_good_whole _ Hwhole). reflexivity.
  - intros Hts. rewrite H4, H5.
    cbn [GameVars.init GameVars.goodMoves GameVars.totalMoves Nat.add].
    rewrite percentage_pos by (destruct (Spec.userTurns _ _ _); [contradiction | discriminate]).
    unfold Spec.countGood. rewrite (countQuality_good_whole _ Hwhole). reflexivity.
Qed.

(** X7. Whatever the game, the accuracy lies between 0 and 100, the
    three counters together do not exceed the number of moves of the
    game, nor does the number of key moments, and an accuracy of 100
    means that there is no blunder, no mistake and no inaccuracy. *)
Theorem runGameAnalysis_bounds {E : ChessJs.Engine}
  (parsedGame : Pgn.ChessGame) (userColor : string) (h : Heap) :
  exists r h',
    runGameAnalysis parsedGame userColor h = (Normal r, h')
    /\ GameAnalysisResult.userColor r = userColor
    /\ (GameAnalysisResult.blunders r + GameAnalysisResult.mistakes r
        + GameAnalysisResult.inaccuracies r <= length (Pgn.moves parsedGame))%nat
    /\ (length (GameAnalysisResult.keyMoments r) <= length (Pgn.moves parsedGame))%nat
    /\ 0 <= GameAnalysisResult.accuracy r
    /\ GameAnalysisResult.accuracy r <= 100
    /\ (GameAnalysisResult.accuracy r == 100 ->
        GameAnalysisResult.blunders r = 0%nat
        /\ GameAnalysisResult.mistakes r = 0%nat
        /\ GameAnalysisResult.inaccuracies r = 0%nat).
Proof.
  destruct (runGameAnalysis_run parsedGame userColor h)
    as (r & h' & v & Hrun & (H1 & H2 & H3 & H4 & H5 & H6) & ->).
  set (ts := Spec.userTurns userColor (Pgn.moves parsedGame)
               {| chess := ChessJs.reset (chess h); chessEngine := chessEngine h |}) in *.
  pose proof (quality_partition ts) as Hsum.
  pose proof (analysed_le ts) as Hanalysed.
  pose proof (userTurns_length userColor (Pgn.moves parsedGame)
                {| chess := ChessJs.reset (chess h); chessEngine := chessEngine h |})
    as Hlen. fold ts in Hlen.
  pose proof (notable_length ts) as Hnot.
  cbn [GameVars.init GameVars.blunders GameVars.mistakes GameVars.inaccuracies
       GameVars.totalMoves GameVars.goodMoves GameVars.keyMoments Nat.add map app]
    in H1, H2, H3, H4, H5, H6.
  eexists _, h'. split; [exact Hrun|].
  cbn [GameAnalysisResult.keyMoments GameAnalysisResult.blunders
       GameAnalysisResult.mistakes GameAnalysisResult.inaccuracies
       GameAnalysisResult.accuracy GameAnalysisResult.userColor].
  assert (Hgood : (GameVars.goodMoves v <= GameVars.totalMoves v)%nat).
  { rewrite H4, H5. unfold Spec.countGood in *. lia. }
  split; [reflexivity|]. split; [rewrite H1, H2, H3; lia|].
  split.
  { rewrite <- (length_map KeyMoment.type), H6, Hnot. unfold Spec.countGood in *. lia. }
  split; [apply percentage_range, Hgood|].
  split; [apply percentage_range, Hgood|].
  intros Hfull. destruct (percentage_full _ _ Hgood Hfull) as [Heq _].
  rewrite H1, H2, H3. rewrite H4, H5 in Heq. lia.
Qed.

Section HeuristicFacts.

Context {E : ChessJs.Engine}.

Lemma fold_left_invariant {A B : Type} (P : B -> Prop) (f : B -> A -> B) (l : list A) :
  (forall b a, P b -> P (f b a)) -> forall b, P b -> P (fold_left f l b).
Proof.
  intros Hstep. induction l as [|a l IH]; intros b Hb; cbn [fold_left]; [exact Hb|].
  apply IH, Hstep, Hb.
Qed.

Lemma fold_left_bounded {A : Type} (f : Z -> A -> Z) (step : Z) (l : list A) :
  (0 <= step)%Z ->
  (forall b a, (b <= f b a <= b + step)%Z) ->
  forall b, (b <= fold_left f l b <= b + step * Z.of_nat (length l))%Z.
Proof.
  intros Hpos Hstep. induction l as [|a l IH]; intros b; cbn [fold_left length]; [lia|].
  specialize (IH (f b a)). specialize (Hstep b a). lia.
Qed.

Lemma evaluatePieceDevelopment_range (userColor : string) (c : ChessJs.Chess) :
  exists z, evaluatePieceDevelopment userColor c = (Normal z, c) /\ (0 <= z <= 640)%Z.
Proof.
  unfold evaluatePieceDevelopment, tryCatch, bind, gets, ret.
  eexists. split; [reflexivity|].
  match goal with
  | |- (_ <= fold_left ?f ?l _ <= _)%Z =>
      pose proof (fold_left_bounded f 10 l ltac:(lia)) as H
  end.
  match type of H with
  | ?P -> _ => assert (Hstep : P)
  end.
  { intros b [row col]. destruct (pieceAt (ChessJs.board c) row col) as [piece|]; [|lia].
    match goal with
    | |- context [if ?x then _ else _] => destruct x
    end; [|lia].
    match goal with
    | |- context [if ?x then _ else _] => destruct x
    end; lia. }
  specialize (H Hstep 0%Z). change (Z.of_nat (length squares)) with 64%Z in H. lia.
Qed.

Lemma evaluateCenterControl_range (userColor : string) (c : ChessJs.Chess) :
  exists z, evaluateCenterControl userColor c = (Normal z, c) /\ (0 <= z <= 60)%Z.
Proof.
  unfold evaluateCenterControl, tryCatch, bind, gets, ret.
  eexists. split; [reflexivity|].
  match goal with
  | |- (_ <= fold_left ?f ?l _ <= _)%Z =>
      pose proof (fold_left_bounded f 15 l ltac:(lia)) as H
  end.
  match type of H with
  | ?P -> _ => assert (Hstep : P)
  end.
  { intros b square. destruct (ChessJs.get c square) as [piece|]; [|lia].
    destruct (Color_eqb (color piece) (colorOf userColor)); lia. }
  specialize (H Hstep 0%Z). cbn [length] in H. lia.
Qed.

Lemma evaluateKingSafety_values (userColor : string) (c : ChessJs.Chess) :
  exists z, evaluateKingSafety userColor c = (Normal z, c) /\ (z = 50 \/ z = 80)%Z.
Proof.
  unfold evaluateKingSafety, tryCatch, bind, gets, ret.
  destruct (findKing (ChessJs.board c) (colorOf userColor)) as [[row col]|];
    [|eexists; split; [reflexivity|left; reflexivity]].
  destruct (Color_eqb (colorOf userColor) WHITE);
    match goal with
    | |- context [if ?b then _ else _] => destruct b
    end; eexists; (split; [reflexivity|]); [right|left|right|left]; reflexivity.
Qed.

Lemma evaluatePawnStructure_range (userColor : string) (c : ChessJs.Chess) :
  exists z, evaluatePawnStructure userColor c = (Normal z, c) /\ (0 <= z <= 60)%Z.
Proof.
  unfold evaluatePawnStructure, tryCatch, bind, gets, ret.
  match goal with
  | |- context [fold_left ?f ?l ?a] =>
      pose proof (fold_left_invariant
                    (fun p : Z * Z => (0 <= fst p)%Z /\ (0 <= snd p)%Z) f l) as H;
      cbv beta in H;
      assert (Hstep : forall (b : Z * Z) (n : nat),
                 (0 <= fst b)%Z /\ (0 <= snd b)%Z ->
                 (0 <= fst (f b n))%Z /\ (0 <= snd (f b n))%Z);
      [|specialize (H Hstep a (conj (Z.le_refl 0) (Z.le_refl 0)));
        destruct (fold_left f l a) as [doubled isolated]]
  end.
  { intros [d i] col [Hd Hi]. cbn [fst snd] in *.
    repeat match goal with
           | |- context [if ?x then _ else _] => destruct x eqn:?
           end;
      repeat match goal with
             | H : (_ <? _)%nat = true |- _ => apply Nat.ltb_lt in H
             end; cbn [fst snd]; lia. }
  eexists. split; [reflexivity|].
  destruct H as [Hd Hi]. cbn [fst snd] in Hd, Hi. lia.
Qed.

Lemma total_range (heuristic : M ChessJs.Chess Z) (lo hi : Z)
  (ps : list ChessJs.Chess) :
  (forall c, (lo <= Spec.valueOf 0%Z heuristic c <= hi)%Z) ->
  (lo * Z.of_nat (length ps) <= Spec.total heuristic ps
   <= hi * Z.of_nat (length ps))%Z.
Proof.
  intros Hrange. induction ps as [|c ps IH].
  - unfold Spec.total. cbn [fold_left length]. lia.
  - rewrite total_cons. specialize (Hrange c). cbn [length]. lia.
Qed.

Lemma valueOf_run {A : Type} (d z : A) (m : M ChessJs.Chess A) (c c' : ChessJs.Chess) :
  m c = (Normal z, c') -> Spec.valueOf d m c = z.
Proof. intros H. unfold Spec.valueOf. rewrite H. reflexivity. Qed.

(** What [runFundamentalsAnalysis] returns, the advice included. *)
Lemma runFundamentalsAnalysis_advice (parsedGame : Pgn.ChessGame) (userColor : string)
  (h : Heap) :
  let ps := Spec.scoredPositions userColor 0 (Pgn.moves parsedGame)
              (ChessJs.reset (chess h)) in
  exists r h',
    runFundamentalsAnalysis parsedGame userColor h = (Normal r, h')
    /\ FundamentalsAnalysisResult.pieceDevelopment r
       = clamp (Spec.total (evaluatePieceDevelopment userColor) ps)
    /\ FundamentalsAnalysisResult.centerControl r
       = clamp (Spec.total (evaluateCenterControl userColor) ps)
    /\ FundamentalsAnalysisResult.kingSafety r
       = clamp (Spec.total (evaluateKingSafety userColor) ps)
    /\ FundamentalsAnalysisResult.pawnStructure r
       = clamp (Spec.total (evaluatePawnStructure userColor) ps)
    /\ FundamentalsAnalysisResult.recommendations r
       = generateFundamentalRecommendations
           (FundamentalsAnalysisResult.pieceDevelopment r)
           (FundamentalsAnalysisResult.centerControl r)
           (FundamentalsAnalysisResult.kingSafety r)
           (FundamentalsAnalysisResult.pawnStructure r).
Proof.
  cbv zeta. unfold runFundamentalsAnalysis.
  rewrite (bind_Normal _ _ _ _ _
             (eq_refl : onChess chess_reset h
                        = (Normal tt, {| chess := ChessJs.reset (chess h);
                                         chessEngine := chessEngine h |}))).
  destruct (fundamentalsLoop_totals userColor (Pgn.moves parsedGame) 0
              {| chess := ChessJs.reset (chess h); chessEngine := chessEngine h |}
              FundamentalsVars.init) as (r & h' & v' & Hloop & H1 & H2 & H3 & H4).
  assert (Hlocals :
    withLocals FundamentalsVars.init
      (tryCatch (forIndex 0 (Pgn.moves parsedGame) (fundamentalsLoopBody userColor))
                (ret tt))
      {| chess := ChessJs.reset (chess h); chessEngine := chessEngine h |}
    = (Normal (tt, v'), h')).
  { unfold withLocals, tryCatch. rewrite Hloop. destruct r as [[]|]; reflexivity. }
  rewrite (bind_Normal _ _ _ _ _ Hlocals). cbn [snd]. unfold ret.
  eexists _, h'. split; [reflexivity|].
  cbn [FundamentalsAnalysisResult.pieceDevelopment
       FundamentalsAnalysisResult.centerControl
       FundamentalsAnalysisResult.kingSafety
       FundamentalsAnalysisResult.pawnStructure
       FundamentalsAnalysisResult.recommendations].
  cbn [chess] in H1, H2, H3, H4. rewrite H1, H2, H3, H4.
  cbn [FundamentalsVars.init FundamentalsVars.pieceDevelopmentScore
       FundamentalsVars.centerControlScore FundamentalsVars.kingSafetyScore
       FundamentalsVars.pawnStructureScore].
  repeat split; reflexivity.
Qed.

End HeuristicFacts.

(** X8. Each of the four heuristics of the fundamentals returns a
    number on every board and leaves the board as it was: the piece
    development lies between 0 and 640, the centre control between 0 and
    60, the king safety is 50 or 80, and the pawn structure lies between
    0 and 60. *)
Theorem heuristics_bounded {E : ChessJs.Engine} (userColor : string)
  (c : ChessJs.Chess) :
  exists development center king pawns : Z,
    evaluatePieceDevelopment userColor c = (Normal development, c)
    /\ evaluateCenterControl userColor c = (Normal center, c)
    /\ evaluateKingSafety userColor c = (Normal king, c)
    /\ evaluatePawnStructure userColor c = (Normal pawns, c)
    /\ (0 <= development <= 640)%Z
    /\ (0 <= center <= 60)%Z
    /\ (king = 50 \/ king = 80)%Z
    /\ (0 <= pawns <= 60)%Z.
Proof.
  destruct (evaluatePieceDevelopment_range userColor c) as (d & Hd & Hdr).
  destruct (evaluateCenterControl_range userColor c) as (ctr & Hc & Hcr).
  destruct (evaluateKingSafety_values userColor c) as (k & Hk & Hkr).
  destruct (evaluatePawnStructure_range userColor c) as (p & Hp & Hpr).
  exists d, ctr, k, p. repeat split; assumption || lia.
Qed.

(** X9. The king safety of the result saturates: a single scored
    position gives 50 or 80, and two or more give 100, whatever the
    game, so that the advice to castle early is never given then.  With
    no scored position the four scores are 0 and all eight pieces of
    advice are given. *)
Theorem runFundamentalsAnalysis_king_safety_saturates {E : ChessJs.Engine}
  (parsedGame : Pgn.ChessGame) (userColor : string) (h : Heap) :
  let ps := Spec.scoredPositions userColor 0 (Pgn.moves parsedGame)
              (ChessJs.reset (chess h)) in
  exists r h',
    runFundamentalsAnalysis parsedGame userColor h = (Normal r, h')
    /\ (ps = [] ->
        FundamentalsAnalysisResult.pieceDevelopment r = 0%Z
        /\ FundamentalsAnalysisResult.centerControl r = 0%Z
        /\ FundamentalsAnalysisResult.kingSafety r = 0%Z
        /\ FundamentalsAnalysisResult.pawnStructure r = 0%Z
        /\ length (FundamentalsAnalysisResult.recommendations r) = 8%nat)
    /\ (length ps = 1%nat ->
        (FundamentalsAnalysisResult.kingSafety r = 50%Z
         \/ FundamentalsAnalysisResult.kingSafety r = 80%Z)
        /\ (FundamentalsAnalysisResult.centerControl r <= 60)%Z
        /\ (FundamentalsAnalysisResult.pawnStructure r <= 60)%Z)
    /\ ((2 <= length ps)%nat ->
        FundamentalsAnalysisResult.kingSafety r = 100%Z
        /\ ~ In "Castle early to protect your king"
                (FundamentalsAnalysisResult.recommendations r)).
Proof.
  cbv zeta.
  destruct (runFundamentalsAnalysis_advice parsedGame userColor h)
    as (r & h' & Hrun & H1 & H2 & H3 & H4 & H5).
  exists r, h'. split; [exact Hrun|].
  remember (Spec.scoredPositions userColor 0 (Pgn.moves parsedGame)
              (ChessJs.reset (chess h))) as ps eqn:Hps.
  clear Hps.
  assert (Hking : forall c, (50 <= Spec.valueOf 0%Z (evaluateKingSafety userColor) c <= 80)%Z).
  { intros c. destruct (evaluateKingSafety_values userColor c) as (k & Hk & Hkr).
    rewrite (valueOf_run _ _ _ _ _ Hk). lia. }
  assert (Hcenter : forall c, (0 <= Spec.valueOf 0%Z (evaluateCenterControl userColor) c <= 60)%Z).
  { intros c. destruct (evaluateCenterControl_range userColor c) as (k & Hk & Hkr).
    rewrite (valueOf_run _ _ _ _ _ Hk). lia. }
  assert (Hpawns : forall c, (0 <= Spec.valueOf 0%Z (evaluatePawnStructure userColor) c <= 60)%Z).
  { intros c. destruct (evaluatePawnStructure_range userColor c) as (k & Hk & Hkr).
    rewrite (valueOf_run _ _ _ _ _ Hk). lia. }
  pose proof (total_range _ _ _ ps Hking) as Tk.
  pose proof (total_range _ _ _ ps Hcenter) as Tc.
  pose proof (total_range _ _ _ ps Hpawns) as Tp.
  split; [|split].
  - intros Hnil. rewrite H5, H1, H2, H3, H4, Hnil. repeat split; reflexivity.
  - intros Hone. rewrite H2, H3, H4. rewrite Hone in Tk, Tc, Tp.
    destruct ps as [|c [|c2 ps']]; try discriminate Hone.
    rewrite !total_cons.
    change (Spec.total (evaluateCenterControl userColor) []) with 0%Z.
    change (Spec.total (evaluateKingSafety userColor) []) with 0%Z.
    change (Spec.total (evaluatePawnStructure userColor) []) with 0%Z.
    destruct (evaluateKingSafety_values userColor c) as (k & Hk & Hkr).
    rewrite (valueOf_run _ _ _ _ _ Hk).
    specialize (Hcenter c). specialize (Hpawns c). unfold clamp.
    split; [destruct Hkr as [-> | ->]; [left|right]; reflexivity | lia].
  - intros Htwo.
    assert (Hfull : FundamentalsAnalysisResult.kingSafety r = 100%Z).
    { rewrite H3. unfold clamp. lia. }
    split; [exact Hfull|].
    rewrite H5, Hfull. unfold generateFundamentalRecommendations.
    change (100 <? 60)%Z with false. cbv iota.
    repeat match goal with
           | |- context [if ?b then _ else _] => destruct b
           end; cbn [app In]; intros Hin;
      repeat match type of Hin with
             | _ \/ _ => destruct Hin as [Hin | Hin]
             | False => exact Hin
             | _ = _ => discriminate Hin
             end.
Qed.

Section OpeningsFacts.

Context {E : ChessJs.Engine}.

Lemma openingsLoopBody_step (userColor : string) (i : nat)
  (moveInfo : Pgn.ChessMove) (h : Heap) (n : nat) :
  openingsLoopBody userColor i moveInfo (h, n)
  = match ChessJs.move (chess h) (Pgn.move moveInfo) with
    | None => (Throw, (h, n))
    | Some c' =>
        (Normal tt,
         ({| chess := c'; chessEngine := chessEngine h |},
          ((if Spec.usersTurn (ChessJs.turn (chess h)) userColor && (i <? 12)%nat
            then 1 else 0) + n)%nat))
    end.
Proof.
  destruct h as [c e]. unfold openingsLoopBody. run_heap.
  rewrite usersTurn_isUserMove.
  destruct (ChessJs.move c (Pgn.move moveInfo)) as [c'|]; [|reflexivity].
  destruct (Spec.usersTurn (ChessJs.turn c) userColor); [|reflexivity].
  destruct (i <? 12)%nat; reflexivity.
Qed.

Lemma openingsLoop_credits (userColor : string) (moves : list Pgn.ChessMove) :
  forall (i : nat) (h : Heap) (n : nat),
  exists r h',
    forIndex i moves (openingsLoopBody userColor) (h, n)
    = (r, (h', (n + Props.openingCredits userColor i moves (chess h))%nat)).
Proof.
  induction moves as [|moveInfo rest IH]; intros i h n;
    cbn [forIndex Props.openingCredits].
  - exists (Normal tt), h. rewrite Nat.add_0_r. reflexivity.
  - pose proof (openingsLoopBody_step userColor i moveInfo h n) as Hstep.
    destruct (ChessJs.move (chess h) (Pgn.move moveInfo)) as [c'|].
    + rewrite (bind_Normal _ _ _ _ _ Hstep).
      match goal with
      | |- context [forIndex (S i) rest _ (?h1, ?n1)] =>
          destruct (IH (S i) h1 n1) as (r & h' & Hloop)
      end.
      exists r, h'. rewrite Hloop. cbn [chess]. do 2 f_equal. lia.
    + rewrite (bind_Throw _ _ _ _ Hstep).
      exists Throw, h. rewrite Nat.add_0_r. reflexivity.
Qed.

Lemma openingCredits_le (userColor : string) (moves : list Pgn.ChessMove) :
  forall (i : nat) (c : ChessJs.Chess),
    (Props.openingCredits userColor i moves c <= length moves)%nat
    /\ (Props.openingCredits userColor i moves c <= 12 - i)%nat.
Proof.
  induction moves as [|moveInfo rest IH]; intros i c;
    cbn [Props.openingCredits length]; [lia|].
  destruct (ChessJs.move c (Pgn.move moveInfo)) as [c'|]; [|lia].
  destruct (IH (S i) c') as [H1 H2].
  destruct (Spec.usersTurn (ChessJs.turn c) userColor); cbn [andb]; [|lia].
  destruct (Nat.ltb_spec i 12); lia.
Qed.

Lemma ratio_bound (k n p : nat) :
  (0 < n)%nat -> (100 * k <= p * n)%nat ->
  inject_Z (Z.of_nat k) / inject_Z (Z.of_nat n) * inject_Z 100 <= inject_Z (Z.of_nat p).
Proof.
  intros Hn Hk. unfold Qle, Qdiv, Qmult, Qinv, inject_Z.
  destruct n as [|m]; [lia|]. rewrite Nat2Z.inj_succ in *.
  assert (Hz : (100 * Z.of_nat k <= Z.of_nat p * Z.succ (Z.of_nat m))%Z) by lia.
  destruct (Z.succ (Z.of_nat m)) as [|q|q] eqn:Hq; try lia.
  cbn [Qnum Qden]. nia.
Qed.

Lemma ratio_nonneg (k n : nat) :
  0 <= inject_Z (Z.of_nat k) / inject_Z (Z.of_nat n) * inject_Z 100.
Proof.
  unfold Qle, Qdiv, Qmult, Qinv, inject_Z.
  destruct (Z.of_nat n) as [|q|q] eqn:Hq; try lia; cbn [Qnum Qden]; nia.
Qed.

Lemma firstn_min_length {A : Type} (n : nat) (l : list A) :
  firstn (Nat.min n (length l)) l = firstn n l.
Proof.
  destruct (Nat.le_ge_cases n (length l)) as [H|H].
  - rewrite Nat.min_l by exact H. reflexivity.
  - rewrite Nat.min_r by exact H. rewrite firstn_all.
    symmetry. apply firstn_all2. exact H.
Qed.

(** What [runOpeningsAnalysis] returns. *)
Lemma runOpeningsAnalysis_run (parsedGame : Pgn.ChessGame) (userColor : string)
  (h : Heap) :
  let openingMoves := firstn 20 (Pgn.moves parsedGame) in
  let credits := Props.openingCredits userColor 0 openingMoves (ChessJs.reset (chess h)) in
  let name := Pgn.orElse (Pgn.opening parsedGame) "Unknown Opening" in
  exists h',
    runOpeningsAnalysis parsedGame userColor h
    = (Normal
         {| OpeningsAnalysisResult.eco := Pgn.orElse (Pgn.eco parsedGame) EmptyString;
            OpeningsAnalysisResult.name := name;
            OpeningsAnalysisResult.accuracy :=
              if (0 <? length openingMoves)%nat
              then inject_Z (Z.of_nat credits)
                   / inject_Z (Z.of_nat (length openingMoves)) * inject_Z 100
              else 0;
            OpeningsAnalysisResult.commonLines := getCommonLinesForOpening name;
            OpeningsAnalysisResult.recommendations :=
              generateOpeningRecommendations name userColor |}, h').
Proof.
  cbv zeta. unfold runOpeningsAnalysis.
  rewrite (bind_Normal _ _ _ _ _
             (eq_refl : onChess chess_reset h
                        = (Normal tt, {| chess := ChessJs.reset (chess h);
                                         chessEngine := chessEngine h |}))).
  cbv zeta. rewrite firstn_min_length.
  destruct (openingsLoop_credits userColor (firstn 20 (Pgn.moves parsedGame)) 0
              {| chess := ChessJs.reset (chess h); chessEngine := chessEngine h |} 0)
    as (r & h' & Hloop).
  cbn [chess Nat.add] in Hloop.
  match goal with
  | |- context [withLocals ?init (tryCatch ?m (ret tt))] =>
      assert (Hlocals :
        withLocals init (tryCatch m (ret tt))
          {| chess := ChessJs.reset (chess h); chessEngine := chessEngine h |}
        = (Normal (tt, Props.openingCredits userColor 0
                         (firstn 20 (Pgn.moves parsedGame)) (ChessJs.reset (chess h))),
           h'))
  end.
  { unfold withLocals, tryCatch. rewrite Hloop. destruct r as [[]|]; reflexivity. }
  rewrite (bind_Normal _ _ _ _ _ Hlocals). cbn [snd]. unfold ret.
  exists h'. rewrite Nat.min_l by (rewrite length_firstn; apply Nat.le_min_l).
  reflexivity.
Qed.

End OpeningsFacts.

(** X10. The openings pipeline never throws.  Its accuracy does not
    look at any opening line: it is the number of moves of the user
    among the first twelve half-moves that the board accepts, up to the
    first refused move, over the number of moves of the opening (the
    first twenty of the game), times 100; it is 0 for a game without
    moves and always lies between 0 and 100.  The name is the Opening
    header or the text Unknown Opening, and the ECO code the ECO header
    or the empty text. *)
Theorem runOpeningsAnalysis_counts_accepted_moves {E : ChessJs.Engine}
  (parsedGame : Pgn.ChessGame) (userColor : string) (h : Heap) :
  let openingMoves := firstn 20 (Pgn.moves parsedGame) in
  let credits := Props.openingCredits userColor 0 openingMoves (ChessJs.reset (chess h)) in
  exists r h',
    runOpeningsAnalysis parsedGame userColor h = (Normal r, h')
    /\ OpeningsAnalysisResult.eco r
       = match Pgn.eco parsedGame with
         | Some (String a s) => String a s
         | _ => EmptyString
         end
    /\ OpeningsAnalysisResult.name r
       = match Pgn.opening parsedGame with
         | Some (String a s) => String a s
         | _ => "Unknown Opening"
         end
    /\ (Pgn.moves parsedGame = [] -> OpeningsAnalysisResult.accuracy r = 0)
    /\ (Pgn.moves parsedGame <> [] ->
        OpeningsAnalysisResult.accuracy r
        = inject_Z (Z.of_nat credits) / inject_Z (Z.of_nat (length openingMoves))
          * inject_Z 100)
    /\ (credits <= 12)%nat
    /\ (credits <= length openingMoves <= 20)%nat
    /\ 0 <= OpeningsAnalysisResult.accuracy r
    /\ OpeningsAnalysisResult.accuracy r <= 100.
Proof.
  cbv zeta.
  destruct (runOpeningsAnalysis_run parsedGame userColor h) as (h' & Hrun).
  eexists _, h'. split; [exact Hrun|].
  cbn [OpeningsAnalysisResult.eco OpeningsAnalysisResult.name
       OpeningsAnalysisResult.accuracy].
  destruct (openingCredits_le userColor (firstn 20 (Pgn.moves parsedGame)) 0
              (ChessJs.reset (chess h))) as [Hlen H12].
  split; [destruct (Pgn.eco parsedGame) as [[|a s]|]; reflexivity|].
  split; [destruct (Pgn.opening parsedGame) as [[|a s]|]; reflexivity|].
  split; [intros ->; reflexivity|].
  split.
  { intros Hne. destruct (Pgn.moves parsedGame) as [|m ms]; [contradiction|]. reflexivity. }
  split; [lia|].
  split; [split; [exact Hlen | rewrite length_firstn; apply Nat.le_min_l]|].
  destruct (Nat.ltb_spec 0 (length (firstn 20 (Pgn.moves parsedGame)))) as [Hpos|Hzero].
  - split; [apply ratio_nonneg|].
    apply (ratio_bound _ _ 100); [exact Hpos | lia].
  - split; [apply Qle_refl | discriminate].
Qed.

Section OpeningsCap.

Context {E : ChessJs.Engine}.

Hypothesis move_turn : forall (c c' : ChessJs.Chess) (san : string),
  ChessJs.move c san = Some c' -> ChessJs.turn c' = Spec.opposite (ChessJs.turn c).

Lemma usersTurn_opposite (turn : Color) (userColor : string) :
  Spec.usersTurn turn userColor = true ->
  Spec.usersTurn (Spec.opposite turn) userColor = false.
Proof.
  destruct turn; cbn [Spec.usersTurn Spec.opposite]; intros H;
    apply String.eqb_eq in H; subst userColor; reflexivity.
Qed.

Lemma openingCredits_alternating (userColor : string) (moves : list Pgn.ChessMove) :
  forall (i : nat) (c : ChessJs.Chess),
    (Props.openingCredits userColor i moves c
     <= if Spec.usersTurn (ChessJs.turn c) userColor
        then (13 - i) / 2 else (12 - i) / 2)%nat.
Proof.
  induction moves as [|moveInfo rest IH]; intros i c; cbn [Props.openingCredits].
  - apply Nat.le_0_l.
  - destruct (ChessJs.move c (Pgn.move moveInfo)) as [c'|] eqn:Hmove;
      [|apply Nat.le_0_l].
    specialize (IH (S i) c'). rewrite (move_turn _ _ _ Hmove) in IH.
    destruct (Spec.usersTurn (ChessJs.turn c) userColor) eqn:Hturn; cbn [andb].
    + rewrite (usersTurn_opposite _ _ Hturn) in IH.
      destruct (Nat.ltb_spec i 12) as [Hi|Hi].
      * replace (13 - i)%nat with (2 + (12 - S i))%nat by lia.
        replace (2 + (12 - S i))%nat with (12 - S i + 1 * 2)%nat by lia.
        rewrite Nat.div_add by discriminate. lia.
      * replace (12 - S i)%nat with 0%nat in IH by lia.
        change (0 / 2)%nat with 0%nat in IH. lia.
    + cbn [Nat.add].
      destruct (Spec.usersTurn (Spec.opposite (ChessJs.turn c)) userColor).
      * replace (13 - S i)%nat with (12 - i)%nat in IH by lia. exact IH.
      * etransitivity; [exact IH|].
        apply Nat.Div0.div_le_mono. lia.
Qed.

End OpeningsCap.

Lemma ChessRules_move_turn (c c' : ChessRules.Game) (san : string) :
  ChessRules.moveSan c san = Some c' ->
  ChessRules.sideToMove (ChessRules.current c')
    = Spec.opposite (ChessRules.sideToMove (ChessRules.current c)).
Proof.
  unfold ChessRules.moveSan.
  destruct (find _ (ChessRules.legalMoves (ChessRules.current c))); [|discriminate].
  intros [= <-]. reflexivity.
Qed.

(** X11. When the side to move changes with every move the board
    accepts, at most six of the first twelve half-moves are moves of the
    user; so the accuracy of the openings pipeline is at most 50 for a
    game of twelve moves or more, and at most 30 for a game of twenty
    moves or more, however the user played. *)
Theorem runOpeningsAnalysis_accuracy_cap {E : ChessJs.Engine}
  (move_turn : forall (c c' : ChessJs.Chess) (san : string),
      ChessJs.move c san = Some c' -> ChessJs.turn c' = Spec.opposite (ChessJs.turn c))
  (parsedGame : Pgn.ChessGame) (userColor : string) (h : Heap) :
  exists r h',
    runOpeningsAnalysis parsedGame userColor h = (Normal r, h')
    /\ ((12 <= length (Pgn.moves parsedGame))%nat ->
        OpeningsAnalysisResult.accuracy r <= 50)
    /\ ((20 <= length (Pgn.moves parsedGame))%nat ->
        OpeningsAnalysisResult.accuracy r <= 30).
Proof.
  destruct (runOpeningsAnalysis_run parsedGame userColor h) as (h' & Hrun).
  cbv zeta in Hrun.
  eexists _, h'. split; [exact Hrun|].
  cbn [OpeningsAnalysisResult.accuracy].
  pose proof (openingCredits_alternating move_turn userColor
                (firstn 20 (Pgn.moves parsedGame)) 0 (ChessJs.reset (chess h))) as Hcap.
  assert (Hsix : (Props.openingCredits userColor 0 (firstn 20 (Pgn.moves parsedGame))
                    (ChessJs.reset (chess h)) <= 6)%nat).
  { destruct (Spec.usersTurn (ChessJs.turn (ChessJs.reset (chess h))) userColor);
      exact Hcap. }
  clear Hcap.
  assert (Hlen : length (firstn 20 (Pgn.moves parsedGame))
                 = Nat.min 20 (length (Pgn.moves parsedGame)))
    by apply length_firstn.
  split; intros Hmoves.
  - destruct (Nat.ltb_spec 0 (length (firstn 20 (Pgn.moves parsedGame)))) as [Hpos|Hzero];
      [|lia].
    apply (ratio_bound _ _ 50); [exact Hpos | lia].
  - destruct (Nat.ltb_spec 0 (length (firstn 20 (Pgn.moves parsedGame)))) as [Hpos|Hzero];
      [|lia].
    apply (ratio_bound _ _ 30); [exact Hpos | lia].
Qed.

Lemma runOpeningsAnalysis_accuracy_cap_witness :
  exists r h',
    runOpeningsAnalysis (E := ChessRules.engine)
      (Pgn.parsePgn
         "1. e4 e5 2. Nf3 Nc6 3. Bb5 a6 4. Ba4 Nf6 5. O-O Be7 6. Re1 b5 7. Bb3 d6")
      "white" ChessRules.freshHeap = (Normal r, h')
    /\ ((12 <= length (Pgn.moves (Pgn.parsePgn
         "1. e4 e5 2. Nf3 Nc6 3. Bb5 a6 4. Ba4 Nf6 5. O-O Be7 6. Re1 b5 7. Bb3 d6")))%nat ->
        OpeningsAnalysisResult.accuracy r <= 50)
    /\ ((20 <= length (Pgn.moves (Pgn.parsePgn
         "1. e4 e5 2. Nf3 Nc6 3. Bb5 a6 4. Ba4 Nf6 5. O-O Be7 6. Re1 b5 7. Bb3 d6")))%nat ->
        OpeningsAnalysisResult.accuracy r <= 30).
Proof.
  apply (runOpeningsAnalysis_accuracy_cap (E := ChessRules.engine) ChessRules_move_turn).
Defined.

Section TacticsFacts.

Context {E : ChessJs.Engine}.

(** What a loop returns with, its body returned with for one of the
    elements. *)
Lemma forOfReturn_source {St A R : Type} (body : A -> M St (option R))
  (P : A -> R -> Prop) :
  (forall x s r s', body x s = (Normal (Some r), s') -> P x r) ->
  forall l s r s',
    forOfReturn l body s = (Normal (Some r), s') -> exists x, In x l /\ P x r.
Proof.
  intros Hbody. induction l as [|x l IH]; intros s r s'; cbn [forOfReturn].
  - discriminate.
  - unfold bind at 1. destruct (body x s) as [[[v|]|] s1] eqn:Hx.
    + intros [= <- <-]. exists x. split; [left; reflexivity|]. exact (Hbody _ _ _ _ Hx).
    + intros Hrest. destruct (IH _ _ _ Hrest) as (y & Hy & HP).
      exists y. split; [right; exact Hy | exact HP].
    + discriminate.
Qed.

Lemma forkLoop_reports (l : list Move) (c c' : ChessJs.Chess) (t : TacticInfo) :
  forkLoop l c = (Normal (Some t), c') -> exists m, In m l /\ t = forkInfo m.
Proof.
  apply (forOfReturn_source _ (fun m t => t = forkInfo m)).
  intros m s r s'. unfold bind, chess_moveObject.
  destruct (ChessJs.moveObject s m) as [c1|]; [|discriminate].
  destruct (countAttackedPieces_run c1) as [n ->].
  destruct (2 <=? n)%nat; unfold chess_undo, modify, ret; intros [= <- _]; reflexivity.
Qed.

Lemma pinLoop_reports (l : list Move) (c c' : ChessJs.Chess) (t : TacticInfo) :
  pinLoop l c = (Normal (Some t), c') ->
  exists m, In m l /\ JS.includes (flags m) "c" = true /\ t = pinInfo m.
Proof.
  apply (forOfReturn_source _
           (fun m t => JS.includes (flags m) "c" = true /\ t = pinInfo m)).
  intros m s r s'.
  destruct (JS.includes (flags m) "c"); [|discriminate].
  unfold bind, chess_moveObject.
  destruct (ChessJs.moveObject s m) as [c1|]; [|discriminate].
  unfold gets.
  destruct (length (ChessJs.moves c1) <? 10)%nat; unfold chess_undo, modify, ret;
    intros [= <- _]; split; reflexivity.
Qed.

Lemma findTactics_reports (c : ChessJs.Chess) :
  exists t c',
    findTactics c = (Normal t, c')
    /\ (t = noTactic
        \/ exists m, In m (ChessJs.movesVerbose c)
                     /\ (t = forkInfo m
                         \/ (JS.includes (flags m) "c" = true /\ t = pinInfo m))).
Proof.
  unfold findTactics. unfold bind at 1. unfold tryCatch.
  unfold bind at 1. unfold gets at 1. unfold bind at 1.
  destruct (forkLoop (ChessJs.movesVerbose c) c) as [[[t|]|] c1] eqn:Hfork.
  - unfold ret. eexists _, _. split; [reflexivity|]. right.
    destruct (forkLoop_reports _ _ _ _ Hfork) as (m & Hm & ->).
    exists m. split; [exact Hm | left; reflexivity].
  - destruct (pinLoop (ChessJs.movesVerbose c) c1) as [[[t|]|] c2] eqn:Hpin.
    + unfold ret. eexists _, _. split; [reflexivity|]. right.
      destruct (pinLoop_reports _ _ _ _ Hpin) as (m & Hm & Hc & ->).
      exists m. split; [exact Hm | right; split; [exact Hc | reflexivity]].
    + unfold ret. eexists _, _. split; [reflexivity|]. left. reflexivity.
    + unfold ret. eexists _, _. split; [reflexivity|]. left. reflexivity.
  - unfold ret. eexists _, _. split; [reflexivity|]. left. reflexivity.
Qed.

End TacticsFacts.

(** X12. [findTactics] never throws.  What it reports is no tactic,
    with the three texts empty, or a fork or a pin or skewer whose best
    move is the SAN of one of the legal moves of the position; a pin or
    skewer is only ever reported for a capture. *)
Theorem findTactics_reports_a_legal_move {E : ChessJs.Engine} (c : ChessJs.Chess) :
  exists t c',
    findTactics c = (Normal t, c')
    /\ ((hasTactic t = false /\ tacticType t = EmptyString
         /\ bestMove t = EmptyString /\ explanation t = EmptyString)
        \/ exists m,
             In m (ChessJs.movesVerbose c)
             /\ hasTactic t = true
             /\ bestMove t = san m
             /\ (tacticType t = "Fork"
                 \/ (tacticType t = "Pin/Skewer" /\ JS.includes (flags m) "c" = true))).
Proof.
  destruct (findTactics_reports c) as (t & c' & Hrun & [-> | (m & Hm & Ht)]).
  - eexists _, c'. split; [exact Hrun|]. left. repeat split; reflexivity.
  - exists t, c'. split; [exact Hrun|]. right. exists m. split; [exact Hm|].
    destruct Ht as [-> | [Hc ->]].
    + repeat split; try reflexivity. left. reflexivity.
    + repeat split; try reflexivity. right. split; [reflexivity | exact Hc].
Qed.

Section TacticsEntries.

Context {E : ChessJs.Engine}.

Lemma tacticsLoopBody_step (userColor : string) (i : nat) (moveInfo : Pgn.ChessMove)
  (h h' : Heap) (v v' : TacticsVars.t) (r : Completion unit) (total : nat) :
  (i < total)%nat ->
  tacticsLoopBody userColor i moveInfo (h, v) = (r, (h', v')) ->
  v' = v
  \/ (exists x, v' = TacticsVars.pushMissed x v /\ Props.missedEntry total x)
  \/ (exists x, v' = TacticsVars.pushExecuted x v /\ Props.executedEntry total x).
Proof.
  intros Hi. destruct h as [c e]. unfold tacticsLoopBody, probeUserMove.
  assert (Hdiv : (1 <= i / 2 + 1)%nat /\ (2 * (i / 2 + 1) <= total + 1)%nat).
  { pose proof (Nat.Div0.mul_div_le i 2). lia. }
  revert Hdiv. generalize (i / 2 + 1)%nat as n. intros n [Hn1 Hn2]. run_heap.
  destruct (isUserMove (ChessJs.turn c) userColor).
  - destruct (findTactics_reports c) as (t & c1 & Hrun & Hshape).
    cbn [fst snd chess chessEngine]. rewrite Hrun.
    cbn [fst snd chess chessEngine].
    destruct (ChessJs.move c1 (Pgn.move moveInfo)) as [c2|] eqn:Hmove;
      cbn [fst snd chess chessEngine]; rewrite ?Hmove.
    + destruct Hshape as [-> | (m & _ & [-> | [_ ->]])];
        cbn [hasTactic noTactic forkInfo pinInfo andb bestMove tacticType explanation].
      * intros [= _ _ <-]. left. reflexivity.
      * destruct (negb (san m =? Pgn.move moveInfo)%string); cbn [modify fst snd].
        -- intros [= _ _ <-]. right. left. eexists. split; [reflexivity|].
           unfold Props.missedEntry.
           cbn [MissedTactic.moveNumber MissedTactic.tactic MissedTactic.explanation]. split; [exact Hn1|]. split; [exact Hn2|].
           left. split; reflexivity.
        -- intros [= _ _ <-]. right. right. eexists. split; [reflexivity|].
           unfold Props.executedEntry.
           cbn [ExecutedTactic.moveNumber ExecutedTactic.tactic]. split; [exact Hn1|]. split; [exact Hn2|].
           left. reflexivity.
      * destruct (negb (san m =? Pgn.move moveInfo)%string); cbn [modify fst snd].
        -- intros [= _ _ <-]. right. left. eexists. split; [reflexivity|].
           unfold Props.missedEntry.
           cbn [MissedTactic.moveNumber MissedTactic.tactic MissedTactic.explanation]. split; [exact Hn1|]. split; [exact Hn2|].
           right. split; reflexivity.
        -- intros [= _ _ <-]. right. right. eexists. split; [reflexivity|].
           unfold Props.executedEntry.
           cbn [ExecutedTactic.moveNumber ExecutedTactic.tactic]. split; [exact Hn1|]. split; [exact Hn2|].
           right. reflexivity.
    + intros [= _ _ <-]. left. reflexivity.
  - cbn [fst snd chess chessEngine].
    destruct (ChessJs.move c (Pgn.move moveInfo)) as [c2|];
      intros [= _ _ <-]; left; reflexivity.
Qed.

Lemma tacticsLoop_entries (userColor : string) (total : nat)
  (moves : list Pgn.ChessMove) :
  forall (i : nat) (h h' : Heap) (v v' : TacticsVars.t) (r : Completion unit),
    (i + length moves <= total)%nat ->
    forIndex i moves (tacticsLoopBody userColor) (h, v) = (r, (h', v')) ->
    Forall (Props.missedEntry total) (TacticsVars.missedTactics v) ->
    Forall (Props.executedEntry total) (TacticsVars.executedTactics v) ->
    Forall (Props.missedEntry total) (TacticsVars.missedTactics v')
    /\ Forall (Props.executedEntry total) (TacticsVars.executedTactics v')
    /\ (length (TacticsVars.missedTactics v') + length (TacticsVars.executedTactics v')
        <= length (TacticsVars.missedTactics v) + length (TacticsVars.executedTactics v)
           + length moves)%nat.
Proof.
  induction moves as [|moveInfo rest IH]; intros i h h' v v' r Hlen;
    cbn [forIndex length] in *.
  - intros [= _ <- <-] Hm He. repeat split; [exact Hm | exact He | lia].
  - unfold bind at 1.
    destruct (tacticsLoopBody userColor i moveInfo (h, v)) as [r1 [h1 v1]] eqn:Hbody.
    assert (Hstep :
      Forall (Props.missedEntry total) (TacticsVars.missedTactics v) ->
      Forall (Props.executedEntry total) (TacticsVars.executedTactics v) ->
      Forall (Props.missedEntry total) (TacticsVars.missedTactics v1)
      /\ Forall (Props.executedEntry total) (TacticsVars.executedTactics v1)
      /\ (length (TacticsVars.missedTactics v1) + length (TacticsVars.executedTactics v1)
          <= length (TacticsVars.missedTactics v) + length (TacticsVars.executedTactics v)
             + 1)%nat).
    { intros Hm He.
      destruct (tacticsLoopBody_step userColor i moveInfo h h1 v v1 r1 total
                  ltac:(lia) Hbody)
        as [-> | [(x & -> & Hx) | (x & -> & Hx)]];
        cbn [TacticsVars.pushMissed TacticsVars.pushExecuted
             TacticsVars.missedTactics TacticsVars.executedTactics].
      - repeat split; [exact Hm | exact He | lia].
      - repeat split; [|exact He|rewrite length_app; cbn [length]; lia].
        apply Forall_app. split; [exact Hm|]. constructor; [exact Hx | constructor].
      - repeat split; [exact Hm| |rewrite length_app; cbn [length]; lia].
        apply Forall_app. split; [exact He|]. constructor; [exact Hx | constructor]. }
    destruct r1 as [[]|].
    + intros Hloop Hm He. destruct (Hstep Hm He) as (Hm1 & He1 & Hc1).
      destruct (IH (S i) h1 h' v1 v' r ltac:(lia) Hloop Hm1 He1) as (Hm2 & He2 & Hc2).
      repeat split; [exact Hm2 | exact He2 | lia].
    + intros [= _ <- <-] Hm He. destruct (Hstep Hm He) as (Hm1 & He1 & Hc1).
      repeat split; [exact Hm1 | exact He1 | lia].
Qed.

End TacticsEntries.

(** X13. The tactics pipeline never throws.  Every missed tactic it
    lists is a fork or a pin or skewer, with the explanation of its
    kind, every executed tactic is one of the two kinds, the move number
    of an entry is a move number of the game, and there are no more
    entries than the game has moves. *)
Theorem runTacticsAnalysis_entries {E : ChessJs.Engine}
  (parsedGame : Pgn.ChessGame) (userColor : string) (h : Heap) :
  exists r h',
    runTacticsAnalysis parsedGame userColor h = (Normal r, h')
    /\ Forall (Props.missedEntry (length (Pgn.moves parsedGame)))
              (TacticsAnalysisResult.missedTactics r)
    /\ Forall (Props.executedEntry (length (Pgn.moves parsedGame)))
              (TacticsAnalysisResult.executedTactics r)
    /\ (length (TacticsAnalysisResult.missedTactics r)
        + length (TacticsAnalysisResult.executedTactics r)
        <= length (Pgn.moves parsedGame))%nat.
Proof.
  unfold runTacticsAnalysis.
  rewrite (bind_Normal _ _ _ _ _
             (eq_refl : onChess chess_reset h
                        = (Normal tt, {| chess := ChessJs.reset (chess h);
                                         chessEngine := chessEngine h |}))).
  destruct (forIndex 0 (Pgn.moves parsedGame) (tacticsLoopBody userColor)
              ({| chess := ChessJs.reset (chess h); chessEngine := chessEngine h |},
               TacticsVars.init)) as [r [h' v']] eqn:Hloop.
  destruct (tacticsLoop_entries userColor (length (Pgn.moves parsedGame))
              (Pgn.moves parsedGame) 0 _ h' TacticsVars.init v' r
              (Nat.le_refl _) Hloop (Forall_nil _) (Forall_nil _))
    as (Hm & He & Hc).
  assert (Hlocals :
    withLocals TacticsVars.init
      (tryCatch (forIndex 0 (Pgn.moves parsedGame) (tacticsLoopBody userColor))
                (ret tt))
      {| chess := ChessJs.reset (chess h); chessEngine := chessEngine h |}
    = (Normal (tt, v'), h')).
  { unfold withLocals, tryCatch. rewrite Hloop. destruct r as [[]|]; reflexivity. }
  rewrite (bind_Normal _ _ _ _ _ Hlocals). cbn [snd]. unfold ret.
  eexists _, h'. split; [reflexivity|].
  cbn [TacticsAnalysisResult.missedTactics TacticsAnalysisResult.executedTactics].
  repeat split; [exact Hm | exact He | exact Hc].
Qed.

Section JsMapFacts.

Context {V : Type}.

Lemma get_set_same (k : Z) (v : V) (m : JsMap.t V) :
  JsMap.get k (JsMap.set k v m) = Some v.
Proof.
  induction m as [|[k' v'] m IH]; cbn [JsMap.set JsMap.get].
  - rewrite Z.eqb_refl. reflexivity.
  - destruct (k' =? k)%Z eqn:Hk; cbn [JsMap.get].
    + rewrite Z.eqb_refl. reflexivity.
    + rewrite Hk. exact IH.
Qed.

Lemma get_set_other (k k' : Z) (v : V) (m : JsMap.t V) :
  k' <> k -> JsMap.get k' (JsMap.set k v m) = JsMap.get k' m.
Proof.
  intros Hne. induction m as [|[k0 v0] m IH]; cbn [JsMap.set JsMap.get].
  - destruct (Z.eqb_spec k k'); [congruence | reflexivity].
  - destruct (Z.eqb_spec k0 k) as [->|Hk]; cbn [JsMap.get].
    + destruct (Z.eqb_spec k k'); [congruence|].
      reflexivity.
    + destruct (k0 =? k')%Z; [reflexivity | exact IH].
Qed.

Lemma set_fresh (k : Z) (v : V) (m : JsMap.t V) :
  ~ In k (map fst m) -> JsMap.set k v m = (m ++ [(k, v)])%list.
Proof.
  induction m as [|[k' v'] m IH]; cbn [JsMap.set map fst In app]; intros Hin.
  - reflexivity.
  - destruct (Z.eqb_spec k' k) as [->|Hk]; [exfalso; apply Hin; left; reflexivity|].
    f_equal. apply IH. intros H. apply Hin. right. exact H.
Qed.

Lemma get_None (k : Z) (m : JsMap.t V) :
  ~ In k (map fst m) -> JsMap.get k m = None.
Proof.
  induction m as [|[k' v'] m IH]; cbn [JsMap.get map fst In]; intros Hin.
  - reflexivity.
  - destruct (Z.eqb_spec k' k) as [->|Hk]; [exfalso; apply Hin; left; reflexivity|].
    apply IH. intros H. apply Hin. right. exact H.
Qed.

Lemma get_In (k : Z) (v : V) (m : JsMap.t V) :
  NoDup (map fst m) -> In (k, v) m -> JsMap.get k m = Some v.
Proof.
  induction m as [|[k' v'] m IH]; cbn [JsMap.get map fst In]; intros Hnd Hin.
  - contradiction.
  - inversion Hnd as [|? ? Hnotin Hnd']; subst.
    destruct Hin as [[= -> ->]|Hin].
    + rewrite Z.eqb_refl. reflexivity.
    + destruct (Z.eqb_spec k' k) as [->|Hk].
      * exfalso. apply Hnotin. apply (in_map fst) in Hin. exact Hin.
      * apply IH; assumption.
Qed.

(** Without a key that is there twice, [delete] leaves the entries of
    the other keys. *)
Lemma delete_filter (k : Z) (m : JsMap.t V) :
  NoDup (map fst m) ->
  JsMap.delete k m
  = (existsb (fun entry => (fst entry =? k)%Z) m,
     filter (fun entry => negb (fst entry =? k)%Z) m).
Proof.
  induction m as [|[k' v'] m IH]; cbn [JsMap.delete map fst existsb filter];
    intros Hnd; [reflexivity|].
  inversion Hnd as [|? ? Hnotin Hnd']; subst.
  destruct (Z.eqb_spec k' k) as [->|Hk]; cbn [negb orb].
  - f_equal. symmetry. apply forallb_filter_id. apply forallb_forall.
    intros [k0 v0] Hin. cbn [fst]. destruct (Z.eqb_spec k0 k) as [->|]; [|reflexivity].
    exfalso. apply Hnotin. apply (in_map fst) in Hin. exact Hin.
  - rewrite (IH Hnd'). reflexivity.
Qed.

Lemma NoDup_keys_filter (p : Z * V -> bool) (m : JsMap.t V) :
  NoDup (map fst m) -> NoDup (map fst (filter p m)).
Proof.
  induction m as [|e m IH]; cbn [map filter]; intros Hnd; [constructor|].
  inversion Hnd as [|? ? Hnotin Hnd']; subst.
  destruct (p e); cbn [map]; [|apply IH, Hnd'].
  constructor; [|apply IH, Hnd'].
  intros Hin. apply Hnotin. apply in_map_iff in Hin.
  destruct Hin as (x & Hx & Hin). apply filter_In in Hin.
  rewrite <- Hx. apply in_map. apply Hin.
Qed.

Lemma keyed_filter (idOf : V -> Z) (counter : Z) (p : Z * V -> bool) (m : JsMap.t V) :
  Props.keyed idOf counter m -> Props.keyed idOf counter (filter p m).
Proof.
  intros (Hc & Hnd & Hall). split; [exact Hc|]. split; [apply NoDup_keys_filter, Hnd|].
  apply Forall_forall. intros e He. apply filter_In in He.
  exact (proj1 (Forall_forall _ _) Hall e (proj1 He)).
Qed.

Lemma keyed_delete (idOf : V -> Z) (counter : Z) (k : Z) (m : JsMap.t V) :
  Props.keyed idOf counter m -> Props.keyed idOf counter (snd (JsMap.delete k m)).
Proof.
  intros Hk. rewrite (delete_filter k m (proj1 (proj2 Hk))). apply keyed_filter, Hk.
Qed.

Lemma keyed_fresh (idOf : V -> Z) (counter : Z) (m : JsMap.t V) :
  Props.keyed idOf counter m -> ~ In counter (map fst m).
Proof.
  intros (_ & _ & Hall) Hin. apply in_map_iff in Hin. destruct Hin as (e & He & Hin).
  pose proof (proj1 (Forall_forall _ _) Hall e Hin) as [_ Hrange]. lia.
Qed.

Lemma keyed_set (idOf : V -> Z) (counter : Z) (v : V) (m : JsMap.t V) :
  idOf v = counter ->
  Props.keyed idOf counter m ->
  Props.keyed idOf (counter + 1) (JsMap.set counter v m).
Proof.
  intros Hid Hk. rewrite (set_fresh _ _ _ (keyed_fresh _ _ _ Hk)).
  destruct Hk as (Hc & Hnd & Hall). split; [lia|]. split.
  - rewrite map_app. cbn [map fst]. apply NoDup_app.
    + exact Hnd.
    + constructor; [intros []|constructor].
    + intros a Ha [<-|[]]. apply in_map_iff in Ha. destruct Ha as (e & He & Hin).
      pose proof (proj1 (Forall_forall _ _) Hall e Hin) as [_ Hrange]. lia.
  - apply Forall_app. split.
    + apply Forall_forall. intros e He.
      pose proof (proj1 (Forall_forall _ _) Hall e He) as [Hid' Hrange].
      split; [exact Hid' | lia].
    + constructor; [|constructor]. cbn [fst snd]. split; [exact Hid | lia].
Qed.

Lemma keyed_entry (idOf : V -> Z) (counter : Z) (m : JsMap.t V) (e : Z * V) :
  Props.keyed idOf counter m -> In e m -> idOf (snd e) = fst e.
Proof.
  intros (_ & _ & Hall) Hin. exact (proj1 (proj1 (Forall_forall _ _) Hall e Hin)).
Qed.

Lemma keys_injective (m : JsMap.t V) (e e' : Z * V) :
  NoDup (map fst m) -> In e m -> In e' m -> fst e = fst e' -> e = e'.
Proof.
  intros Hnd He He' Hfst. destruct e as [k v], e' as [k' v']. cbn [fst] in Hfst. subst k'.
  pose proof (get_In _ _ _ Hnd He) as H1. pose proof (get_In _ _ _ Hnd He') as H2.
  congruence.
Qed.

Lemma filter_filter {A : Type} (f g : A -> bool) (l : list A) :
  filter f (filter g l) = filter (fun x => g x && f x) l.
Proof.
  induction l as [|x l IH]; cbn [filter]; [reflexivity|].
  destruct (g x); cbn [filter andb]; [destruct (f x)|]; rewrite IH; reflexivity.
Qed.

Lemma filter_all {A : Type} (f : A -> bool) (l : list A) :
  (forall x, In x l -> f x = true) -> filter f l = l.
Proof. intros H. apply forallb_filter_id, forallb_forall, H. Qed.

Lemma find_app {A : Type} (f : A -> bool) (l l' : list A) :
  find f (l ++ l') = match find f l with Some x => Some x | None => find f l' end.
Proof.
  induction l as [|x l IH]; cbn [app find]; [reflexivity|].
  destruct (f x); [reflexivity | exact IH].
Qed.

(** Deleting rows one after the other under their identifiers. *)
Lemma delete_each (idOf : V -> Z) (counter : Z) (rows : list V) :
  forall m : JsMap.t V,
    Props.keyed idOf counter m ->
    fold_left (fun m row => snd (JsMap.delete (idOf row) m)) rows m
    = filter (fun e => negb (existsb (fun row => (idOf row =? fst e)%Z) rows)) m.
Proof.
  induction rows as [|row rows IH]; intros m Hk; cbn [fold_left existsb].
  - symmetry. apply filter_all. reflexivity.
  - rewrite (IH _ (keyed_delete idOf counter (idOf row) m Hk)).
    rewrite (delete_filter _ _ (proj1 (proj2 Hk))). cbn [snd].
    rewrite filter_filter. apply filter_ext. intros e.
    rewrite negb_orb, (Z.eqb_sym (idOf row)). reflexivity.
Qed.

(** The rows picked out of the values of a keyed map, deleted under
    their identifiers, are the entries that go. *)
Lemma delete_selected (idOf : V -> Z) (counter : Z) (p : V -> bool) (m : JsMap.t V) :
  Props.keyed idOf counter m ->
  fold_left (fun m row => snd (JsMap.delete (idOf row) m))
            (filter p (JsMap.values m)) m
  = filter (fun e => negb (p (snd e))) m.
Proof.
  intros Hk. rewrite (delete_each idOf counter _ m Hk).
  apply filter_ext_in. intros e He. f_equal.
  destruct (p (snd e)) eqn:Hp.
  - apply existsb_exists. exists (snd e). split.
    + apply filter_In. split; [apply in_map, He | exact Hp].
    + rewrite (keyed_entry _ _ _ _ Hk He). apply Z.eqb_refl.
  - destruct (existsb _ _) eqn:Hex; [|reflexivity].
    apply existsb_exists in Hex. destruct Hex as (row & Hrow & Hid).
    apply filter_In in Hrow. destruct Hrow as [Hrow Hprow].
    apply in_map_iff in Hrow. destruct Hrow as (e' & <- & He').
    apply Z.eqb_eq in Hid. rewrite (keyed_entry _ _ _ _ Hk He') in Hid.
    rewrite (keys_injective m e' e (proj1 (proj2 Hk)) He' He Hid) in Hprow.
    congruence.
Qed.

Lemma values_filter (p : V -> bool) (m : JsMap.t V) :
  JsMap.values (filter (fun e => p (snd e)) m) = filter p (JsMap.values m).
Proof.
  unfold JsMap.values. induction m as [|e m IH]; cbn [filter map]; [reflexivity|].
  destruct (p (snd e)); cbn [map]; rewrite IH; reflexivity.
Qed.

End JsMapFacts.

Section StorageFacts.

Import Schema.

Lemma new_wellKeyed : Props.wellKeyed MemStorage.new.
Proof.
  unfold Props.wellKeyed, Props.keyed, MemStorage.new. cbn.
  repeat split; try lia; constructor.
Qed.

Lemma perform_wellKeyed (s : MemStorage.t) (call : Props.StorageCall) :
  Props.wellKeyed s -> Props.wellKeyed (Props.perform s call).
Proof.
  intros (Hu & Hl & Hg & Ha). destruct call; cbn [Props.perform].
  - unfold MemStorage.createUser, Props.wellKeyed. cbn [snd
         MemStorage.users MemStorage.linkedAccounts MemStorage.games MemStorage.analysisResults
         MemStorage.userIdCounter MemStorage.linkedAccountIdCounter
         MemStorage.gameIdCounter MemStorage.analysisResultIdCounter].
    split; [apply keyed_set; [reflexivity | exact Hu]|].
    split; [exact Hl|]. split; [exact Hg | exact Ha].
  - unfold MemStorage.createLinkedAccount, Props.wellKeyed. cbn [snd
         MemStorage.users MemStorage.linkedAccounts MemStorage.games MemStorage.analysisResults
         MemStorage.userIdCounter MemStorage.linkedAccountIdCounter
         MemStorage.gameIdCounter MemStorage.analysisResultIdCounter].
    split; [exact Hu|]. split; [apply keyed_set; [reflexivity | exact Hl]|].
    split; [exact Hg | exact Ha].
  - unfold MemStorage.deleteLinkedAccount.
    pose proof (keyed_delete LinkedAccount.id _ id _ Hl) as Hd.
    destruct (JsMap.delete id (MemStorage.linkedAccounts s)) as [found rest].
    cbn [snd] in *. split; [exact Hu|]. split; [exact Hd|]. split; [exact Hg | exact Ha].
  - unfold MemStorage.createGame, Props.wellKeyed. cbn [snd
         MemStorage.users MemStorage.linkedAccounts MemStorage.games MemStorage.analysisResults
         MemStorage.userIdCounter MemStorage.linkedAccountIdCounter
         MemStorage.gameIdCounter MemStorage.analysisResultIdCounter].
    split; [exact Hu|]. split; [exact Hl|].
    split; [apply keyed_set; [reflexivity | exact Hg] | exact Ha].
  - unfold MemStorage.createAnalysisResult, Props.wellKeyed. cbn [snd
         MemStorage.users MemStorage.linkedAccounts MemStorage.games MemStorage.analysisResults
         MemStorage.userIdCounter MemStorage.linkedAccountIdCounter
         MemStorage.gameIdCounter MemStorage.analysisResultIdCounter].
    split; [exact Hu|]. split; [exact Hl|]. split; [exact Hg|].
    apply keyed_set; [reflexivity | exact Ha].
  - unfold MemStorage.deleteAnalysisResult.
    pose proof (keyed_delete AnalysisResult.id _ id _ Ha) as Hd.
    destruct (JsMap.delete id (MemStorage.analysisResults s)) as [found rest].
    cbn [snd] in *. split; [exact Hu|]. split; [exact Hl|]. split; [exact Hg | exact Hd].
  - unfold MemStorage.deleteAnalysisResultsByGameId. cbn [snd].
    split; [exact Hu|]. split; [exact Hl|]. split; [exact Hg|].
    cbn [MemStorage.withAnalysisResults MemStorage.analysisResults
         MemStorage.analysisResultIdCounter].
    rewrite (delete_selected AnalysisResult.id _ _ _ Ha).
    apply keyed_filter, Ha.
Qed.

Lemma stored_wellKeyed (calls : list Props.StorageCall) :
  Props.wellKeyed (Props.stored calls).
Proof.
  unfold Props.stored. apply fold_left_invariant.
  - intros s call. apply perform_wellKeyed.
  - exact new_wellKeyed.
Qed.

Lemma get_Some_In {V : Type} (k : Z) (v : V) (m : JsMap.t V) :
  JsMap.get k m = Some v -> In (k, v) m.
Proof.
  induction m as [|[k' v'] m IH]; cbn [JsMap.get In]; [discriminate|].
  destruct (Z.eqb_spec k' k) as [->|Hk].
  - intros [= ->]. left. reflexivity.
  - intros H. right. apply IH, H.
Qed.

Lemma get_keyed {V : Type} (idOf : V -> Z) (counter k : Z) (v : V) (m : JsMap.t V) :
  Props.keyed idOf counter m -> JsMap.get k m = Some v ->
  idOf v = k /\ (1 <= k < counter)%Z.
Proof.
  intros (_ & _ & Hall) Hget.
  exact (proj1 (Forall_forall _ _) Hall (k, v) (get_Some_In _ _ _ Hget)).
Qed.

End StorageFacts.

(** X14. Whatever calls are made on a new storage, each of its four
    maps holds every row under the identifier of the row, no identifier
    twice, and every identifier is at least 1 and below the counter of
    the map; so a row that is looked up by identifier has that
    identifier. *)
Theorem MemStorage_rows_keyed_by_id (calls : list Props.StorageCall) :
  Props.wellKeyed (Props.stored calls)
  /\ (forall id user,
        MemStorage.getUser id (Props.stored calls) = Some user ->
        Schema.User.id user = id)
  /\ (forall id account,
        MemStorage.getLinkedAccount id (Props.stored calls) = Some account ->
        Schema.LinkedAccount.id account = id)
  /\ (forall id game,
        MemStorage.getGame id (Props.stored calls) = Some game ->
        Schema.Game.id game = id).
Proof.
  pose proof (stored_wellKeyed calls) as (Hu & Hl & Hg & Ha).
  split; [exact (stored_wellKeyed calls)|].
  split; [|split]; intros id row Hget.
  - exact (proj1 (get_keyed _ _ _ _ _ Hu Hget)).
  - exact (proj1 (get_keyed _ _ _ _ _ Hl Hget)).
  - exact (proj1 (get_keyed _ _ _ _ _ Hg Hget)).
Qed.

(** X15. [createAnalysisResult] gives the new row the value of the
    counter as identifier and adds it after the rows there are, and it
    replaces nothing: the results of a game are those there were,
    followed by the new one when it is of that game, and the result of a
    game and a pipeline is still the older one when there was one. *)
Theorem createAnalysisResult_keeps_older_results (now : Schema.Date)
  (insertResult : Schema.InsertAnalysisResult.t) (s : MemStorage.t) :
  Props.wellKeyed s ->
  let result := fst (MemStorage.createAnalysisResult now insertResult s) in
  let s' := snd (MemStorage.createAnalysisResult now insertResult s) in
  result
  = {| Schema.AnalysisResult.id := MemStorage.analysisResultIdCounter s;
       Schema.AnalysisResult.gameId := Schema.InsertAnalysisResult.gameId insertResult;
       Schema.AnalysisResult.pipeline := Schema.InsertAnalysisResult.pipeline insertResult;
       Schema.AnalysisResult.resultJson :=
         Schema.InsertAnalysisResult.resultJson insertResult;
       Schema.AnalysisResult.createdAt := now |}
  /\ MemStorage.analysisResultIdCounter s' = (MemStorage.analysisResultIdCounter s + 1)%Z
  /\ (forall gameId,
        MemStorage.getAnalysisResults gameId s'
        = (MemStorage.getAnalysisResults gameId s
           ++ (if (Schema.InsertAnalysisResult.gameId insertResult =? gameId)%Z
               then [result] else []))%list)
  /\ (forall gameId pipeline,
        MemStorage.getAnalysisResult gameId pipeline s'
        = match MemStorage.getAnalysisResult gameId pipeline s with
          | Some older => Some older
          | None =>
              if (Schema.InsertAnalysisResult.gameId insertResult =? gameId)%Z
                 && String.eqb (Schema.InsertAnalysisResult.pipeline insertResult) pipeline
              then Some result else None
          end).
Proof.
  intros (_ & _ & _ & Ha). cbv zeta.
  unfold MemStorage.createAnalysisResult, MemStorage.getAnalysisResults,
    MemStorage.getAnalysisResult.
  cbn [fst snd MemStorage.analysisResults MemStorage.analysisResultIdCounter].
  rewrite (set_fresh _ _ _ (keyed_fresh _ _ _ Ha)).
  split; [reflexivity|]. split; [reflexivity|].
  unfold JsMap.values. rewrite map_app. cbn [map snd]. split.
  - intros gameId. rewrite filter_app. cbn [filter Schema.AnalysisResult.gameId].
    reflexivity.
  - intros gameId pipeline. rewrite find_app.
    cbn [find Schema.AnalysisResult.gameId Schema.AnalysisResult.pipeline].
    reflexivity.
Qed.

Lemma createAnalysisResult_keeps_older_results_witness :
  let first := {| Schema.InsertAnalysisResult.gameId := 7%Z;
                  Schema.InsertAnalysisResult.pipeline := "game_analysis";
                  Schema.InsertAnalysisResult.resultJson := JNull |} in
  let second := {| Schema.InsertAnalysisResult.gameId := 7%Z;
                   Schema.InsertAnalysisResult.pipeline := "game_analysis";
                   Schema.InsertAnalysisResult.resultJson := JBool true |} in
  let s := Props.stored [Props.CreateAnalysisResult 100%Z first] in
  option_map Schema.AnalysisResult.resultJson
    (MemStorage.getAnalysisResult 7%Z "game_analysis"
       (snd (MemStorage.createAnalysisResult 200%Z second s)))
  = Some JNull.
Proof.
  cbv zeta.
  destruct (createAnalysisResult_keeps_older_results 200%Z
              {| Schema.InsertAnalysisResult.gameId := 7%Z;
                 Schema.InsertAnalysisResult.pipeline := "game_analysis";
                 Schema.InsertAnalysisResult.resultJson := JBool true |}
              (Props.stored
                 [Props.CreateAnalysisResult 100%Z
                    {| Schema.InsertAnalysisResult.gameId := 7%Z;
                       Schema.InsertAnalysisResult.pipeline := "game_analysis";
                       Schema.InsertAnalysisResult.resultJson := JNull |}])
              (stored_wellKeyed _)) as (_ & _ & _ & H).
  rewrite H. reflexivity.
Defined.

(** X16. In a storage whose rows are keyed by identifier,
    [deleteAnalysisResultsByGameId] answers true, leaves no result of
    the game, and leaves the results of every other game as they were,
    in the same order; the other maps and the counters are not touched. *)
Theorem deleteAnalysisResultsByGameId_clears (gameId : Z) (s : MemStorage.t) :
  Props.wellKeyed s ->
  let s' := snd (MemStorage.deleteAnalysisResultsByGameId gameId s) in
  fst (MemStorage.deleteAnalysisResultsByGameId gameId s) = true
  /\ MemStorage.getAnalysisResults gameId s' = []
  /\ (forall pipeline, MemStorage.getAnalysisResult gameId pipeline s' = None)
  /\ (forall other, other <> gameId ->
        MemStorage.getAnalysisResults other s' = MemStorage.getAnalysisResults other s)
  /\ MemStorage.games s' = MemStorage.games s
  /\ MemStorage.analysisResultIdCounter s' = MemStorage.analysisResultIdCounter s
  /\ Props.wellKeyed s'.
Proof.
  intros Hs. pose proof Hs as (Hu & Hl & Hg & Ha). cbv zeta.
  split; [reflexivity|].
  assert (Hmap :
    MemStorage.analysisResults (snd (MemStorage.deleteAnalysisResultsByGameId gameId s))
    = filter (fun e => negb (Schema.AnalysisResult.gameId (snd e) =? gameId)%Z)
             (MemStorage.analysisResults s)).
  { unfold MemStorage.deleteAnalysisResultsByGameId.
    cbn [snd MemStorage.withAnalysisResults MemStorage.analysisResults].
    apply (delete_selected Schema.AnalysisResult.id _
             (fun result => (Schema.AnalysisResult.gameId result =? gameId)%Z) _ Ha). }
  assert (Hvalues :
    JsMap.values
      (MemStorage.analysisResults
         (snd (MemStorage.deleteAnalysisResultsByGameId gameId s)))
    = filter (fun result => negb (Schema.AnalysisResult.gameId result =? gameId)%Z)
             (JsMap.values (MemStorage.analysisResults s))).
  { rewrite Hmap.
    apply (values_filter
             (fun result => negb (Schema.AnalysisResult.gameId result =? gameId)%Z)). }
  split; [|split; [|split; [|split; [|split]]]].
  - unfold MemStorage.getAnalysisResults. rewrite Hvalues, filter_filter.
    generalize (JsMap.values (MemStorage.analysisResults s)) as l. clear. intros l.
    induction l as [|x l IH]; cbn [filter]; [reflexivity|].
    destruct (Schema.AnalysisResult.gameId x =? gameId)%Z; exact IH.
  - intros pipeline. unfold MemStorage.getAnalysisResult. rewrite Hvalues.
    generalize (JsMap.values (MemStorage.analysisResults s)) as l. clear. intros l.
    induction l as [|x l IH]; cbn [filter find]; [reflexivity|].
    destruct (Schema.AnalysisResult.gameId x =? gameId)%Z eqn:Hx; cbn [negb find];
      [exact IH|]. rewrite Hx. exact IH.
  - intros other Hother. unfold MemStorage.getAnalysisResults.
    rewrite Hvalues, filter_filter. apply filter_ext. intros x.
    destruct (Z.eqb_spec (Schema.AnalysisResult.gameId x) other) as [->|Hx];
      [|apply andb_false_r].
    destruct (Z.eqb_spec other gameId); [contradiction | reflexivity].
  - reflexivity.
  - reflexivity.
  - exact (perform_wellKeyed s (Props.DeleteAnalysisResultsByGameId gameId) Hs).
Qed.

Lemma deleteAnalysisResultsByGameId_clears_witness :
  let result gameId pipeline :=
    Props.CreateAnalysisResult 100%Z
      {| Schema.InsertAnalysisResult.gameId := gameId;
         Schema.InsertAnalysisResult.pipeline := pipeline;
         Schema.InsertAnalysisResult.resultJson := JNull |} in
  let s := Props.stored [result 1%Z "game_analysis"; result 2%Z "game_analysis";
                         result 1%Z "tactics"; Props.DeleteAnalysisResult 1%Z;
                         result 1%Z "openings"] in
  MemStorage.getAnalysisResults 1%Z
    (snd (MemStorage.deleteAnalysisResultsByGameId 1%Z s)) = []
  /\ map Schema.AnalysisResult.id
       (MemStorage.getAnalysisResults 2%Z
          (snd (MemStorage.deleteAnalysisResultsByGameId 1%Z s))) = [2%Z].
Proof.
  cbv zeta.
  match goal with
  | |- context [MemStorage.deleteAnalysisResultsByGameId 1%Z ?s] =>
      destruct (deleteAnalysisResultsByGameId_clears 1%Z s (stored_wellKeyed _))
        as (_ & Hnone & _ & Hother & _)
  end.
  split; [exact Hnone|]. rewrite Hother by discriminate. reflexivity.
Defined.

(** X17. In a storage whose rows are keyed by identifier, [createUser]
    gives the new user the value of the counter as identifier, and
    [getUser] then finds the user under it and every other user as
    before.  No user name is refused: [getUserByUsername], which
    compares the names without regard to case, still answers with the
    older user when there was one of that name, and with the new user
    only when there was none. *)
Theorem createUser_then_getUser (now : Schema.Date) (insertUser : Schema.InsertUser.t)
  (s : MemStorage.t) :
  Props.wellKeyed s ->
  let user := fst (MemStorage.createUser now insertUser s) in
  let s' := snd (MemStorage.createUser now insertUser s) in
  user
  = {| Schema.User.id := MemStorage.userIdCounter s;
       Schema.User.username := Schema.InsertUser.username insertUser;
       Schema.User.password := Schema.InsertUser.password insertUser;
       Schema.User.email := Schema.InsertUser.email insertUser;
       Schema.User.dateJoined := now |}
  /\ MemStorage.getUser (MemStorage.userIdCounter s) s = None
  /\ MemStorage.getUser (Schema.User.id user) s' = Some user
  /\ (forall id, id <> Schema.User.id user ->
        MemStorage.getUser id s' = MemStorage.getUser id s)
  /\ (forall username,
        MemStorage.getUserByUsername username s'
        = match MemStorage.getUserByUsername username s with
          | Some older => Some older
          | None =>
              if String.eqb (JS.toLowerCase (Schema.InsertUser.username insertUser))
                            (JS.toLowerCase username)
              then Some user else None
          end).
Proof.
  intros (Hu & _ & _ & _). cbv zeta.
  unfold MemStorage.createUser, MemStorage.getUser, MemStorage.getUserByUsername.
  cbn [fst snd MemStorage.users MemStorage.userIdCounter Schema.User.id].
  split; [reflexivity|].
  split; [apply get_None, (keyed_fresh _ _ _ Hu)|].
  split; [apply get_set_same|].
  split; [intros id Hid; apply get_set_other, Hid|].
  intros username. rewrite (set_fresh _ _ _ (keyed_fresh _ _ _ Hu)).
  unfold JsMap.values. rewrite map_app, find_app. cbn [map snd find Schema.User.username].
  reflexivity.
Qed.

Lemma createUser_then_getUser_witness :
  let first := {| Schema.InsertUser.username := "Magnus";
                  Schema.InsertUser.password := "a";
                  Schema.InsertUser.email := "first" |} in
  let second := {| Schema.InsertUser.username := "MAGNUS";
                   Schema.InsertUser.password := "b";
                   Schema.InsertUser.email := "second" |} in
  let s := Props.stored [Props.CreateUser 100%Z first] in
  option_map Schema.User.email
    (MemStorage.getUserByUsername "magnus" (snd (MemStorage.createUser 200%Z second s)))
  = Some "first"
  /\ option_map Schema.User.email
       (MemStorage.getUser 2%Z (snd (MemStorage.createUser 200%Z second s)))
     = Some "second".
Proof.
  cbv zeta.
  match goal with
  | |- context [MemStorage.createUser ?now ?ins ?s] =>
      destruct (createUser_then_getUser now ins s (stored_wellKeyed _))
        as (_ & _ & Hget & _ & Hname)
  end.
  split; [rewrite Hname; reflexivity|]. exact (f_equal (option_map Schema.User.email) Hget).
Defined.

(** X18. In a storage whose rows are keyed by identifier,
    [deleteLinkedAccount] answers whether there was an account under the
    identifier; afterwards there is none, the account under any other
    identifier is as before, and the accounts of a user are those there
    were without the deleted one, in the same order. *)
Theorem deleteLinkedAccount_removes (id : Z) (s : MemStorage.t) :
  Props.wellKeyed s ->
  let s' := snd (MemStorage.deleteLinkedAccount id s) in
  fst (MemStorage.deleteLinkedAccount id s)
  = match MemStorage.getLinkedAccount id s with Some _ => true | None => false end
  /\ MemStorage.getLinkedAccount id s' = None
  /\ (forall other, other <> id ->
        MemStorage.getLinkedAccount other s' = MemStorage.getLinkedAccount other s)
  /\ (forall userId,
        MemStorage.getLinkedAccounts userId s'
        = filter (fun account => negb (Schema.LinkedAccount.id account =? id)%Z)
                 (MemStorage.getLinkedAccounts userId s)).
Proof.
  intros (_ & Hl & _ & _). cbv zeta.
  unfold MemStorage.deleteLinkedAccount, MemStorage.getLinkedAccount,
    MemStorage.getLinkedAccounts.
  rewrite (delete_filter _ _ (proj1 (proj2 Hl))).
  cbn [fst snd MemStorage.linkedAccounts].
  destruct Hl as (_ & Hnd & Hall).
  induction (MemStorage.linkedAccounts s) as [|[k v] m IH].
  - repeat split; reflexivity.
  - inversion Hnd as [|? ? Hnotin Hnd']; subst.
    inversion Hall as [|? ? [Hid _] Hall']; subst. cbn [fst snd] in Hid.
    destruct (IH Hnd' Hall') as (H1 & H2 & H3 & H4).
    cbn [existsb filter JsMap.get JsMap.values map fst snd].
    destruct (Z.eqb_spec k id) as [->|Hk]; cbn [orb negb JsMap.get].
    + split; [reflexivity|]. split; [exact H2|]. split.
      * intros other Hother. destruct (Z.eqb_spec id other); [congruence|].
        apply H3, Hother.
      * intros userId. unfold JsMap.values in H4. rewrite H4.
        destruct (Schema.LinkedAccount.userId v =? userId)%Z; [|reflexivity].
        cbn [filter]. rewrite Hid, Z.eqb_refl. reflexivity.
    + split; [exact H1|]. split.
      * destruct (Z.eqb_spec k id); [contradiction | exact H2].
      * split.
        -- intros other Hother. destruct (k =? other)%Z; [reflexivity | apply H3, Hother].
        -- intros userId. cbn [JsMap.values map snd filter].
           unfold JsMap.values in H4.
           destruct (Schema.LinkedAccount.userId v =? userId)%Z; cbn [filter].
           ++ rewrite Hid. destruct (Z.eqb_spec k id); [contradiction|].
              cbn [negb]. f_equal. apply H4.
           ++ apply H4.
Qed.

Lemma deleteLinkedAccount_removes_witness :
  let account platform :=
    Props.CreateLinkedAccount 100%Z
      {| Schema.InsertLinkedAccount.userId := 1;
         Schema.InsertLinkedAccount.platform := platform;
         Schema.InsertLinkedAccount.username := "magnus";
         Schema.InsertLinkedAccount.oauthToken := None |} in
  let s := Props.stored [account "lichess"; account "chess.com"] in
  fst (MemStorage.deleteLinkedAccount 1%Z s) = true
  /\ fst (MemStorage.deleteLinkedAccount 5%Z s) = false
  /\ map Schema.LinkedAccount.platform
       (MemStorage.getLinkedAccounts 1%Z (snd (MemStorage.deleteLinkedAccount 1%Z s)))
     = ["chess.com"].
Proof.
  cbv zeta.
  match goal with
  | |- context [MemStorage.deleteLinkedAccount 1%Z ?s] =>
      destruct (deleteLinkedAccount_removes 1%Z s (stored_wellKeyed _))
        as (Hfound & _ & _ & Hrest);
      destruct (deleteLinkedAccount_removes 5%Z s (stored_wellKeyed _))
        as (Hmissing & _)
  end.
  split; [rewrite Hfound; reflexivity|].
  split; [rewrite Hmissing; reflexivity|].
  rewrite Hrest. reflexivity.
Defined.

Section SliceFacts.

Context {A : Type}.

(** [a.slice(start, start + count)] for a start and a count that are
    not negative. *)
Lemma slice_window (start count : Z) (a : list A) :
  (0 <= start)%Z -> (0 <= count)%Z ->
  JsArray.slice start (start + count) a
  = firstn (Z.to_nat count) (skipn (Z.to_nat start) a).
Proof.
  intros Hstart Hcount. unfold JsArray.slice.
  destruct (Z.ltb_spec start 0) as [|_]; [lia|].
  destruct (Z.ltb_spec (start + count) 0) as [|_]; [lia|].
  destruct (Z_le_gt_dec (Z.of_nat (length a)) start) as [Hout|Hin].
  - rewrite (skipn_all2 a) by lia. rewrite (skipn_all2 a) by lia.
    rewrite !firstn_nil. reflexivity.
  - replace (Z.min start (Z.of_nat (length a))) with start by lia.
    rewrite <- (firstn_min_length (Z.to_nat count)). f_equal.
    rewrite length_skipn. lia.
Qed.

End SliceFacts.

(** X19. [getGames] with a limit and an offset that are not negative
    gives the window of that many games from the offset on in the sorted
    list of the games of the user: at most [limit] games, none for an
    offset beyond the end, and two windows that follow each other join
    into the window of both.  Without a limit the offset is not looked
    at.  This holds whatever order [sort] gives. *)
Theorem getGames_window (sort : forall A : Type, (A -> A -> Z) -> list A -> list A)
  (userId limit offset : Z) (s : MemStorage.t) :
  (0 <= offset)%Z -> (0 <= limit)%Z ->
  let all := MemStorage.getGames sort userId None 0%Z s in
  MemStorage.getGames sort userId (Some limit) offset s
  = firstn (Z.to_nat limit) (skipn (Z.to_nat offset) all)
  /\ (Z.of_nat (length (MemStorage.getGames sort userId (Some limit) offset s))
      <= limit)%Z
  /\ ((Z.of_nat (length all) <= offset)%Z ->
      MemStorage.getGames sort userId (Some limit) offset s = [])
  /\ (forall next, (0 <= next)%Z ->
        (MemStorage.getGames sort userId (Some limit) offset s
         ++ MemStorage.getGames sort userId (Some next) (offset + limit)%Z s)%list
        = MemStorage.getGames sort userId (Some (limit + next)%Z) offset s)
  /\ MemStorage.getGames sort userId None offset s = all.
Proof.
  intros Hoffset Hlimit. cbv zeta. unfold MemStorage.getGames.
  generalize (sort Schema.Game.t MemStorage.byDatePlayed
                (filter (fun game => (Schema.Game.userId game =? userId)%Z)
                        (JsMap.values (MemStorage.games s)))) as games.
  intros games. rewrite (slice_window offset limit games Hoffset Hlimit).
  split; [reflexivity|]. split; [|split; [|split; [|reflexivity]]].
  - rewrite length_firstn. lia.
  - intros Hend. rewrite skipn_all2 by lia. apply firstn_nil.
  - intros next Hnext.
    rewrite (slice_window (offset + limit) next games) by lia.
    rewrite (slice_window offset (limit + next) games) by lia.
    rewrite Z2Nat.inj_add by lia. rewrite (Z2Nat.inj_add limit next) by lia.
    rewrite (Nat.add_comm (Z.to_nat offset)), <- skipn_skipn.
    generalize (skipn (Z.to_nat offset) games) as l. intros l.
    generalize (Z.to_nat limit) as a, (Z.to_nat next) as b. clear.
    intros a b. revert l. induction a as [|a IH]; intros l; cbn [Nat.add].
    + reflexivity.
    + destruct l as [|x l]; cbn [firstn skipn app].
      * rewrite firstn_nil. reflexivity.
      * f_equal. apply IH.
Qed.

Lemma getGames_window_witness :
  let game pgn :=
    Props.CreateGame 100%Z
      {| Schema.InsertGame.userId := 1;
         Schema.InsertGame.platform := "lichess";
         Schema.InsertGame.pgn := pgn;
         Schema.InsertGame.datePlayed := None |} in
  let s := Props.stored [game "a"; game "b"; game "c"] in
  map Schema.Game.pgn (MemStorage.getGames (fun _ _ l => l) 1%Z (Some 2%Z) 1%Z s)
  = ["b"; "c"].
Proof.
  cbv zeta.
  match goal with
  | |- context [MemStorage.getGames ?sort 1%Z (Some 2%Z) 1%Z ?s] =>
      destruct (getGames_window sort 1%Z 2%Z 1%Z s ltac:(lia) ltac:(lia)) as (H & _)
  end.
  rewrite H. reflexivity.
Defined.

Section PaginationFacts.

Lemma pagesBetween_three (from to : Z) :
  (to = from + 2)%Z ->
  GamesTable.pagesBetween from to
  = [GamesTable.Page from; GamesTable.Page (from + 1); GamesTable.Page (from + 1 + 1)].
Proof.
  intros ->. unfold GamesTable.pagesBetween.
  replace (Z.to_nat (from + 2 - from + 1)) with 3%nat by lia. reflexivity.
Qed.

End PaginationFacts.

(** X20. For a current page among the pages there are, the pagination
    bar starts with page 1, ends with the last page and shows the
    current page; it has at most seven items, its page numbers increase
    strictly and are pages there are, and it has an ellipsis only when
    there are more than five pages. *)
Theorem getPageNumbers_shape (totalPages currentPage : Z) :
  (1 <= currentPage <= totalPages)%Z ->
  let items := GamesTable.getPageNumbers totalPages currentPage in
  hd_error items = Some (GamesTable.Page 1)
  /\ last items GamesTable.Ellipsis = GamesTable.Page totalPages
  /\ In (GamesTable.Page currentPage) items
  /\ (length items <= 7)%nat
  /\ Props.increasing (Props.pagesOf items)
  /\ Forall (fun n => (1 <= n <= totalPages)%Z) (Props.pagesOf items)
  /\ (In GamesTable.Ellipsis items <-> (5 < totalPages)%Z).
Proof.
  intros Hrange. cbv zeta. unfold GamesTable.getPageNumbers.
  destruct (Z.leb_spec totalPages 5) as [Hfew|Hmany].
  - assert (Htotal : (totalPages = 1 \/ totalPages = 2 \/ totalPages = 3
                      \/ totalPages = 4 \/ totalPages = 5)%Z) by lia.
    assert (Hnone : forall items,
              ~ In GamesTable.Ellipsis items ->
              (In GamesTable.Ellipsis items <-> (5 < totalPages)%Z)).
    { intros items H. split; [intros Hin; contradiction | lia]. }
    destruct Htotal as [-> | [-> | [-> | [-> | ->]]]];
      change (GamesTable.pagesBetween 1 1)
        with [GamesTable.Page 1];
      change (GamesTable.pagesBetween 1 2)
        with [GamesTable.Page 1; GamesTable.Page 2];
      change (GamesTable.pagesBetween 1 3)
        with [GamesTable.Page 1; GamesTable.Page 2; GamesTable.Page 3];
      change (GamesTable.pagesBetween 1 4)
        with [GamesTable.Page 1; GamesTable.Page 2; GamesTable.Page 3; GamesTable.Page 4];
      change (GamesTable.pagesBetween 1 5)
        with [GamesTable.Page 1; GamesTable.Page 2; GamesTable.Page 3; GamesTable.Page 4;
              GamesTable.Page 5];
      (split; [reflexivity|]); (split; [reflexivity|]);
      (split; [cbn [In];
               assert (Hc : (currentPage = 1 \/ currentPage = 2 \/ currentPage = 3
                             \/ currentPage = 4 \/ currentPage = 5)%Z) by lia;
               repeat (destruct Hc as [-> | Hc]; [tauto || lia|]); subst; tauto || lia|]);
      (split; [cbn [length]; lia|]);
      (split; [cbn [Props.pagesOf flat_map app Props.increasing]; repeat split; lia|]);
      (split; [cbn [Props.pagesOf flat_map app]; repeat (constructor; try lia)|]);
      apply Hnone; cbn [In]; intros H;
      repeat (destruct H as [H|H]; [discriminate H|]); exact H.
  - assert (Hsome : forall items,
              In GamesTable.Ellipsis items ->
              (In GamesTable.Ellipsis items <-> (5 < totalPages)%Z)).
    { intros items H. split; [intros _; lia | intros _; exact H]. }
    destruct (Z.leb_spec currentPage 3) as [Hstart|Hlater].
    + change (GamesTable.pagesBetween 1 3)
        with [GamesTable.Page 1; GamesTable.Page 2; GamesTable.Page 3].
      cbn [app]. split; [reflexivity|]. split; [reflexivity|].
      split.
      { cbn [In].
        assert (Hc : (currentPage = 1 \/ currentPage = 2 \/ currentPage = 3)%Z) by lia.
        destruct Hc as [-> | [-> | ->]]; tauto. }
      split; [cbn [length]; lia|].
      split; [cbn [Props.pagesOf flat_map app Props.increasing]; repeat split; lia|].
      split; [cbn [Props.pagesOf flat_map app]; repeat (constructor; try lia)|].
      apply Hsome. cbn [In]. tauto.
    + destruct (Z.leb_spec (totalPages - 2) currentPage) as [Hend|Hmiddle].
      * rewrite (pagesBetween_three (totalPages - 2) totalPages) by lia.
        cbn [app]. split; [reflexivity|].
        split; [cbn [last]; f_equal; lia|].
        split.
        { cbn [In].
          assert (Hc : (currentPage = totalPages - 2 \/ currentPage = totalPages - 2 + 1
                        \/ currentPage = totalPages - 2 + 1 + 1)%Z) by lia.
          destruct Hc as [-> | [-> | ->]]; tauto. }
        split; [cbn [length]; lia|].
        split; [cbn [Props.pagesOf flat_map app Props.increasing]; repeat split; lia|].
        split; [cbn [Props.pagesOf flat_map app]; repeat (constructor; try lia)|].
        apply Hsome. cbn [In]. tauto.
      * split; [reflexivity|]. split; [reflexivity|].
        split; [cbn [In]; tauto|].
        split; [cbn [length]; lia|].
        split; [cbn [Props.pagesOf flat_map app Props.increasing]; repeat split; lia|].
        split; [cbn [Props.pagesOf flat_map app]; repeat (constructor; try lia)|].
        apply Hsome. cbn [In]. tauto.
Qed.

Lemma getPageNumbers_shape_witness :
  GamesTable.getPageNumbers 9 5
  = [GamesTable.Page 1; GamesTable.Ellipsis; GamesTable.Page 4; GamesTable.Page 5;
     GamesTable.Page 6; GamesTable.Ellipsis; GamesTable.Page 9]
  /\ In (GamesTable.Page 5) (GamesTable.getPageNumbers 9 5).
Proof.
  split; [reflexivity|].
  apply (getPageNumbers_shape 9 5). lia.
Defined.

Section ResultFacts.



End ResultFacts.


Section ClientTagPairs.

Lemma client_execHeaders_skip (a rest : string) (r : ChessApiClient.GameData) :
  ChessApiClient.execHeaders (String.length a) (a ++ rest) r
  = ChessApiClient.execHeaders 0 rest r.
Proof.
  induction a as [|x a IH]; [reflexivity|]. exact IH.
Qed.

Lemma client_execHeaders_header (key value rest : string) (r : ChessApiClient.GameData) :
  Props.isKey key = true ->
  JS.all (fun c => negb (Ascii.eqb c JS.quote)) value = true ->
  ChessApiClient.execHeaders 0 (header key value ++ rest) r
  = ChessApiClient.execHeaders 0 rest (ChessApiClient.setField key value r).
Proof.
  intros Hk Hv.
  pose proof (matchHeader_header key value rest Hk Hv) as Hm.
  pose proof (header_length key value) as Hl.
  destruct (header key value) as [|c tail] eqn:Hh; [cbn in Hl; lia|].
  cbn [append] in *. cbn [ChessApiClient.execHeaders]. rewrite Hm.
  cbn [String.length]. rewrite Nat.sub_succ, Nat.sub_0_r.
  apply client_execHeaders_skip.
Qed.

Lemma client_execHeaders_no_bracket (s : string) (r : ChessApiClient.GameData) :
  JS.any (Ascii.eqb "[") s = false -> ChessApiClient.execHeaders 0 s r = r.
Proof.
  induction s as [|c rest IH]; intros H; cbn [ChessApiClient.execHeaders]; [reflexivity|].
  cbn [JS.any] in H. apply orb_false_iff in H. destruct H as [Hc Hr].
  rewrite (matchHeader_no_bracket c rest Hc). apply IH, Hr.
Qed.

Lemma client_execHeaders_block (hs : list (string * string)) :
  forall (tail : string) (r : ChessApiClient.GameData),
    Forall Props.tagPair hs ->
    ChessApiClient.execHeaders 0 (Props.headerBlock hs ++ tail) r
    = ChessApiClient.execHeaders 0 tail (Props.setFields hs r).
Proof.
  induction hs as [|[k v] hs IH]; intros tail r Hhs; [reflexivity|].
  inversion Hhs as [|? ? [Hk Hv] Hrest]; subst. cbn [fst snd] in *.
  cbn [Props.headerBlock fst snd]. rewrite append_assoc.
  rewrite (client_execHeaders_header k v _ r Hk (isValue_noquote v Hv)).
  cbn [append]. cbn [ChessApiClient.execHeaders].
  rewrite (matchHeader_no_bracket JS.LF _ eq_refl).
  rewrite (IH tail _ Hrest). reflexivity.
Qed.

End ClientTagPairs.

(** X22. On a block of tag pairs followed by text without an opening
    bracket, the parser of the client keeps the text as it is given and
    takes the tag pairs over one after the other, by the name as it is
    written: White and Black both set the opponent, so that the later of
    the two stays, whichever side the user played; a result other than
    1-0 and 0-1 is a draw; Opening and ECO both set the opening. *)
Theorem ChessApiClient_parsePgn_tag_pairs (hs : list (string * string)) (body : string) :
  Forall Props.tagPair hs ->
  JS.any (Ascii.eqb "[") body = false ->
  ChessApiClient.parsePgn (Props.headerBlock hs ++ body)
  = Props.setFields hs
      {| ChessApiClient.pgn := Props.headerBlock hs ++ body;
         ChessApiClient.opponent := None;
         ChessApiClient.result := None;
         ChessApiClient.timestamp := None;
         ChessApiClient.timeControl := None;
         ChessApiClient.opening := None |}.
Proof.
  intros Hhs Hbody. unfold ChessApiClient.parsePgn.
  rewrite (client_execHeaders_block hs body _ Hhs).
  apply client_execHeaders_no_bracket, Hbody.
Qed.

Lemma ChessApiClient_parsePgn_tag_pairs_witness :
  let hs := [("White", "Magnus"); ("Black", "Hikaru"); ("Result", "*");
             ("white", "lower"); ("ECO", "C65"); ("Opening", "Ruy Lopez")] in
  let data := ChessApiClient.parsePgn (Props.headerBlock hs ++ "1. e4 e5 *") in
  ChessApiClient.opponent data = Some "Hikaru"
  /\ ChessApiClient.result data = Some "draw"
  /\ ChessApiClient.opening data = Some "Ruy Lopez"
  /\ Pgn.white (Pgn.parsePgn (Props.headerBlock hs ++ "1. e4 e5 *")) = Some "lower".
Proof.
  cbv zeta. rewrite ChessApiClient_parsePgn_tag_pairs.
  - repeat split.
  - repeat constructor.
  - reflexivity.
Defined.

Section TokenFacts.

Lemma splitSpaces_parts (s : string) : forall inSep : bool,
  Forall (fun part => JS.any JS.isWhiteSpace part = false)
         (JS.splitSpacesFrom inSep s).
Proof.
  induction s as [|c r IH]; intros inSep; cbn [JS.splitSpacesFrom].
  - constructor; [reflexivity | constructor].
  - destruct (JS.isWhiteSpace c) eqn:Hc.
    + destruct inSep; [apply IH|]. constructor; [reflexivity | apply IH].
    + specialize (IH false). destruct (JS.splitSpacesFrom false r) as [|hd tl].
      * constructor; [|constructor]. cbn [JS.any]. rewrite Hc. reflexivity.
      * inversion IH as [|? ? Hhd Htl]; subst. constructor; [|exact Htl].
        cbn [JS.any]. rewrite Hc, Hhd. reflexivity.
Qed.

Lemma Forall_filter {A : Type} (P : A -> Prop) (p : A -> bool) (l : list A) :
  Forall P l -> Forall P (filter p l).
Proof.
  intros H. apply Forall_forall. intros x Hx. apply filter_In in Hx.
  exact (proj1 (Forall_forall _ _) H x (proj1 Hx)).
Qed.

Lemma parseMoves_tokens (text : string) (g : Pgn.ChessGame) :
  Forall (fun m => JS.any JS.isWhiteSpace (Pgn.move m) = false
                   /\ Pgn.move m <> EmptyString) (Pgn.moves g) ->
  Forall (fun m => JS.any JS.isWhiteSpace (Pgn.move m) = false
                   /\ Pgn.move m <> EmptyString)
         (Pgn.moves (Pgn.parseMoves text g)).
Proof.
  intros Hg. unfold Pgn.parseMoves. cbv zeta. unfold Pgn.pushMoves. cbn [Pgn.moves].
  apply Forall_app. split; [exact Hg|].
  apply Forall_map. cbn [Pgn.move].
  apply Forall_forall. intros part Hpart.
  apply filter_In in Hpart. destruct Hpart as [Hpart Halnum].
  apply filter_In in Hpart. destruct Hpart as [Hpart _].
  split.
  - exact (proj1 (Forall_forall _ _) (splitSpaces_parts _ false) part Hpart).
  - intros ->. discriminate Halnum.
Qed.

Lemma setHeader_rawPgn (key value : string) (g : Pgn.ChessGame) :
  Pgn.rawPgn (Pgn.setHeader key value g) = Pgn.rawPgn g.
Proof.
  unfold Pgn.setHeader.
  repeat match goal with
         | |- context [if ?b then _ else _] => destruct b
         end; reflexivity.
Qed.

Lemma execHeaders_rawPgn (s : string) : forall (skip : nat) (g : Pgn.ChessGame),
  Pgn.rawPgn (Pgn.execHeaders skip s g) = Pgn.rawPgn g.
Proof.
  induction s as [|c r IH]; intros skip g; cbn [Pgn.execHeaders]; [reflexivity|].
  destruct skip as [|k]; [|apply IH].
  destruct (Pgn.matchHeader (String c r)) as [[[key value] len]|].
  - transitivity (Pgn.rawPgn (Pgn.setHeader key value g));
      [apply IH | apply setHeader_rawPgn].
  - apply IH.
Qed.

End TokenFacts.

(** X23. Whatever the text, no move [parsePgn] keeps is empty or holds
    white space; the text kept as raw PGN is the text given with every
    carriage return before a line feed removed, trimmed at both ends. *)
Theorem parsePgn_moves_are_tokens (pgn : string) :
  Forall (fun m => JS.any JS.isWhiteSpace (Pgn.move m) = false
                   /\ Pgn.move m <> EmptyString)
         (Pgn.moves (Pgn.parsePgn pgn))
  /\ Pgn.rawPgn (Pgn.parsePgn pgn) = JS.trim (JS.replaceCRLF pgn).
Proof.
  unfold Pgn.parsePgn. cbv zeta. split.
  - destruct (JS.lastIndexOf "]" (JS.trim (JS.replaceCRLF pgn)) =? -1)%Z;
      apply parseMoves_tokens; rewrite execHeaders_moves; constructor.
  - destruct (JS.lastIndexOf "]" (JS.trim (JS.replaceCRLF pgn)) =? -1)%Z;
      unfold Pgn.parseMoves, Pgn.pushMoves; cbn [Pgn.rawPgn];
      apply execHeaders_rawPgn.
Qed.

Section AdviceFacts.

Lemma getCommonLinesForOpening_length (openingName : string) :
  length (getCommonLinesForOpening openingName) = 2%nat
  \/ length (getCommonLinesForOpening openingName) = 3%nat.
Proof.
  unfold getCommonLinesForOpening, openingsDatabase. cbn [find fst snd].
  repeat match goal with
         | |- context [if ?b then _ else _] => destruct b
         end; cbn [length]; auto.
Qed.

End AdviceFacts.


Section OrchestratorEffects.

Context {E : ChessJs.Engine}.

Lemma fallbackAnalysis_new_board (parsedGame : Pgn.ChessGame) (userColor : string)
  (h k : Heap) :
  chessEngine k = chessEngine h ->
  fallbackAnalysis parsedGame userColor k = fallbackAnalysis parsedGame userColor h.
Proof.
  intros Heq. unfold fallbackAnalysis. unfold bind at 1. unfold bind at 5.
  unfold modify. rewrite Heq. reflexivity.
Qed.

Lemma fallbackAnalysis_common_lines (parsedGame : Pgn.ChessGame) (userColor : string)
  (h h' : Heap) (b : AnalysisBundle.t) :
  fallbackAnalysis parsedGame userColor h = (Normal b, h') ->
  exists o, AnalysisBundle.openings b = Typed o
            /\ OpeningsAnalysisResult.commonLines o <> [].
Proof.
  destruct (fallbackAnalysis_run parsedGame userColor h)
    as (g & t & o & f & h1 & h2 & h3 & h4 & _ & _ & Ho & _ & Hfb & _).
  rewrite Hfb. intros [= <- _]. exists o. split; [reflexivity|].
  destruct (runOpeningsAnalysis_run parsedGame userColor h2) as (h3' & Hrun).
  cbv zeta in Hrun. rewrite Hrun in Ho. injection Ho as <- _.
  cbn [OpeningsAnalysisResult.commonLines].
  destruct (getCommonLinesForOpening_length
              (Pgn.orElse (Pgn.opening parsedGame) "Unknown Opening")) as [Hl|Hl];
    intros Hnil; rewrite Hnil in Hl; discriminate Hl.
Qed.

End OrchestratorEffects.

(** X25. [analyzePgn] runs the four pipelines of the heuristic analysis
    in every case, also when the remote model answers all four requests:
    the two [Chess] objects are left as [fallbackAnalysis] leaves them.
    The board the pipelines replay on is a new one, so nothing depends
    on the board a former analysis left.  The simplified analysis of the
    catch block is never what is returned. *)
Theorem analyzePgn_runs_the_pipelines_anyway {E : ChessJs.Engine}
  (openRouterApiKey : string) (callOpenRouterAPI : GameInfo.t -> string -> option Json)
  (pgn username : string) (h : Heap) :
  let parsedGame := Pgn.parsePgn pgn in
  let userColor := determineUserColor parsedGame username in
  snd (analyzePgn openRouterApiKey callOpenRouterAPI pgn username h)
  = snd (fallbackAnalysis parsedGame userColor h)
  /\ (forall k : Heap,
        chessEngine k = chessEngine h ->
        analyzePgn openRouterApiKey callOpenRouterAPI pgn username k
        = analyzePgn openRouterApiKey callOpenRouterAPI pgn username h)
  /\ fst (analyzePgn openRouterApiKey callOpenRouterAPI pgn username h)
     <> Normal simplifiedAnalysis.
Proof.
  cbv zeta.
  set (parsedGame := Pgn.parsePgn pgn).
  set (userColor := determineUserColor parsedGame username).
  assert (Hrun : forall k : Heap,
    exists b k',
      fallbackAnalysis parsedGame userColor k = (Normal b, k')
      /\ analyzePgn openRouterApiKey callOpenRouterAPI pgn username k
         = (if JS.isEmpty openRouterApiKey then Normal b
            else match performAIAnalysis callOpenRouterAPI
                         (gameInfoOf pgn parsedGame userColor) with
                 | Some result => Normal result
                 | None => Normal b
                 end, k')).
  { intros k.
    destruct (fallbackAnalysis_run parsedGame userColor k)
      as (g & t & o & f & k1 & k2 & k3 & k' & _ & _ & _ & _ & Hfb & _).
    eexists _, k'. split; [exact Hfb|].
    unfold analyzePgn. fold parsedGame. fold userColor. cbv zeta.
    unfold bind at 1. unfold tryCatch at 1.
    destruct (JS.isEmpty openRouterApiKey).
    - unfold promise, await. rewrite Hfb. reflexivity.
    - unfold bind, promise, await, ret. rewrite Hfb.
      destruct (performAIAnalysis callOpenRouterAPI
                  (gameInfoOf pgn parsedGame userColor)); reflexivity. }
  destruct (Hrun h) as (b & h' & Hfb & Hh).
  split; [|split].
  - rewrite Hh, Hfb. reflexivity.
  - intros k Hk. destruct (Hrun k) as (b' & k' & Hfb' & Hk').
    rewrite (fallbackAnalysis_new_board _ _ h k Hk), Hfb in Hfb'.
    injection Hfb' as <- <-. rewrite Hh, Hk'. reflexivity.
  - rewrite Hh. cbn [fst].
    assert (Hb : Normal b <> Normal simplifiedAnalysis).
    { intros [= ->].
      destruct (fallbackAnalysis_common_lines _ _ _ _ _ Hfb) as (o & Ho & Hlines).
      cbn in Ho. injection Ho as <-. apply Hlines. reflexivity. }
    destruct (JS.isEmpty openRouterApiKey); [exact Hb|].
    unfold performAIAnalysis.
    repeat match goal with
           | |- context [match callOpenRouterAPI ?g ?p with _ => _ end] =>
               destruct (callOpenRouterAPI g p)
           end; try exact Hb.
    intros H. discriminate H.
Qed.

(** X26. [determineUserColor] always names a side: it answers black
    exactly when the Black header is the user name, letter case apart,
    and the White header is not, and white in every other case, also
    when neither header is the user name.  It does not look at the
    letter case of the user name.  With its answer, every position is
    the turn of exactly one of the user and the opponent. *)
Theorem determineUserColor_is_a_side (parsedGame : Pgn.ChessGame) (username : string) :
  let named (header : option string) :=
    match header with
    | Some name => String.eqb (JS.toLowerCase name) (JS.toLowerCase username)
    | None => false
    end in
  let userColor := determineUserColor parsedGame username in
  (userColor = "white" \/ userColor = "black")
  /\ (userColor = "black"
      <-> named (Pgn.white parsedGame) = false /\ named (Pgn.black parsedGame) = true)
  /\ (forall other,
        JS.toLowerCase other = JS.toLowerCase username ->
        determineUserColor parsedGame other = userColor)
  /\ (forall turn,
        isUserMove (Spec.opposite turn) userColor = negb (isUserMove turn userColor)).
Proof.
  cbv zeta. unfold determineUserColor.
  destruct (match Pgn.white parsedGame with
            | Some w => String.eqb (JS.toLowerCase w) (JS.toLowerCase username)
            | None => false
            end) eqn:Hw;
    [|destruct (match Pgn.black parsedGame with
                | Some b => String.eqb (JS.toLowerCase b) (JS.toLowerCase username)
                | None => false
                end) eqn:Hb].
  - split; [left; reflexivity|].
    split; [split; [discriminate | intros [H _]; discriminate H]|].
    split; [intros other ->; rewrite Hw; reflexivity|].
    intros []; reflexivity.
  - split; [right; reflexivity|].
    split; [split; [intros _; split; reflexivity | reflexivity]|].
    split; [intros other ->; rewrite Hw, Hb; reflexivity|].
    intros []; reflexivity.
  - split; [left; reflexivity|].
    split; [split; [discriminate | intros [_ H]; discriminate H]|].
    split; [intros other ->; rewrite Hw, Hb; reflexivity|].
    intros []; reflexivity.
Qed.
